(** * github-stats: commit collection and weekly activity bars

    A shallow embedding of [collect.py] and [visualize.py] and the
    properties of the aggregation, range estimation, score normalisation,
    calendar filling, bar rendering and CSV persistence code.

    Conventions of the embedding:
    - Python [int] is [Z]; Python [str] is [string] (the UTF-8 encoding, so
      that byte-wise lexicographic order is code point order);
    - a Python [float] is represented by the exact rational value of the
      binary64 number; every float-producing operation rounds to nearest,
      ties to even, with the binary64 exponent range ([float_of_Q]);
    - a call that may raise returns a [result], with Python's exception
      names;
    - a [dict]/[OrderedDict] is an association list in insertion order;
    - a [datetime.date] is its proleptic Gregorian ordinal
      ([date.toordinal()]), between 1 and [date_max];
    - diagnostic writes to [sys.stdout] do not influence any returned value
      and are left out. *)

From Stdlib Require Import ZArith QArith Qround Qabs Qpower List String Ascii Bool Lia.
From Stdlib Require Import DecimalString DecimalPos Lqa.
From Stdlib Require Import Permutation Sorting.Sorted Sorting.Mergesort Orders.
Import ListNotations.

Local Open Scope string_scope.
Local Open Scope Z_scope.

(** ** Exceptions *)

Inductive exn : Type :=
| ZeroDivisionError
| OverflowError
| ValueError
| KeyError
| StatisticsError
| StopIteration
| CsvError.

Inductive result (A : Type) : Type :=
| Ok (a : A)
| Raise (e : exn).

Arguments Ok {A} a.
Arguments Raise {A} e.

Definition bind {A B : Type} (m : result A) (k : A -> result B) : result B :=
  match m with
  | Ok a => k a
  | Raise e => Raise e
  end.

Declare Scope py_scope.
Delimit Scope py_scope with py.
Notation "x <- m ;; k" := (bind m (fun x => k))
  (at level 61, m at next level, right associativity) : py_scope.
Local Open Scope py_scope.

(** ** Python numbers *)

(** [round(x)] on a float: nearest integer, ties to the even one. *)
Definition round_half_even (q : Q) : Z :=
  let f := Qfloor q in
  match Qcompare (q - inject_Z f) (1 # 2) with
  | Lt => f
  | Gt => f + 1
  | Eq => if Z.even f then f else f + 1
  end.

(** [2 ** e] as a rational, for any integer [e]. *)
Definition pow2 (e : Z) : Q :=
  if 0 <=? e then inject_Z (2 ^ e) else 1 # Z.to_pos (2 ^ (- e)).

(** [floor (log2 q)] for a positive rational [q]. *)
Definition ilog2 (q : Q) : Z :=
  let l := Z.log2 (Qnum q) - Z.log2 (Zpos (Qden q)) in
  if Qle_bool (pow2 l) q then l else l - 1.

(** The binary64 number nearest to [q] (ties to even), as the rational it
    denotes: 53 bits of precision, exponent of the last place at least
    -1074, [OverflowError] from 2 ** 1024 on.  This is what
    [int / int] and [float(Fraction)] return. *)
Definition float_of_Q (q : Q) : result Q :=
  if Qeq_bool q 0 then Ok 0%Q
  else
    let a := Qabs q in
    let e := Z.max (ilog2 a - 52) (- 1074) in
    let m := round_half_even (a / pow2 e) in
    let v := Qred (inject_Z m * pow2 e) in
    if Qle_bool (pow2 1024) v then Raise OverflowError
    else Ok (if Qle_bool 0 q then v else (- v)%Q).

(** A value that is an [int] or a [float]. *)
Inductive pynum : Type :=
| PInt (z : Z)
| PFloat (q : Q).

Definition pynum_val (x : pynum) : Q :=
  match x with
  | PInt z => inject_Z z
  | PFloat q => q
  end.

(** [a / b] on two ints: always a float. *)
Definition py_truediv (a b : Z) : result pynum :=
  if b =? 0 then Raise ZeroDivisionError
  else q <- float_of_Q (inject_Z a / inject_Z b) ;; Ok (PFloat q).

(** [x * w] for an int [w]: exact on ints; on a float, [w] is converted to
    float and the product is rounded (a product beyond the binary64 range
    is an infinity, on which the enclosing [int()] raises
    [OverflowError]). *)
Definition py_mul_int (x : pynum) (w : Z) : result pynum :=
  match x with
  | PInt z => Ok (PInt (z * w))
  | PFloat q =>
      wf <- float_of_Q (inject_Z w) ;;
      p <- float_of_Q (q * wf) ;;
      Ok (PFloat p)
  end.

(** Truncation toward zero. *)
Definition Qtrunc (q : Q) : Z :=
  if Qle_bool 0 q then Qfloor q else Qceiling q.

(** [int(x)]. *)
Definition py_int (x : pynum) : Z :=
  match x with
  | PInt z => z
  | PFloat q => Qtrunc q
  end.

(** [round(x)]. *)
Definition py_round (x : pynum) : Z :=
  match x with
  | PInt z => z
  | PFloat q => round_half_even q
  end.

(** ** Python strings *)

(** [str(z)] for an int. *)
Definition py_str_int (z : Z) : string :=
  DecimalString.NilZero.string_of_int (Z.to_int z).

(** [len(s)]. *)
Definition len (s : string) : Z := Z.of_nat (String.length s).

(** [s * n]: [n] copies of [s], none when [n] is not positive. *)
Fixpoint repeat_string (s : string) (n : nat) : string :=
  match n with
  | O => EmptyString
  | S n' => s ++ repeat_string s n'
  end.

Definition py_str_mul (s : string) (n : Z) : string :=
  repeat_string s (Z.to_nat n).

(** A non-negative number in decimal, zero-filled on the left to [width]
    digits: the [%Y], [%m], [%d], [%H], [%M], [%S] and [%W] fields of
    [strftime]. *)
Definition zero_filled (width : Z) (z : Z) : string :=
  let s := py_str_int z in
  py_str_mul "0" (width - len s) ++ s.

(** ** Calendar ([datetime]) *)

Definition is_leap (y : Z) : bool :=
  (y mod 4 =? 0) && (negb (y mod 100 =? 0) || (y mod 400 =? 0)).

Definition days_in_month (y m : Z) : Z :=
  if m =? 2 then (if is_leap y then 29 else 28)
  else if (m =? 4) || (m =? 6) || (m =? 9) || (m =? 11) then 30
  else 31.

Definition days_before_year (y : Z) : Z :=
  let p := y - 1 in p * 365 + p / 4 - p / 100 + p / 400.

Fixpoint days_before_month_aux (y : Z) (months : nat) : Z :=
  match months with
  | O => 0
  | S k => days_before_month_aux y k + days_in_month y (Z.of_nat (S k))
  end.

(** Days of year [y] before the first of month [m]. *)
Definition days_before_month (y m : Z) : Z :=
  days_before_month_aux y (Z.to_nat (m - 1)).

(** [date(y, m, d).toordinal()]: 0001-01-01 is day 1. *)
Definition ymd2ord (y m d : Z) : Z :=
  days_before_year y + days_before_month y m + d.

(** A [datetime.date], as its ordinal. *)
Definition pydate : Type := Z.

(** [date.max.toordinal()], the ordinal of 9999-12-31. *)
Definition date_max : pydate := 3652059.

Definition valid_date (d : pydate) : Prop := 1 <= d <= date_max.

(** [d + datetime.timedelta(days=n)]: [OverflowError] outside
    [date.min .. date.max]. *)
Definition date_add_days (d : pydate) (n : Z) : result pydate :=
  let o := d + n in
  if (0 <? o) && (o <=? date_max) then Ok o else Raise OverflowError.

(** A naive [datetime.datetime] of second precision (what
    [fromtimestamp] of an int and [strptime] without [%f] build). *)
Record datetime : Type := mk_datetime {
  year : Z; month : Z; day : Z; hour : Z; minute : Z; second : Z
}.

Definition valid_datetime (t : datetime) : Prop :=
  1 <= year t <= 9999 /\ 1 <= month t <= 12 /\
  1 <= day t <= days_in_month (year t) (month t) /\
  0 <= hour t <= 23 /\ 0 <= minute t <= 59 /\ 0 <= second t <= 59.

(** [t.date()]. *)
Definition datetime_date (t : datetime) : pydate :=
  ymd2ord (year t) (month t) (day t).

(** [t.weekday()]: Monday is 0. *)
Definition weekday (t : datetime) : Z := (datetime_date t + 6) mod 7.

(** Day of the year, from 1. *)
Definition yday (t : datetime) : Z :=
  days_before_month (year t) (month t) + day t.

(** The [%W] field: week of the year, weeks starting on Monday, the days
    before the first Monday in week 0. *)
Definition week_of_year (t : datetime) : Z :=
  (yday t - 1 + 7 - weekday t) / 7.

(** [t.strftime("%Y-%W")]. *)
Definition strftime_Y_W (t : datetime) : string :=
  zero_filled 4 (year t) ++ "-" ++ zero_filled 2 (week_of_year t).

(** [t.strftime('%Y-%m-%d %H:%M:%S')]. *)
Definition strftime_iso (t : datetime) : string :=
  zero_filled 4 (year t) ++ "-" ++ zero_filled 2 (month t) ++ "-" ++
  zero_filled 2 (day t) ++ " " ++ zero_filled 2 (hour t) ++ ":" ++
  zero_filled 2 (minute t) ++ ":" ++ zero_filled 2 (second t).

(** ** Loops

    [for x in l: acc = body(acc, x)], ended by the first exception. *)
Fixpoint for_each {A B : Type} (l : list A) (body : B -> A -> result B)
    (acc : B) : result B :=
  match l with
  | [] => Ok acc
  | x :: l' => acc' <- body acc x ;; for_each l' body acc'
  end.

(** ** Dictionaries

    A [dict] (and an [OrderedDict]) keeps its keys in insertion order;
    assigning to a key that is present keeps the key's position. *)

Section Dict.
Context {K V : Type} (eqb : K -> K -> bool).

Definition dict : Type := list (K * V).

(** [d.keys()] and [d.values()]. *)
Definition keys (d : dict) : list K := map fst d.
Definition values (d : dict) : list V := map snd d.

(** [k in d]. *)
Definition dict_mem (k : K) (d : dict) : bool :=
  existsb (fun kv => eqb (fst kv) k) d.

(** [d[k]]. *)
Fixpoint dict_get (k : K) (d : dict) : result V :=
  match d with
  | [] => Raise KeyError
  | (k', v) :: d' => if eqb k' k then Ok v else dict_get k d'
  end.

(** [d[k] = v]. *)
Fixpoint dict_set (k : K) (v : V) (d : dict) : dict :=
  match d with
  | [] => [(k, v)]
  | (k', v') :: d' =>
      if eqb k' k then (k', v) :: d' else (k', v') :: dict_set k v d'
  end.
End Dict.

Arguments dict : clear implicits.

(** ** The helper module [functional] *)

(** Modelled from the spec: the module [functional] imported by
    [visualize.py] ([list_map], [list_filter], [list_reduce]) is not among
    the sources.  The spec describes their uses as "the list of each
    group's change magnitude", "the subsequence of records whose author is
    in the set" and a single linear pass over the commits: a map, a filter
    and a left fold that keep the order of the input.  An exception raised
    by the folded function ends the fold. *)
Definition list_map {A B : Type} (l : list A) (f : A -> B) : list B :=
  map f l.

Definition list_filter {A : Type} (l : list A) (f : A -> bool) : list A :=
  filter f l.

Definition list_reduce {A B : Type} (l : list A) (f : B -> A -> result B)
    (init : B) : result B :=
  for_each l f init.


(** ** Parsing numbers and timestamps *)

Definition digit_of (c : ascii) : option Z :=
  let n := nat_of_ascii c in
  if ((48 <=? n) && (n <=? 57))%nat then Some (Z.of_nat n - 48) else None.

Definition underscore : ascii := ascii_of_nat 95.
Definition plus_sign : ascii := ascii_of_nat 43.
Definition minus_sign : ascii := ascii_of_nat 45.
Definition colon : ascii := ascii_of_nat 58.
Definition space : ascii := ascii_of_nat 32.

(** Decimal digits, single underscores allowed between two digits;
    [after_digit] tells whether the previous character was a digit. *)
Fixpoint parse_digits (s : string) (acc : Z) (after_digit : bool) : option Z :=
  match s with
  | EmptyString => if after_digit then Some acc else None
  | String c s' =>
      match digit_of c with
      | Some d => parse_digits s' (10 * acc + d) true
      | None =>
          if Ascii.eqb c underscore && after_digit
          then parse_digits s' acc false
          else None
      end
  end.

(** [str.strip()], on the ASCII range. *)
Definition is_space (c : ascii) : bool :=
  let n := nat_of_ascii c in
  ((9 <=? n) && (n <=? 13) || (28 <=? n) && (n <=? 32))%nat.

Fixpoint lstrip (s : string) : string :=
  match s with
  | String c s' => if is_space c then lstrip s' else s
  | EmptyString => EmptyString
  end.

Fixpoint rstrip (s : string) : string :=
  match s with
  | String c s' =>
      match rstrip s' with
      | EmptyString => if is_space c then EmptyString else String c EmptyString
      | r => String c r
      end
  | EmptyString => EmptyString
  end.

Definition strip (s : string) : string := rstrip (lstrip s).

(** [int(s)] on a string, in base 10 (ASCII digits). *)
Definition py_int_of_str (s : string) : result Z :=
  let parsed :=
    match strip s with
    | String c s' =>
        if Ascii.eqb c minus_sign then option_map Z.opp (parse_digits s' 0 false)
        else if Ascii.eqb c plus_sign then parse_digits s' 0 false
        else parse_digits (String c s') 0 false
    | EmptyString => None
    end in
  match parsed with
  | Some z => Ok z
  | None => Raise ValueError
  end.

(** A numeric field of [strptime]: the two-digit alternatives of its
    pattern are tried before the one-digit one. *)
Definition two_or_one (ok2 : Z -> Z -> bool) (ok1 : Z -> bool) (s : string)
    : option (Z * string) :=
  match s with
  | String c1 s1 =>
      match digit_of c1 with
      | Some d1 =>
          let two :=
            match s1 with
            | String c2 s2 =>
                match digit_of c2 with
                | Some d2 => if ok2 d1 d2 then Some (10 * d1 + d2, s2) else None
                | None => None
                end
            | EmptyString => None
            end in
          match two with
          | Some r => Some r
          | None => if ok1 d1 then Some (d1, s1) else None
          end
      | None => None
      end
  | EmptyString => None
  end.

(** [%Y]: four digits. *)
Definition parse_Y (s : string) : option (Z * string) :=
  match s with
  | String c1 (String c2 (String c3 (String c4 s'))) =>
      match digit_of c1, digit_of c2, digit_of c3, digit_of c4 with
      | Some d1, Some d2, Some d3, Some d4 =>
          Some (1000 * d1 + 100 * d2 + 10 * d3 + d4, s')
      | _, _, _, _ => None
      end
  | _ => None
  end.

(** [%m]: 1[0-2], 0[1-9] or [1-9]. *)
Definition parse_m : string -> option (Z * string) :=
  two_or_one (fun a b => (a =? 1) && (b <=? 2) || (a =? 0) && (1 <=? b))
             (fun a => 1 <=? a).

(** [%d]: 3[0-1], [1-2]\d, 0[1-9], [1-9], or a space and [1-9]. *)
Definition parse_d (s : string) : option (Z * string) :=
  match two_or_one
          (fun a b => (a =? 3) && (b <=? 1) || (1 <=? a) && (a <=? 2) ||
                      (a =? 0) && (1 <=? b))
          (fun a => 1 <=? a) s with
  | Some r => Some r
  | None =>
      match s with
      | String c (String c1 s') =>
          match digit_of c1 with
          | Some d => if Ascii.eqb c space && (1 <=? d) then Some (d, s') else None
          | None => None
          end
      | _ => None
      end
  end.

(** [%H]: 2[0-3], [0-1]\d or \d. *)
Definition parse_H : string -> option (Z * string) :=
  two_or_one (fun a b => (a =? 2) && (b <=? 3) || (a <=? 1)) (fun _ => true).

(** [%M]: [0-5]\d or \d. *)
Definition parse_M : string -> option (Z * string) :=
  two_or_one (fun a _ => a <=? 5) (fun _ => true).

(** [%S]: 6[0-1], [0-5]\d or \d. *)
Definition parse_S : string -> option (Z * string) :=
  two_or_one (fun a b => (a =? 6) && (b <=? 1) || (a <=? 5)) (fun _ => true).

Definition expect (c : ascii) (s : string) : option string :=
  match s with
  | String c' s' => if Ascii.eqb c' c then Some s' else None
  | EmptyString => None
  end.

(** White space of the format: one or more white space characters. *)
Definition expect_spaces (s : string) : option string :=
  match s with
  | String c s' => if is_space c then Some (lstrip s') else None
  | EmptyString => None
  end.

Definition valid_datetimeb (t : datetime) : bool :=
  (1 <=? year t) && (year t <=? 9999) && (1 <=? month t) && (month t <=? 12) &&
  (1 <=? day t) && (day t <=? days_in_month (year t) (month t)) &&
  (0 <=? hour t) && (hour t <=? 23) && (0 <=? minute t) && (minute t <=? 59) &&
  (0 <=? second t) && (second t <=? 59).

Definition obind {A B : Type} (m : option A) (k : A -> option B) : option B :=
  match m with
  | Some a => k a
  | None => None
  end.

(** [datetime.datetime.strptime(s, '%Y-%m-%d %H:%M:%S')]: the whole
    string must match, and the fields must form a date and a time. *)
Definition strptime_iso (s : string) : result datetime :=
  let parsed :=
    obind (parse_Y s) (fun '(Y, s) =>
    obind (expect minus_sign s) (fun s =>
    obind (parse_m s) (fun '(m, s) =>
    obind (expect minus_sign s) (fun s =>
    obind (parse_d s) (fun '(d, s) =>
    obind (expect_spaces s) (fun s =>
    obind (parse_H s) (fun '(H, s) =>
    obind (expect colon s) (fun s =>
    obind (parse_M s) (fun '(M, s) =>
    obind (expect colon s) (fun s =>
    obind (parse_S s) (fun '(sec, s) =>
    match s with
    | EmptyString => Some (mk_datetime Y m d H M sec)
    | _ => None
    end))))))))))) in
  match parsed with
  | Some t => if valid_datetimeb t then Ok t else Raise ValueError
  | None => Raise ValueError
  end.

(** ** Text files

    [open(filename, 'w')] and [open(filename, 'r')] are text mode with the
    default [newline=None]: on writing, every line feed becomes
    [os.linesep]; on reading, the line ends CR LF and CR both become a
    line feed, and the file is iterated line by line, each line keeping
    its line feed. *)

Definition LF : ascii := ascii_of_nat 10.
Definition CR : ascii := ascii_of_nat 13.

Fixpoint text_write (linesep : string) (data : string) : string :=
  match data with
  | EmptyString => EmptyString
  | String c data' =>
      if Ascii.eqb c LF then linesep ++ text_write linesep data'
      else String c (text_write linesep data')
  end.

Fixpoint universal_newlines (data : string) : string :=
  match data with
  | EmptyString => EmptyString
  | String c data' =>
      if Ascii.eqb c CR then
        match data' with
        | String c' _ =>
            if Ascii.eqb c' LF then universal_newlines data'
            else String LF (universal_newlines data')
        | EmptyString => String LF EmptyString
        end
      else String c (universal_newlines data')
  end.

(** The lines of a text, each with its line feed; [cur] is the line being
    read. *)
Fixpoint lines_from (cur : string) (data : string) : list string :=
  match data with
  | EmptyString => match cur with EmptyString => [] | _ => [cur] end
  | String c data' =>
      if Ascii.eqb c LF then (cur ++ String c EmptyString) :: lines_from EmptyString data'
      else lines_from (cur ++ String c EmptyString) data'
  end.

Definition text_read_lines (file : string) : list string :=
  lines_from EmptyString (universal_newlines file).

(** ** The [csv] module, with the default ([excel]) dialect: the comma as
    delimiter, the double quote as quote character, doubled quotes,
    minimal quoting, line terminator CR LF, not strict. *)

Definition delimiter : ascii := ascii_of_nat 44.
Definition quotechar : ascii := ascii_of_nat 34.

(** *** [csv.writer] *)

Definition needs_quotes (c : ascii) : bool :=
  Ascii.eqb c delimiter || Ascii.eqb c quotechar ||
  Ascii.eqb c CR || Ascii.eqb c LF.

Fixpoint field_needs_quotes (s : string) : bool :=
  match s with
  | EmptyString => false
  | String c s' => needs_quotes c || field_needs_quotes s'
  end.

Fixpoint double_quotes (s : string) : string :=
  match s with
  | EmptyString => EmptyString
  | String c s' =>
      if Ascii.eqb c quotechar then String c (String c (double_quotes s'))
      else String c (double_quotes s')
  end.

Definition write_field (s : string) : string :=
  if field_needs_quotes s
  then String quotechar (double_quotes s ++ String quotechar EmptyString)
  else s.

Fixpoint join_fields (fields : list string) : string :=
  match fields with
  | [] => EmptyString
  | [f] => write_field f
  | f :: fs => write_field f ++ String delimiter (join_fields fs)
  end.

(** A cell of a row handed to the writer: a [str] or an [int]. *)
Inductive cell : Type :=
| CStr (s : string)
| CInt (z : Z).

Definition cell_str (c : cell) : string :=
  match c with
  | CStr s => s
  | CInt z => py_str_int z
  end.

(** [csv_writer.writerow(row)]: the text handed to [f.write].  A row of
    one empty field is written as a pair of quotes. *)
Definition writerow (row : list cell) : string :=
  let rec := join_fields (map cell_str row) in
  let rec :=
    match row, rec with
    | _ :: _, EmptyString => String quotechar (String quotechar EmptyString)
    | _, _ => rec
    end in
  rec ++ String CR (String LF EmptyString).

(** *** [csv.reader] *)

Inductive parser_state : Type :=
| START_RECORD
| START_FIELD
| IN_FIELD
| IN_QUOTED_FIELD
| QUOTE_IN_QUOTED_FIELD
| EAT_CRNL.

Record reader : Type := mk_reader {
  state : parser_state;
  field : string;
  fields : list string
}.

Definition parse_reset : reader := mk_reader START_RECORD EmptyString [].

Definition parse_add_char (r : reader) (c : ascii) : reader :=
  mk_reader (state r) (field r ++ String c EmptyString) (fields r).

Definition parse_save_field (r : reader) : reader :=
  mk_reader (state r) EmptyString (fields r ++ [field r])%list.

Definition set_state (r : reader) (s : parser_state) : reader :=
  mk_reader s (field r) (fields r).

(** What the parser is fed: a character of the line, or the end of the
    line. *)
Inductive parser_input : Type :=
| Chr (c : ascii)
| EOL.

Definition is_crnl (i : parser_input) : bool :=
  match i with
  | Chr c => Ascii.eqb c LF || Ascii.eqb c CR
  | EOL => false
  end.

Definition is_char (i : parser_input) (d : ascii) : bool :=
  match i with
  | Chr c => Ascii.eqb c d
  | EOL => false
  end.

Definition after_line_end (i : parser_input) : parser_state :=
  match i with
  | EOL => START_RECORD
  | Chr _ => EAT_CRNL
  end.

Definition parse_start_field (r : reader) (i : parser_input) : reader :=
  match i with
  | EOL => set_state (parse_save_field r) START_RECORD
  | Chr c =>
      if is_crnl i then set_state (parse_save_field r) EAT_CRNL
      else if Ascii.eqb c quotechar then set_state r IN_QUOTED_FIELD
      else if Ascii.eqb c delimiter then set_state (parse_save_field r) START_FIELD
      else set_state (parse_add_char r c) IN_FIELD
  end.

Definition parse_process_char (r : reader) (i : parser_input) : result reader :=
  match state r with
  | START_RECORD =>
      match i with
      | EOL => Ok r
      | Chr _ =>
          if is_crnl i then Ok (set_state r EAT_CRNL)
          else Ok (parse_start_field r i)
      end
  | START_FIELD => Ok (parse_start_field r i)
  | IN_FIELD =>
      match i with
      | EOL => Ok (set_state (parse_save_field r) START_RECORD)
      | Chr c =>
          if is_crnl i then Ok (set_state (parse_save_field r) EAT_CRNL)
          else if Ascii.eqb c delimiter
          then Ok (set_state (parse_save_field r) START_FIELD)
          else Ok (parse_add_char r c)
      end
  | IN_QUOTED_FIELD =>
      match i with
      | EOL => Ok r
      | Chr c =>
          if Ascii.eqb c quotechar then Ok (set_state r QUOTE_IN_QUOTED_FIELD)
          else Ok (parse_add_char r c)
      end
  | QUOTE_IN_QUOTED_FIELD =>
      match i with
      | EOL => Ok (set_state (parse_save_field r) START_RECORD)
      | Chr c =>
          if Ascii.eqb c quotechar
          then Ok (set_state (parse_add_char r c) IN_QUOTED_FIELD)
          else if Ascii.eqb c delimiter
          then Ok (set_state (parse_save_field r) START_FIELD)
          else if is_crnl i then Ok (set_state (parse_save_field r) EAT_CRNL)
          else Ok (set_state (parse_add_char r c) IN_FIELD)
      end
  | EAT_CRNL =>
      match i with
      | EOL => Ok (set_state r START_RECORD)
      | Chr _ => if is_crnl i then Ok r else Raise CsvError
      end
  end.

(** One line of the file: its characters, then the end of the line. *)
Fixpoint parse_line (r : reader) (line : string) : result reader :=
  match line with
  | EmptyString => parse_process_char r EOL
  | String c line' => r' <- parse_process_char r (Chr c) ;; parse_line r' line'
  end.

Definition is_start_record (s : parser_state) : bool :=
  match s with START_RECORD => true | _ => false end.

Definition is_in_quoted_field (s : parser_state) : bool :=
  match s with IN_QUOTED_FIELD => true | _ => false end.

Definition is_empty (s : string) : bool :=
  match s with EmptyString => true | _ => false end.

(** The record left when the input ends inside a record. *)
Definition at_end_of_input (r : reader) : option (list string) :=
  if negb (is_empty (field r)) || is_in_quoted_field (state r)
  then Some (fields (parse_save_field r))
  else None.

(** [next(csv_reader)]: lines are consumed until a record is complete;
    the result is the record and the lines that are left. *)
Fixpoint reader_next_from (r : reader) (lines : list string)
    : result (list string * list string) :=
  match lines with
  | [] =>
      match at_end_of_input r with
      | Some row => Ok (row, [])
      | None => Raise StopIteration
      end
  | line :: rest =>
      r' <- parse_line r line ;;
      if is_start_record (state r') then Ok (fields r', rest)
      else reader_next_from r' rest
  end.

Definition reader_next (lines : list string)
    : result (list string * list string) :=
  reader_next_from parse_reset lines.

(** [for row in csv_reader: acc = body(acc, row)]. *)
Fixpoint for_each_row {B : Type} (r : reader) (lines : list string)
    (body : B -> list string -> result B) (acc : B) : result B :=
  match lines with
  | [] =>
      match at_end_of_input r with
      | Some row => body acc row
      | None => Ok acc
      end
  | line :: rest =>
      r' <- parse_line r line ;;
      if is_start_record (state r') then
        acc' <- body acc (fields r') ;;
        for_each_row parse_reset rest body acc'
      else for_each_row r' rest body acc
  end.

(** ** [collect.py] *)

Module Commit.
Record t : Type := mk {
  repository : string;
  sha : string;
  timestamp : datetime;
  author : string;
  added : Z;
  removed : Z
}.

Definition to_csv_row (self : t) : list cell :=
  [ CStr (repository self);
    CStr (sha self);
    CStr (strftime_iso (timestamp self));
    CStr (author self);
    CInt (added self);
    CInt (removed self) ].

(** [from_csv_file], on the content of the file. *)
Definition from_csv_file (file : string) : result (list t) :=
  let f := text_read_lines file in
  header <- reader_next f ;;
  for_each_row parse_reset (snd header)
    (fun commits row =>
       match row with
       | [repository; sha; timestamp; author; added; removed] =>
           dt <- strptime_iso timestamp ;;
           added <- py_int_of_str added ;;
           removed <- py_int_of_str removed ;;
           Ok (commits ++ [mk repository sha dt author added removed])%list
       | _ => Raise ValueError
       end)
    [].
End Commit.

(** [save_commits], as the content of the file it writes; [linesep] is
    [os.linesep]. *)
Definition save_commits (linesep : string) (commits : list Commit.t) : string :=
  let header :=
    writerow [CStr "Repository"; CStr "SHA"; CStr "Timestamp";
              CStr "Author"; CStr "Added"; CStr "Removed"] in
  fold_left (fun f commit => f ++ text_write linesep (writerow (Commit.to_csv_row commit)))
    commits (text_write linesep header).

(** [sum(...)] over ints. *)
Definition py_sum (l : list Z) : Z := fold_left Z.add l 0.

(** ** [visualize.Group] *)

Module Group.
Record t : Type := mk {
  name : string;
  commits : list Commit.t
}.

Definition added (self : t) : Z :=
  py_sum (map Commit.added (commits self)).

Definition removed (self : t) : Z :=
  py_sum (map Commit.removed (commits self)).

Definition change (self : t) : Z := added self + removed self.

Definition get_score (self : t) (minv maxv : Z) : result pynum :=
  if change self <? minv then Ok (PInt 0)
  else if change self >? maxv then Ok (PInt 1)
  else if maxv - minv =? 0 then Ok (PInt 0)
  else py_truediv (change self - minv) (maxv - minv).
End Group.

(** ** [visualize.Day] *)

Module Day.
Record t : Type := mk {
  date : pydate;
  commits : list Commit.t;
  score : Z
}.

(** [Day(date, commits)]. *)
Definition new (d : pydate) (cs : list Commit.t) : t := mk d cs 0.

(** [min(days.keys())] and [max(days.keys())] of a non-empty mapping. *)
Definition min_key (k : pydate) (ks : list pydate) :=
  fold_left Z.min ks k.
Definition max_key (k : pydate) (ks : list pydate) :=
  fold_left Z.max ks k.

(** The [while current_date <= max_date] loop; [fuel] bounds the number
    of iterations. *)
Fixpoint fill_loop (fuel : nat) (current_date max_date : pydate)
    (days : dict pydate t) : option (result (dict pydate t)) :=
  match fuel with
  | O => None
  | S fuel' =>
      if current_date <=? max_date then
        let days :=
          if dict_mem Z.eqb current_date days then days
          else dict_set Z.eqb current_date (new current_date []) days in
        match date_add_days current_date 1 with
        | Ok next => fill_loop fuel' next max_date days
        | Raise e => Some (Raise e)
        end
      else Some (Ok days)
  end.

(** The loop runs at most [max_date - min_date + 1] times and tests its
    condition once more. *)
Definition _fill_missing_dates (days : dict pydate t)
    : option (result (dict pydate t)) :=
  match keys days with
  | [] => Some (Ok days)
  | k :: ks =>
      let min_date := min_key k ks in
      let max_date := max_key k ks in
      fill_loop (Z.to_nat (max_date - min_date + 2)) min_date max_date days
  end.

(** The body of the loop of [from_commits]. *)
Definition add_commit (days : dict pydate t) (commit : Commit.t)
    : result (dict pydate t) :=
  let date := datetime_date (Commit.timestamp commit) in
  let days :=
    if dict_mem Z.eqb date days then days
    else dict_set Z.eqb date (new date []) days in
  d <- dict_get Z.eqb date days ;;
  Ok (dict_set Z.eqb date (mk (Day.date d) (commits d ++ [commit])%list (score d)) days).

Definition from_commits (commits : list Commit.t)
    : option (result (dict pydate t)) :=
  match for_each commits add_commit [] with
  | Ok days => _fill_missing_dates days
  | Raise e => Some (Raise e)
  end.
End Day.

(** ** The [statistics] module, on ints *)

(** [statistics.mean(data)]: the exact mean, an int when it is integral
    and the nearest float otherwise. *)
Definition statistics_mean (data : list Z) : result pynum :=
  match data with
  | [] => Raise StatisticsError
  | _ =>
      let total := py_sum data in
      let n := Z.of_nat (List.length data) in
      if total mod n =? 0 then Ok (PInt (total / n))
      else q <- float_of_Q (inject_Z total / inject_Z n) ;; Ok (PFloat q)
  end.

(** The exact sample variance: the squared deviations from the exact
    mean, summed and divided by [n - 1]. *)
Definition sample_variance (data : list Z) : Q :=
  let n := Z.of_nat (List.length data) in
  let c := (inject_Z (py_sum data) / inject_Z n)%Q in
  let ss := fold_left Qplus
              (map (fun x => (inject_Z x - c) * (inject_Z x - c))%Q data) 0%Q in
  Qred (ss / inject_Z (n - 1)).

(** The integer nearest to the square root of [x >= 0]. *)
Definition round_sqrt (x : Q) : Z :=
  let s := Z.sqrt (Qfloor x) in
  let h := (inject_Z s + (1 # 2))%Q in
  match Qcompare x (h * h) with
  | Lt => s
  | Gt => s + 1
  | Eq => if Z.even s then s else s + 1
  end.

(** The binary64 number nearest to the square root of [q]. *)
Definition float_sqrt_of_Q (q : Q) : result Q :=
  if Qle_bool q 0 then Ok 0%Q
  else
    let e := Z.max (ilog2 q / 2 - 52) (- 1074) in
    let m := round_sqrt (q / pow2 (2 * e)) in
    let v := Qred (inject_Z m * pow2 e) in
    if Qle_bool (pow2 1024) v then Raise OverflowError else Ok v.

(** [statistics.stdev(data)]: the correctly rounded square root of the
    exact sample variance; fewer than two data points are an error. *)
Definition statistics_stdev (data : list Z) : result pynum :=
  if Z.of_nat (List.length data) <? 2 then Raise StatisticsError
  else q <- float_sqrt_of_Q (sample_variance data) ;; Ok (PFloat q).

(** ** [visualize.py] *)

(** [sorted(...)] on strings. *)
Module StringOrder <: TotalLeBool.
Definition t := string.
Definition leb := String.leb.
Definition leb_total := String.leb_total.
End StringOrder.

Module StringSort := Sort StringOrder.

Definition sorted (l : list string) : list string := StringSort.sort l.

Definition newline : string := String (ascii_of_nat 10) EmptyString.

(** The default [block], U+2580, and the default [width]. *)
Definition default_block : string :=
  String (ascii_of_nat 226) (String (ascii_of_nat 150)
    (String (ascii_of_nat 128) EmptyString)).

Definition default_width : Z := 50.


(** [str.lower()], on the ASCII range (other bytes are kept as they
    are). *)
Definition lower_char (c : ascii) : ascii :=
  let n := nat_of_ascii c in
  if ((65 <=? n) && (n <=? 90))%nat then ascii_of_nat (n + 32) else c.

Fixpoint lower (s : string) : string :=
  match s with
  | String c s' => String (lower_char c) (lower s')
  | EmptyString => EmptyString
  end.

(** [x in l] on a list of strings. *)
Definition str_in (x : string) (l : list string) : bool :=
  existsb (String.eqb x) l.

Definition filter_by_authors (commits : list Commit.t) (authors : list string)
    : list Commit.t :=
  let _authors := list_map authors (fun a => lower (strip a)) in
  let filtered_commits :=
    list_filter commits
      (fun x => str_in (lower (strip (Commit.author x))) _authors) in
  filtered_commits.

Definition group_by_week (commits : list Commit.t)
    : result (dict string Group.t) :=
  let update (groups : dict string Group.t) (commit : Commit.t) :=
    let week := strftime_Y_W (Commit.timestamp commit) in
    let groups :=
      if dict_mem String.eqb week groups then groups
      else dict_set String.eqb week (Group.mk week []) groups in
    g <- dict_get String.eqb week groups ;;
    Ok (dict_set String.eqb week
          (Group.mk (Group.name g) (Group.commits g ++ [commit])%list) groups) in
  list_reduce commits update [].

Definition get_stddev_range (groups : dict string Group.t)
    : result (option Z * option Z * option Z) :=
  let changes := list_map (values groups) Group.change in
  match changes with
  | [] => Ok (None, None, None)
  | _ =>
      m <- statistics_mean changes ;;
      let mean := py_round m in
      stddev <- (if 1 <? Z.of_nat (List.length changes)
                 then s <- statistics_stdev changes ;; Ok (py_round s)
                 else Ok 0) ;;
      let lower := Z.max (py_round (PInt (mean - stddev))) 0 in
      let upper := py_round (PInt (mean + stddev)) in
      Ok (Some mean, Some lower, Some upper)
  end.

(** ** Predicates of the statements *)

(** The week key of a commit. *)
Definition week_of (c : Commit.t) : string :=
  strftime_Y_W (Commit.timestamp c).

(** What holds of the groups once the commits [done] have been added. *)
Definition grouped (groups : dict string Group.t) (done : list Commit.t) : Prop :=
  NoDup (keys groups) /\
  Permutation (List.concat (map Group.commits (values groups))) done /\
  forall k g, In (k, g) groups ->
    Group.name g = k /\
    Group.commits g = filter (fun c => String.eqb (week_of c) k) done /\
    Group.commits g <> [].

(** The [n] dates from [lo] on, ascending. *)
Fixpoint date_range (lo : pydate) (n : nat) : list pydate :=
  match n with
  | O => []
  | S n' => lo :: date_range (lo + 1) n'
  end.

(** The dates from [lo] to [hi] that are not keys of [days], ascending. *)
Definition missing_dates (days : dict pydate Day.t) (lo hi : pydate)
    : list pydate :=
  filter (fun d => negb (dict_mem Z.eqb d days))
    (date_range lo (Z.to_nat (hi - lo + 1))).

(** The synthetic buckets of a list of dates. *)
Definition empty_days (dates : list pydate) : dict pydate Day.t :=
  map (fun d => (d, Day.new d [])) dates.

(** A string followed by spaces up to [width] characters. *)
Definition left_justified (s : string) (width : Z) : string :=
  s ++ py_str_mul " " (width - len s).


(** The line of a week: the key, two spaces, the magnitude in decimal
    followed by spaces up to 5 characters, the blocks, a line feed. *)
Definition bar_line (key : string) (change : Z) (block : string) (blocks : Z)
    : string :=
  key ++ "  " ++ left_justified (py_str_int change) 5 ++
  py_str_mul block blocks ++ newline.


(** ** Example data

    The scenario of the specification: commits of 10 and 20 changed lines
    in week 2024-01 and one of 100 changed lines in week 2024-03. *)

Definition example_commit (y m d a r : Z) : Commit.t :=
  Commit.mk "repo" "c0ffee" (mk_datetime y m d 12 0 0) "alice" a r.

Definition scenario_commits : list Commit.t :=
  [ example_commit 2024 1 2 6 4;
    example_commit 2024 1 3 15 5;
    example_commit 2024 1 17 60 40 ].

Definition scenario_groups : dict string Group.t :=
  [ ("2024-01", Group.mk "2024-01"
       [example_commit 2024 1 2 6 4; example_commit 2024 1 3 15 5]);
    ("2024-03", Group.mk "2024-03" [example_commit 2024 1 17 60 40]) ].

(** A week of 3 changed lines, one of 5, and one whose only commit still
    carries the "not yet computed" line counts. *)
Definition group_of_3 : Group.t :=
  Group.mk "2024-05" [example_commit 2024 1 30 2 1].

Definition group_of_5 : Group.t :=
  Group.mk "2024-05" [example_commit 2024 1 30 5 0].


(** Days with commits on 2024-01-02 and 2024-01-04 and none between. *)
Definition sparse_commits : list Commit.t :=
  [ example_commit 2024 1 2 6 4; example_commit 2024 1 4 15 5 ].

Definition sparse_days : dict pydate Day.t :=
  [ (738887, Day.mk 738887 [example_commit 2024 1 2 6 4] 0);
    (738889, Day.mk 738889 [example_commit 2024 1 4 15 5] 0) ].

(** A commit on the last day of the calendar, 9999-12-31. *)
Definition last_day_commit : Commit.t := example_commit 9999 12 31 1 1.

(** [os.linesep] on POSIX and on Windows. *)
Definition posix_linesep : string := String LF EmptyString.
Definition windows_linesep : string := String CR (String LF EmptyString).

(** A commit whose author name holds a carriage return, and the commit
    that is read back for it. *)
Definition carriage_return_commit : Commit.t :=
  Commit.mk "repo" "c0ffee" (mk_datetime 2024 1 2 12 0 0)
    ("Ada" ++ String CR "Lovelace") 6 4.

Definition line_feed_commit : Commit.t :=
  Commit.mk "repo" "c0ffee" (mk_datetime 2024 1 2 12 0 0)
    ("Ada" ++ String LF "Lovelace") 6 4.

(** The distinct elements of a list of strings, in order of first
    appearance. *)
Fixpoint distinct (l : list string) : list string :=
  match l with
  | [] => []
  | x :: l' => x :: filter (fun y => negb (String.eqb y x)) (distinct l')
  end.

(** The greatest magnitude for which the statements below exclude an
    overflow of the float arithmetic of [statistics]. *)
Definition magnitude_bound : Z := 2 ^ 1000.

(** The date of a commit. *)
Definition date_of (c : Commit.t) : pydate :=
  datetime_date (Commit.timestamp c).

(** What holds of the days once the commits [done] have been added. *)
Definition bucketed (days : dict pydate Day.t) (done : list Commit.t) : Prop :=
  NoDup (keys days) /\
  (forall c, In c done -> In (date_of c) (keys days)) /\
  forall k d, In (k, d) days ->
    Day.date d = k /\
    Day.commits d = filter (fun c => Z.eqb (date_of c) k) done /\
    Day.commits d <> [] /\
    Day.score d = 0.

(** ** [visualize.get_authors] *)

(** [sorted(items, key=lambda x: x[1], reverse=True)]: a stable sort by
    descending count; items of equal count keep their order. *)
Fixpoint insert_by_count (x : string * Z) (l : list (string * Z))
    : list (string * Z) :=
  match l with
  | [] => [x]
  | y :: l' => if snd x <? snd y then y :: insert_by_count x l' else x :: y :: l'
  end.

Fixpoint sorted_by_count (l : list (string * Z)) : list (string * Z) :=
  match l with
  | [] => []
  | x :: l' => insert_by_count x (sorted_by_count l')
  end.

Definition get_authors (commits : list Commit.t) : result (dict string Z) :=
  let update (authors : dict string Z) (commit : Commit.t) :=
    let authors :=
      if dict_mem String.eqb (Commit.author commit) authors then authors
      else dict_set String.eqb (Commit.author commit) 0 authors in
    n <- dict_get String.eqb (Commit.author commit) authors ;;
    Ok (dict_set String.eqb (Commit.author commit) (n + 1) authors) in
  authors <- list_reduce commits update [] ;;
  let authors_ordered := sorted_by_count authors in
  Ok authors_ordered.

(** The number of commits of an author. *)
Definition author_count (commits : list Commit.t) (a : string) : Z :=
  Z.of_nat (List.length
              (filter (fun c => String.eqb (Commit.author c) a) commits)).

(** The authors in order of first appearance, each with the number of
    their commits. *)
Definition counted_authors (commits : list Commit.t) : dict string Z :=
  map (fun a => (a, author_count commits a))
      (distinct (map Commit.author commits)).

(** ** [visualize.main]

    The visualizer from the content of the commits file and the author
    names of the command line to the content of the bars file.  The range
    handed to [build_bars] may hold [None]; comparing an int with [None]
    raises [TypeError].  ([IndexError] is raised by the collector, on a
    list index out of range.) *)

Inductive pyexn : Type :=
| Builtin (e : exn)
| TypeError
| IndexError.

Inductive outcome (A : Type) : Type :=
| Return (a : A)
| Throw (e : pyexn).

Arguments Return {A} a.
Arguments Throw {A} e.

Definition outcome_of {A : Type} (m : result A) : outcome A :=
  match m with
  | Ok a => Return a
  | Raise e => Throw (Builtin e)
  end.

Definition outcome_bind {A B : Type} (m : outcome A) (k : A -> outcome B)
    : outcome B :=
  match m with
  | Return a => k a
  | Throw e => Throw e
  end.

Notation "x <-- m ;; k" := (outcome_bind m (fun x => k))
  (at level 61, m at next level, right associativity) : py_scope.

Fixpoint for_each_outcome {A B : Type} (l : list A)
    (body : B -> A -> outcome B) (acc : B) : outcome B :=
  match l with
  | [] => Return acc
  | x :: l' => acc' <-- body acc x ;; for_each_outcome l' body acc'
  end.

(** [Group.get_score] on bounds that may be [None]. *)
Definition get_score_any (self : Group.t) (minv maxv : option Z)
    : outcome pynum :=
  match minv with
  | None => Throw TypeError
  | Some lower =>
      if Group.change self <? lower then Return (PInt 0)
      else
        match maxv with
        | None => Throw TypeError
        | Some upper => outcome_of (Group.get_score self lower upper)
        end
  end.

(** [build_bars] on a range that may hold [None]. *)
Definition build_bars_any (groups : dict string Group.t)
    (stddev_range : option Z * option Z * option Z) (block : string)
    (width : Z) : outcome (list string) :=
  let '(_, lower, upper) := stddev_range in
  for_each_outcome (sorted (keys groups))
    (fun bars name =>
       group <-- outcome_of (dict_get String.eqb name groups) ;;
       let bar := "" in
       let bar := bar ++ Group.name group in
       let bar := bar ++ "  " in
       let bar := bar ++ py_str_int (Group.change group) in
       let bar := bar ++ py_str_mul " " (5 - len (py_str_int (Group.change group))) in
       score <-- get_score_any group lower upper ;;
       scaled <-- outcome_of (py_mul_int score width) ;;
       let bar := bar ++ py_str_mul block (py_int scaled) in
       let bar := bar ++ newline in
       Return (bars ++ [bar])%list)
    [].

(** [write_bars_to_file], as the content of the file it writes. *)
Definition write_bars_to_file (linesep : string) (bars : list string) : string :=
  fold_left (fun f bar => f ++ text_write linesep bar) bars "".

(** [main]: [file] is the content of the input file, [authors] the names
    given with [-a]; the result is the content of the output file. *)
Definition visualize_main (linesep : string) (file : string)
    (authors : list string) : outcome string :=
  commits <-- outcome_of (Commit.from_csv_file file) ;;
  authors_found <-- outcome_of (get_authors commits) ;;
  let commits := filter_by_authors commits authors in
  weeks <-- outcome_of (group_by_week commits) ;;
  stddev_range <-- outcome_of (get_stddev_range weeks) ;;
  bars <-- build_bars_any weeks stddev_range default_block default_width ;;
  Return (write_bars_to_file linesep bars).

(** ** Characters of a string *)

(** [c in s] for a character. *)
Fixpoint has_char (c : ascii) (s : string) : bool :=
  match s with
  | EmptyString => false
  | String c' s' => Ascii.eqb c' c || has_char c s'
  end.

(** Only decimal digits. *)
Fixpoint all_digits (s : string) : bool :=
  match s with
  | EmptyString => true
  | String c s' =>
      match digit_of c with Some _ => all_digits s' | None => false end
  end.

(** ** A commits file written and read back *)






(** ** [collect.add_line_stats] *)

Definition TAB : ascii := ascii_of_nat 9.

(** [s.split(sep)] for a separator of one character. *)
Fixpoint py_split (sep : ascii) (s : string) : list string :=
  match s with
  | EmptyString => [EmptyString]
  | String c s' =>
      if Ascii.eqb c sep then EmptyString :: py_split sep s'
      else
        match py_split sep s' with
        | part :: parts => String c part :: parts
        | [] => [String c EmptyString]
        end
  end.

(** [sep.join(parts)]. *)
Fixpoint py_join (sep : string) (parts : list string) : string :=
  match parts with
  | [] => EmptyString
  | [part] => part
  | part :: parts' => part ++ sep ++ py_join sep parts'
  end.

(** [get_added_removed], on the output of [git show --numstat]. *)
Definition get_added_removed (output : string) : result (Z * Z) :=
  for_each (py_split LF output)
    (fun totals line =>
       let '(added, removed) := totals in
       if String.eqb (strip line) "" then Ok (added, removed)
       else
         let parts := py_split TAB line in
         match parts with
         | [part0; part1; part2] =>
             a <- (if negb (String.eqb part0 "-") then py_int_of_str part0
                   else Ok 0) ;;
             let added := added + a in
             r <- (if negb (String.eqb part1 "-") then py_int_of_str part1
                   else Ok 0) ;;
             let removed := removed + r in
             Ok (added, removed)
         | _ => Ok (added, removed)
         end)
    (0, 0).

(** The number of occurrences of a character. *)
Fixpoint count_char (c : ascii) (s : string) : nat :=
  match s with
  | EmptyString => O
  | String c' s' => if Ascii.eqb c' c then S (count_char c s') else count_char c s'
  end.

(** The lines of the output of [git show --numstat]: a line of the
    statistics (the lines added and removed, or none of either for a binary
    file, then the path), or any other line. *)
Inductive numstat_line : Type :=
| Stat (added removed : option Z) (path : string)
| Other (text : string).

Definition numstat_count (n : option Z) : string :=
  match n with
  | Some z => py_str_int z
  | None => "-"
  end.

Definition numstat_text (l : numstat_line) : string :=
  match l with
  | Stat added removed path =>
      numstat_count added ++ String TAB (numstat_count removed ++ String TAB path)
  | Other text => text
  end.

Definition counted (n : option Z) : Z :=
  match n with
  | Some z => z
  | None => 0
  end.

Definition added_of (l : numstat_line) : Z :=
  match l with
  | Stat added _ _ => counted added
  | Other _ => 0
  end.

Definition removed_of (l : numstat_line) : Z :=
  match l with
  | Stat _ removed _ => counted removed
  | Other _ => 0
  end.

Definition count_ok (n : option Z) : Prop :=
  match n with
  | Some z => 0 <= z < 10 ^ 4300
  | None => True
  end.

(** A line of the statistics has a path without tabs or line feeds (git
    quotes such paths); another line is any text of one line that is blank
    or does not hold exactly two tabs. *)
Definition numstat_line_ok (l : numstat_line) : Prop :=
  match l with
  | Stat added removed path =>
      count_ok added /\ count_ok removed /\
      has_char TAB path = false /\ has_char LF path = false
  | Other text =>
      has_char LF text = false /\
      (strip text = "" \/ count_char TAB text <> 2%nat)
  end.

(** An output of a commit that changes a text file and a binary file. *)
Definition example_numstat : list numstat_line :=
  [ Other "commit c0ffee"; Other "Author: alice"; Other "";
    Other "    Fix the parser"; Other "";
    Stat (Some 12) (Some 3) "src/collect.py";
    Stat None None "logo.png" ].

(** A count that [int] refuses. *)
Definition bad_count (part : string) : Prop :=
  part <> "-" /\ py_int_of_str part = Raise ValueError.

(** ** [collect.get_commits] *)

Definition slash : ascii := ascii_of_nat 47.
Definition vertical_bar : ascii := ascii_of_nat 124.

(** [l[i]] on a list; a negative index counts from the end. *)
Definition py_getitem {A : Type} (l : list A) (i : Z) : outcome A :=
  let n := Z.of_nat (List.length l) in
  let j := if i <? 0 then i + n else i in
  if (0 <=? j) && (j <? n) then
    match nth_error l (Z.to_nat j) with
    | Some x => Return x
    | None => Throw IndexError
    end
  else Throw IndexError.

Section GetCommits.

(** [datetime.datetime.fromtimestamp], the local time of a Unix timestamp:
    it depends on the time zone of the machine. *)
Variable fromtimestamp : Z -> outcome datetime.

(** [get_commits], on the path of the repository and the output of
    [git log --pretty=format:%H|%at|%an --reverse]. *)
Definition get_commits (repository_path : string) (output : string)
    : outcome (list Commit.t) :=
  repo <-- py_getitem (py_split slash repository_path) (-1) ;;
  for_each_outcome (py_split LF output)
    (fun items o =>
       let c := py_split vertical_bar o in
       sha <-- py_getitem c 0 ;;
       seconds <-- py_getitem c 1 ;;
       seconds <-- outcome_of (py_int_of_str seconds) ;;
       dt <-- fromtimestamp seconds ;;
       author <-- py_getitem c 2 ;;
       Return (items ++ [Commit.mk repo sha dt author (-1) (-1)])%list)
    [].

End GetCommits.

(** A commit as [git log] reports it: hash, Unix timestamp, author name. *)
Definition log_entry : Type := (string * Z * string)%type.

Definition log_line (e : log_entry) : string :=
  let '(sha, seconds, author) := e in
  sha ++ String vertical_bar (py_str_int seconds ++ String vertical_bar author).

(** The text before the first occurrence of a character. *)
Definition text_before (c : ascii) (s : string) : string :=
  hd "" (py_split c s).

(** The text after the last occurrence of a character. *)
Definition text_after (c : ascii) (s : string) : string :=
  last (py_split c s) "".

Definition log_entry_ok (e : log_entry) : Prop :=
  let '(sha, seconds, author) := e in
  has_char vertical_bar sha = false /\ has_char LF sha = false /\
  0 <= seconds < 10 ^ 4300 /\
  has_char LF author = false.

Definition log_entries : list log_entry :=
  [ ("c0ffee", 1704196800, "alice");
    ("decade", 1704283200, "Bob | Carol") ].

(** ** [collect.add_line_stats] and [collect.main] *)


Section Collector.

Variable fromtimestamp : Z -> outcome datetime.

(** [check_output] of [git log] in a repository and of [git show] of a
    commit of a repository: the text printed, or the exception raised. *)
Variable git_log : string -> outcome string.
Variable git_show : string -> string -> outcome string.



(** What git reports: the local time of a timestamp, the commits of a
    repository, the lines that [git show] prints for a commit. *)
Variable local : Z -> datetime.
Variable entries : string -> list log_entry.
Variable stats : string -> string -> list numstat_line.



End Collector.

(** ** Days of the months, by leap year *)

Definition month_days (leap : bool) (m : Z) : Z :=
  if m =? 2 then (if leap then 29 else 28)
  else if (m =? 4) || (m =? 6) || (m =? 9) || (m =? 11) then 30
  else 31.

Fixpoint month_days_before (leap : bool) (months : nat) : Z :=
  match months with
  | O => 0
  | S k => month_days_before leap k + month_days leap (Z.of_nat (S k))
  end.

(** ** [visualize.normalize], on ints

    [float(x - xmin) / float(xmax - xmin)]: both differences are converted
    to binary64, and their quotient is rounded to binary64; dividing by
    0.0 raises [ZeroDivisionError]. *)
Definition normalize (x xmin xmax : Z) : result Q :=
  a <- float_of_Q (inject_Z (x - xmin)) ;;
  b <- float_of_Q (inject_Z (xmax - xmin)) ;;
  if Qeq_bool b 0 then Raise ZeroDivisionError
  else float_of_Q (a / b).

(** * Properties *)

(** ** Rounding to binary64 *)

Section FloatFacts.
Local Open Scope Q_scope.

Lemma pow2_Qpower (e : Z) : pow2 e == 2 ^ e.
Proof.
unfold pow2. destruct (Z.leb_spec 0 e) as [H|H].
- apply (Zpower_Qpower 2 e H).
- replace e with (- (- e))%Z at 2 by lia.
  rewrite Qpower_opp, <- (Zpower_Qpower 2) by lia.
  assert (P : (0 < 2 ^ (- e))%Z) by (apply Z.pow_pos_nonneg; lia).
  destruct (2 ^ (- e))%Z as [|p|p]; try lia. reflexivity.
Qed.

Lemma pow2_pos (e : Z) : 0 < pow2 e.
Proof. rewrite pow2_Qpower. apply Qpower_0_lt. reflexivity. Qed.

Lemma pow2_add (a b : Z) : pow2 (a + b) == pow2 a * pow2 b.
Proof. rewrite !pow2_Qpower. apply Qpower_plus. discriminate. Qed.

Lemma pow2_lt (a b : Z) : (a < b)%Z -> pow2 a < pow2 b.
Proof. intros H. rewrite !pow2_Qpower. apply Qpower_lt_compat_l; [exact H | reflexivity]. Qed.

Lemma pow2_nonneg_Z (e : Z) : (0 <= e)%Z -> pow2 e = inject_Z (2 ^ e).
Proof. intros H. unfold pow2. destruct (Z.leb_spec 0 e); [reflexivity | lia]. Qed.

Lemma round_half_even_bounds (x : Q) :
(Qfloor x <= round_half_even x <= Qfloor x + 1)%Z.
Proof.
unfold round_half_even.
destruct (Qcompare (x - inject_Z (Qfloor x)) (1 # 2)); try lia.
destruct (Z.even (Qfloor x)); lia.
Qed.

Lemma round_half_even_Z (x : Q) (n : Z) : x == inject_Z n -> round_half_even x = n.
Proof.
intros H. unfold round_half_even.
assert (F : Qfloor x = n) by (rewrite H; apply Qfloor_Z).
rewrite F.
assert (C : Qcompare (x - inject_Z n) (1 # 2) = Lt).
{ rewrite <- Qlt_alt. rewrite H. ring_simplify. reflexivity. }
rewrite C. reflexivity.
Qed.

Lemma round_half_even_nonneg (x : Q) : 0 <= x -> (0 <= round_half_even x)%Z.
Proof.
intros H. pose proof (round_half_even_bounds x) as B.
pose proof (Qfloor_resp_le _ _ H) as F. change (Qfloor 0) with 0%Z in F. lia.
Qed.

Lemma round_half_even_le (x : Q) (n : Z) :
x <= inject_Z n -> (round_half_even x <= n)%Z.
Proof.
intros H. pose proof (round_half_even_bounds x) as B.
pose proof (Qfloor_resp_le _ _ H) as F. rewrite Qfloor_Z in F.
destruct (Z.eq_dec (Qfloor x) n) as [E|E]; [|lia].
assert (X : x == inject_Z n).
{ apply Qle_antisym; [exact H|]. rewrite <- E. apply Qfloor_le. }
rewrite (round_half_even_Z x n X). lia.
Qed.

Lemma ilog2_le (q : Q) (k : Z) : 0 < q -> q <= pow2 k -> (ilog2 q <= k)%Z.
Proof.
intros Hq Hk.
assert (L : (Z.log2 (Qnum q) - Z.log2 (Zpos (Qden q)) <= k)%Z).
{ destruct q as [a b]. unfold Qlt in Hq. cbn [Qnum Qden] in Hq |- *.
  assert (A : (0 < a)%Z) by lia. clear Hq.
  unfold pow2 in Hk. destruct (Z.leb_spec 0 k) as [K|K].
  - unfold Qle in Hk. cbn [Qnum Qden inject_Z] in Hk.
    assert (M : (Z.log2 a <= Z.log2 (Zpos b * 2 ^ k))%Z)
      by (apply Z.log2_le_mono; lia).
    rewrite Z.log2_mul_pow2 in M by lia. lia.
  - unfold Qle in Hk. cbn [Qnum Qden inject_Z] in Hk.
    assert (P : (0 < 2 ^ (- k))%Z) by (apply Z.pow_pos_nonneg; lia).
    rewrite Z2Pos.id in Hk by exact P.
    assert (M : (Z.log2 (a * 2 ^ (- k)) <= Z.log2 (Zpos b))%Z)
      by (apply Z.log2_le_mono; lia).
    rewrite Z.log2_mul_pow2 in M by lia. lia. }
unfold ilog2.
destruct (Qle_bool (pow2 (Z.log2 (Qnum q) - Z.log2 (Zpos (Qden q)))) q); lia.
Qed.

Lemma Qabs_of_pos (q : Q) : 0 < q -> Qabs q = q.
Proof.
destruct q as [a b]. unfold Qlt. simpl. intros H.
destruct a; try lia. reflexivity.
Qed.

(** Rounding to binary64 does not leave an interval whose upper end is a
  power of two, and keeps both ends. *)
Lemma float_of_Q_bounded (q : Q) (k : Z) :
0 <= q -> q <= pow2 k -> (- 1074 <= k < 1024)%Z ->
exists v, float_of_Q q = Ok v /\ 0 <= v /\ v <= pow2 k /\
          (q == 0 -> v == 0) /\ (q == pow2 k -> v == pow2 k).
Proof.
intros H0 Hk K. unfold float_of_Q.
destruct (Qeq_bool q 0) eqn:E0.
- apply Qeq_bool_eq in E0. exists 0.
  split; [reflexivity|]. split; [apply Qle_refl|].
  split; [apply Qlt_le_weak, pow2_pos|].
  split; [reflexivity|].
  intros E. rewrite <- E, E0. reflexivity.
- assert (Q0 : ~ q == 0) by (apply Qeq_bool_neq; exact E0).
  assert (Qp : 0 < q).
  { apply Qle_lt_or_eq in H0. destruct H0 as [H0|H0]; [exact H0|].
    exfalso. apply Q0. symmetry. exact H0. }
  rewrite (Qabs_of_pos q Qp).
  set (e := Z.max (ilog2 q - 52) (- 1074)).
  pose proof (ilog2_le q k Qp Hk) as IL.
  assert (Ek : (e <= k)%Z) by (unfold e; lia).
  assert (D : pow2 k == inject_Z (2 ^ (k - e)) * pow2 e).
  { rewrite <- (pow2_nonneg_Z (k - e)) by lia. rewrite <- pow2_add.
    replace (k - e + e)%Z with k by lia. reflexivity. }
  assert (Xle : q / pow2 e <= inject_Z (2 ^ (k - e))).
  { apply Qle_shift_div_r; [apply pow2_pos|]. rewrite <- D. exact Hk. }
  assert (X0 : 0 <= q / pow2 e).
  { apply Qle_shift_div_l; [apply pow2_pos|]. rewrite Qmult_0_l. exact H0. }
  set (m := round_half_even (q / pow2 e)).
  pose proof (round_half_even_nonneg _ X0) as M0.
  pose proof (round_half_even_le _ _ Xle) as M1.
  fold m in M0, M1.
  set (v := Qred (inject_Z m * pow2 e)).
  assert (V : v == inject_Z m * pow2 e) by apply Qred_correct.
  assert (V0 : 0 <= v).
  { rewrite V. apply Qmult_le_0_compat.
    - change (inject_Z 0 <= inject_Z m). rewrite <- Zle_Qle. exact M0.
    - apply Qlt_le_weak, pow2_pos. }
  assert (V1 : v <= pow2 k).
  { rewrite V, D. apply Qmult_le_compat_r.
    - rewrite <- Zle_Qle. exact M1.
    - apply Qlt_le_weak, pow2_pos. }
  assert (NO : Qle_bool (pow2 1024) v = false).
  { destruct (Qle_bool (pow2 1024) v) eqn:B; [|reflexivity].
    apply Qle_bool_imp_le in B. exfalso.
    apply (Qlt_irrefl (pow2 k)).
    apply Qlt_le_trans with (pow2 1024); [apply pow2_lt; lia|].
    apply Qle_trans with v; assumption. }
  rewrite NO.
  assert (P : Qle_bool 0 q = true) by (apply Qle_bool_iff; exact H0).
  rewrite P. exists v.
  split; [reflexivity|]. split; [exact V0|]. split; [exact V1|].
  split.
  + intros E. contradiction.
  + intros E. rewrite V, D.
    assert (M : m = (2 ^ (k - e))%Z).
    { apply round_half_even_Z. rewrite E, D.
      field. intros Z0. apply (Qlt_irrefl 0). rewrite <- Z0 at 2. apply pow2_pos. }
    rewrite M. reflexivity.
Qed.

End FloatFacts.

(** ** The score normaliser *)

Section ScoreFacts.
Local Open Scope Q_scope.

Lemma py_truediv_unit (a b : Z) :
(0 <= a <= b)%Z -> (0 < b)%Z ->
exists q, py_truediv a b = Ok (PFloat q) /\ 0 <= q /\ q <= 1 /\
          (a = 0%Z -> q == 0) /\ (a = b -> q == 1).
Proof.
intros Ha Hb. unfold py_truediv.
destruct (Z.eqb_spec b 0) as [E|_]; [lia|].
assert (B : 0 < inject_Z b).
{ change (inject_Z 0 < inject_Z b). rewrite <- Zlt_Qlt. exact Hb. }
assert (L : 0 <= inject_Z a / inject_Z b).
{ apply Qle_shift_div_l; [exact B|]. rewrite Qmult_0_l.
  change (inject_Z 0 <= inject_Z a). rewrite <- Zle_Qle. lia. }
assert (U : inject_Z a / inject_Z b <= pow2 0).
{ apply Qle_shift_div_r; [exact B|]. change (pow2 0) with 1.
  rewrite Qmult_1_l. rewrite <- Zle_Qle. lia. }
destruct (float_of_Q_bounded _ 0 L U ltac:(lia)) as (v & Ev & V0 & V1 & Z0 & Z1).
rewrite Ev. simpl. exists v.
split; [reflexivity|]. split; [exact V0|]. split; [exact V1|]. split.
- intros ->. apply Z0. unfold Qdiv. apply Qmult_0_l.
- intros ->. apply Z1. change (pow2 0) with 1. field.
  intros N. rewrite N in B. discriminate B.
Qed.

End ScoreFacts.

Lemma get_score_cases (g : Group.t) (lower upper : Z) :
  exists s, Group.get_score g lower upper = Ok s /\
    (0 <= pynum_val s)%Q /\ (pynum_val s <= 1)%Q /\
    (Group.change g < lower -> s = PInt 0) /\
    (lower <= Group.change g -> upper < Group.change g -> s = PInt 1) /\
    (lower <= Group.change g <= upper -> lower = upper -> s = PInt 0) /\
    (Group.change g = lower -> lower < upper -> (pynum_val s == 0)%Q) /\
    (Group.change g = upper -> lower < upper -> (pynum_val s == 1)%Q).
Proof.
  unfold Group.get_score.
  destruct (Z.ltb_spec (Group.change g) lower) as [A|A].
  { exists (PInt 0). split; [reflexivity|]. simpl.
    repeat split; try discriminate; try reflexivity; intros; lia. }
  destruct (Z.gtb_spec (Group.change g) upper) as [B|B].
  { exists (PInt 1). split; [reflexivity|]. simpl.
    repeat split; try discriminate; try reflexivity; intros; lia. }
  destruct (Z.eqb_spec (upper - lower) 0) as [C|C].
  { exists (PInt 0). split; [reflexivity|]. simpl.
    repeat split; try discriminate; try reflexivity; intros; lia. }
  destruct (py_truediv_unit (Group.change g - lower) (upper - lower))
    as (q & Eq & Q0 & Q1 & Z0 & Z1); [lia | lia |].
  exists (PFloat q). split; [exact Eq|]. simpl.
  split; [exact Q0|]. split; [exact Q1|].
  split; [intros; lia|]. split; [intros; lia|]. split; [intros; lia|].
  split; intros; [apply Z0 | apply Z1]; lia.
Qed.

(** C2 (as amended).  For every change magnitude and every pair of bounds
    with [lower <= upper], [get_score] returns a score in [0,1]; a
    magnitude at or below [lower] scores 0, and a magnitude at or above
    [upper] scores 1 provided it is above [lower], that is, except when
    the magnitude, [lower] and [upper] all coincide. *)
Theorem get_score_bounded (g : Group.t) (lower upper : Z) :
  lower <= upper ->
  exists s, Group.get_score g lower upper = Ok s /\
    (0 <= pynum_val s)%Q /\ (pynum_val s <= 1)%Q /\
    (Group.change g <= lower -> (pynum_val s == 0)%Q) /\
    (upper <= Group.change g -> lower < Group.change g ->
     (pynum_val s == 1)%Q).
Proof.
  intros H.
  destruct (get_score_cases g lower upper)
    as (s & E & S0 & S1 & Below & Above & Deg & AtL & AtU).
  exists s. split; [exact E|]. split; [exact S0|]. split; [exact S1|]. split.
  - intros V. destruct (Z.eq_dec (Group.change g) lower) as [EqL|NeL].
    + destruct (Z.eq_dec lower upper) as [EqU|NeU].
      * rewrite (Deg ltac:(lia) EqU). reflexivity.
      * apply AtL; lia.
    + rewrite (Below ltac:(lia)). reflexivity.
  - intros V W. destruct (Z.eq_dec (Group.change g) upper) as [EqU|NeU].
    + apply AtU; lia.
    + rewrite (Above ltac:(lia) ltac:(lia)). reflexivity.
Qed.

Lemma get_score_bounded_witness :
  0 <= 87 /\
  exists s, Group.get_score group_of_3 0 87 = Ok s /\
    (0 <= pynum_val s)%Q /\ (pynum_val s <= 1)%Q /\
    (Group.change group_of_3 <= 0 -> (pynum_val s == 0)%Q) /\
    (87 <= Group.change group_of_3 -> 0 < Group.change group_of_3 ->
     (pynum_val s == 1)%Q).
Proof.
  split; [lia | apply (get_score_bounded group_of_3 0 87); lia].
Defined.

(** C2 as stated fails for the week of 3 changed lines with bounds
    [lower = upper = 3]: the magnitude is at least [upper], and the score
    is the int 0. *)
Lemma get_score_upper_not_one :
  ~ (forall (g : Group.t) (lower upper : Z),
       lower <= upper -> upper <= Group.change g ->
       exists s, Group.get_score g lower upper = Ok s /\
                 (pynum_val s == 1)%Q).
Proof.
  intros H.
  destruct (H group_of_3 3 3) as (s & E & V); [lia | vm_compute; discriminate |].
  vm_compute in E. injection E as <-. vm_compute in V. discriminate V.
Qed.

(** C9 (as amended).  When [lower = upper], [get_score] returns without
    dividing: the int 0 for every magnitude up to the common bound, and
    the int 1 for every magnitude above it. *)
Theorem get_score_degenerate_range (g : Group.t) (bound : Z) :
  Group.get_score g bound bound =
  Ok (PInt (if bound <? Group.change g then 1 else 0)).
Proof.
  unfold Group.get_score.
  destruct (Z.ltb_spec (Group.change g) bound) as [A|A].
  - destruct (Z.ltb_spec bound (Group.change g)); [lia | reflexivity].
  - destruct (Z.gtb_spec (Group.change g) bound) as [B|B].
    + destruct (Z.ltb_spec bound (Group.change g)); [reflexivity | lia].
    + destruct (Z.ltb_spec bound (Group.change g)); [lia|].
      rewrite Z.sub_diag. reflexivity.
Qed.

(** C9 as stated fails for the week of 5 changed lines with
    [lower = upper = 3]: the score is 1. *)
Lemma get_score_degenerate_not_zero :
  Group.change group_of_5 = 5 /\
  Group.get_score group_of_5 3 3 = Ok (PInt 1) /\
  ~ (forall (g : Group.t) (bound : Z),
       exists s, Group.get_score g bound bound = Ok s /\ (pynum_val s == 0)%Q).
Proof.
  split; [reflexivity|]. split; [reflexivity|].
  intros H. destruct (H group_of_5 3) as (s & E & V).
  vm_compute in E. injection E as <-. vm_compute in V. discriminate V.
Qed.

(** ** Loops and dictionaries *)

Lemma for_each_invariant {A B : Type} (body : B -> A -> result B)
    (I : B -> list A -> Prop) :
  (forall acc done x, I acc done ->
     exists acc', body acc x = Ok acc' /\ I acc' (done ++ [x])%list) ->
  forall l acc done, I acc done ->
    exists acc', for_each l body acc = Ok acc' /\ I acc' (done ++ l)%list.
Proof.
  intros Step l. induction l as [|x l IH]; intros acc done H.
  - exists acc. rewrite app_nil_r. split; [reflexivity | exact H].
  - destruct (Step acc done x H) as (acc' & E & H').
    destruct (IH acc' (done ++ [x])%list H') as (acc'' & E' & H'').
    exists acc''. simpl. rewrite E. simpl. split; [exact E'|].
    rewrite <- app_assoc in H''. exact H''.
Qed.

Section DictFacts.
Context {K V : Type} (eqb : K -> K -> bool).
Hypothesis eqb_eq : forall x y, eqb x y = true <-> x = y.

Lemma dict_mem_true (k : K) (d : dict K V) :
  dict_mem eqb k d = true <-> In k (keys d).
Proof.
  unfold dict_mem, keys. rewrite existsb_exists, in_map_iff. split.
  - intros (kv & I & E). apply eqb_eq in E. exists kv. split; assumption.
  - intros (kv & E & I). exists kv. split; [exact I | apply eqb_eq; exact E].
Qed.

Lemma dict_mem_false (k : K) (d : dict K V) :
  dict_mem eqb k d = false <-> ~ In k (keys d).
Proof.
  rewrite <- dict_mem_true. destruct (dict_mem eqb k d); split; intros H;
    try reflexivity; try discriminate; try (intros C; discriminate C).
  exfalso. apply H. reflexivity.
Qed.

Lemma dict_set_absent (k : K) (v : V) (d : dict K V) :
  ~ In k (keys d) -> dict_set eqb k v d = (d ++ [(k, v)])%list.
Proof.
  induction d as [|[k' v'] d IH]; simpl; intros H; [reflexivity|].
  destruct (eqb k' k) eqn:E.
  - apply eqb_eq in E. exfalso. apply H. left. exact E.
  - rewrite IH; [reflexivity|]. intros C. apply H. right. exact C.
Qed.

Lemma dict_set_last (k : K) (v v' : V) (d : dict K V) :
  ~ In k (keys d) ->
  dict_set eqb k v' (d ++ [(k, v)])%list = (d ++ [(k, v')])%list.
Proof.
  induction d as [|[k0 v0] d IH]; simpl; intros H.
  - assert (E : eqb k k = true) by (apply eqb_eq; reflexivity).
    rewrite E. reflexivity.
  - destruct (eqb k0 k) eqn:E.
    + apply eqb_eq in E. exfalso. apply H. left. exact E.
    + rewrite IH; [reflexivity|]. intros C. apply H. right. exact C.
Qed.

Lemma dict_get_absent_app (k : K) (v : V) (d : dict K V) :
  ~ In k (keys d) -> dict_get eqb k (d ++ [(k, v)])%list = Ok v.
Proof.
  induction d as [|[k' v'] d IH]; simpl; intros H.
  - assert (E : eqb k k = true) by (apply eqb_eq; reflexivity).
    rewrite E. reflexivity.
  - destruct (eqb k' k) eqn:E.
    + apply eqb_eq in E. exfalso. apply H. left. exact E.
    + apply IH. intros C. apply H. right. exact C.
Qed.

(** A key that is present splits the dictionary at its entry; reading
    it gives that entry and assigning to it replaces the entry in
    place. *)
Lemma dict_present (k : K) (d : dict K V) :
  In k (keys d) ->
  exists d1 v d2,
    d = (d1 ++ (k, v) :: d2)%list /\ ~ In k (keys d1) /\
    dict_get eqb k d = Ok v /\
    forall v', dict_set eqb k v' d = (d1 ++ (k, v') :: d2)%list.
Proof.
  induction d as [|[k' v'] d IH]; simpl; intros H; [contradiction|].
  destruct (eqb k' k) eqn:E.
  - apply eqb_eq in E. subst k'. exists [], v', d. simpl.
    repeat split; auto.
  - assert (N : k' <> k).
    { intros C. apply eqb_eq in C. rewrite C in E. discriminate E. }
    destruct H as [H|H]; [contradiction|].
    destruct (IH H) as (d1 & v & d2 & Ed & Nin & Eg & Es).
    exists ((k', v') :: d1), v, d2. simpl. repeat split.
    + rewrite Ed. reflexivity.
    + intros [C|C]; [exact (N C) | exact (Nin C)].
    + exact Eg.
    + intros w. rewrite Es. reflexivity.
Qed.

Lemma dict_get_in (k : K) (v : V) (d : dict K V) :
  dict_get eqb k d = Ok v -> In (k, v) d.
Proof.
  induction d as [|[k' v'] d IH]; simpl; intros H; [discriminate|].
  destruct (eqb k' k) eqn:E.
  - apply eqb_eq in E. injection H as ->. left. rewrite E. reflexivity.
  - right. apply IH. exact H.
Qed.
End DictFacts.

(** ** Author filter *)

(** C10.  With no author names, [filter_by_authors] returns the empty
    list, whatever the commits. *)
Theorem filter_by_authors_no_authors (commits : list Commit.t) :
  filter_by_authors commits [] = [].
Proof.
  unfold filter_by_authors, list_filter, list_map. simpl.
  induction commits as [|c commits IH]; simpl; [reflexivity | exact IH].
Qed.

(** ** Weekly grouping *)

Lemma keys_app {K V : Type} (d1 d2 : dict K V) :
  keys (d1 ++ d2)%list = (keys d1 ++ keys d2)%list.
Proof. apply map_app. Qed.

Lemma values_app {K V : Type} (d1 d2 : dict K V) :
  values (d1 ++ d2)%list = (values d1 ++ values d2)%list.
Proof. apply map_app. Qed.

Lemma filter_snoc {A : Type} (f : A -> bool) (l : list A) (x : A) :
  filter f (l ++ [x])%list = (filter f l ++ if f x then [x] else [])%list.
Proof. rewrite filter_app. simpl. destruct (f x); reflexivity. Qed.

Lemma grouped_step (groups : dict string Group.t) (done : list Commit.t)
    (commit : Commit.t) :
  grouped groups done ->
  exists groups',
    (let week := strftime_Y_W (Commit.timestamp commit) in
     let groups :=
       if dict_mem String.eqb week groups then groups
       else dict_set String.eqb week (Group.mk week []) groups in
     g <- dict_get String.eqb week groups ;;
     Ok (dict_set String.eqb week
           (Group.mk (Group.name g) (Group.commits g ++ [commit])%list) groups))
    = Ok groups' /\
    grouped groups' (done ++ [commit])%list.
Proof.
  intros (ND & P & G). cbv zeta. fold (week_of commit).
  set (week := week_of commit).
  destruct (dict_mem String.eqb week groups) eqn:M.
  - apply (dict_mem_true _ String.eqb_eq) in M.
    destruct (dict_present _ String.eqb_eq week groups M)
      as (d1 & g & d2 & Ed & Nin & Eg & Es).
    rewrite Eg. simpl. rewrite Es. eexists. split; [reflexivity|].
    subst groups. rewrite keys_app in ND. simpl in ND.
    split; [|split].
    + rewrite keys_app. simpl. exact ND.
    + rewrite values_app, map_app, concat_app in *. simpl in *.
      rewrite <- app_assoc.
      apply Permutation_trans with
        ((List.concat (map Group.commits (values d1)) ++
          Group.commits g ++ List.concat (map Group.commits (values d2))) ++ [commit])%list.
      * rewrite <- !app_assoc. apply Permutation_app_head.
        apply Permutation_app_head. apply Permutation_app_comm.
      * apply Permutation_app_tail. exact P.
    + intros k g' I. rewrite filter_snoc. fold week.
      apply in_app_or in I. simpl in I.
      assert (Old : forall g0, In (k, g0) (d1 ++ (week, g) :: d2)%list ->
                    k <> week ->
                    Group.name g0 = k /\
                    Group.commits g0 =
                      (filter (fun c => String.eqb (week_of c) k) done ++
                       (if String.eqb week k then [commit] else []))%list /\
                    Group.commits g0 <> []).
      { intros g0 I0 Ne. destruct (G k g0 I0) as (N0 & C0 & E0).
        destruct (String.eqb_spec week k) as [C|_]; [congruence|].
        rewrite app_nil_r. auto. }
      destruct I as [I|[I|I]].
      * apply Old; [apply in_or_app; left; exact I|].
        intros ->. apply Nin. apply in_map_iff. exists (week, g'). auto.
      * injection I as <- <-. simpl.
        destruct (G week g) as (N0 & C0 & E0); [apply in_or_app; right; left; reflexivity|].
        rewrite String.eqb_refl. rewrite C0. split; [exact N0|]. split; [reflexivity|].
        intros C. apply app_eq_nil in C. destruct C as [_ C]. discriminate C.
      * apply Old; [apply in_or_app; right; right; exact I|].
        intros ->. apply NoDup_remove_2 in ND. apply ND.
        apply in_or_app. right. apply in_map_iff. exists (week, g'). auto.
  - apply (dict_mem_false _ String.eqb_eq) in M.
    rewrite (dict_set_absent _ String.eqb_eq week _ groups M).
    rewrite (dict_get_absent_app _ String.eqb_eq week _ groups M). simpl.
    rewrite (dict_set_last _ String.eqb_eq week _ _ groups M).
    eexists. split; [reflexivity|].
    split; [|split].
    + rewrite keys_app. simpl.
      apply Permutation_NoDup with (week :: keys groups)%list.
      * apply Permutation_cons_append.
      * constructor; assumption.
    + rewrite values_app, map_app, concat_app. simpl.
      apply Permutation_app; [exact P | apply Permutation_refl].
    + intros k g' I. rewrite filter_snoc. fold week.
      apply in_app_or in I. simpl in I. destruct I as [I|[I|[]]].
      * destruct (G k g' I) as (N0 & C0 & E0).
        destruct (String.eqb_spec week k) as [C|_].
        -- exfalso. apply M. rewrite C. apply in_map_iff. exists (k, g'). auto.
        -- rewrite app_nil_r. auto.
      * injection I as <- <-. simpl. rewrite String.eqb_refl.
        split; [reflexivity|]. split; [|discriminate].
        assert (F : filter (fun c => String.eqb (week_of c) week) done = []).
        { destruct (filter (fun c => String.eqb (week_of c) week) done)
            as [|c0 l] eqn:F; [reflexivity|].
          exfalso.
          assert (I0 : In c0 (filter (fun c => String.eqb (week_of c) week) done))
            by (rewrite F; left; reflexivity).
          apply filter_In in I0. destruct I0 as (I0 & W).
          apply String.eqb_eq in W.
          apply (Permutation_in _ (Permutation_sym P)) in I0.
          apply in_concat in I0. destruct I0 as (cs & Ics & Ic0).
          apply in_map_iff in Ics. destruct Ics as (g0 & <- & Ig0).
          apply in_map_iff in Ig0. destruct Ig0 as ((k0 & g1) & E1 & I1).
          simpl in E1. subst g1.
          destruct (G k0 g0 I1) as (_ & C0 & _).
          rewrite C0 in Ic0. apply filter_In in Ic0. destruct Ic0 as (_ & W0).
          apply String.eqb_eq in W0. apply M. rewrite <- W, W0.
          apply in_map_iff. exists (k0, g0). auto. }
        rewrite F. reflexivity.
Qed.

(** C6.  Grouping a list of commits by week returns a dictionary with
    one bucket per week key: the buckets taken together hold exactly the
    commits of the input, each as often as the input has it, and the bucket
    of a key holds exactly the commits of that week, in input order. *)
Theorem group_by_week_partition (commits : list Commit.t) :
  exists groups,
    group_by_week commits = Ok groups /\
    NoDup (keys groups) /\
    Permutation (List.concat (map Group.commits (values groups))) commits /\
    forall k g, In (k, g) groups ->
      Group.name g = k /\
      Group.commits g = filter (fun c => String.eqb (week_of c) k) commits /\
      Group.commits g <> [].
Proof.
  unfold group_by_week, list_reduce.
  destruct (for_each_invariant
              (fun (groups : dict string Group.t) (commit : Commit.t) =>
                 let week := strftime_Y_W (Commit.timestamp commit) in
                 let groups :=
                   if dict_mem String.eqb week groups then groups
                   else dict_set String.eqb week (Group.mk week []) groups in
                 g <- dict_get String.eqb week groups ;;
                 Ok (dict_set String.eqb week
                       (Group.mk (Group.name g) (Group.commits g ++ [commit])%list)
                       groups))
              grouped grouped_step commits [] [])
    as (groups & E & G).
  - split; [constructor|]. split; [apply Permutation_refl|]. intros k g [].
  - exists groups. split; [exact E|]. exact G.
Qed.

Example group_by_week_scenario :
  group_by_week scenario_commits = Ok scenario_groups.
Proof. vm_compute. reflexivity. Qed.

(** ** Range estimator *)








(** C1 (as amended).  [get_stddev_range] computes its statistics over the
    list of the groups' change magnitudes as it is, with no 0 appended:
    for groups with magnitudes 30 and 100 it returns mean 65, lower 16 and
    upper 114, the rounded mean (65) and rounded sample standard deviation
    (49) of [30, 100]. *)
Theorem get_stddev_range_of_30_100 (groups : dict string Group.t) :
  map Group.change (values groups) = [30; 100] ->
  get_stddev_range groups = Ok (Some 65, Some 16, Some 114).
Proof.
  intros H. unfold get_stddev_range, list_map. rewrite H.
  vm_compute. reflexivity.
Qed.

Lemma get_stddev_range_of_30_100_witness :
  map Group.change (values scenario_groups) = [30; 100] /\
  get_stddev_range scenario_groups = Ok (Some 65, Some 16, Some 114).
Proof.
  split; [reflexivity | apply (get_stddev_range_of_30_100 scenario_groups); reflexivity].
Defined.

(** C1 as stated fails on the groups of the scenario, whose magnitudes
    are 30 and 100: the result is not mean 43, lower 0, upper 87. *)
Lemma get_stddev_range_scenario_not_43_0_87 :
  map Group.change (values scenario_groups) = [30; 100] /\
  get_stddev_range scenario_groups <> Ok (Some 43, Some 0, Some 87).
Proof.
  split; [reflexivity|]. vm_compute. discriminate.
Qed.

(** ** Calendar filler *)

Lemma date_range_bounds (lo : pydate) (n : nat) (d : pydate) :
  In d (date_range lo n) <-> lo <= d < lo + Z.of_nat n.
Proof.
  revert lo. induction n as [|n IH]; intros lo.
  - simpl. lia.
  - cbn [date_range In]. rewrite IH. lia.
Qed.

Lemma date_range_sorted (lo : pydate) (n : nat) :
  StronglySorted Z.lt (date_range lo n).
Proof.
  revert lo. induction n as [|n IH]; intros lo; simpl; constructor.
  - apply IH.
  - apply Forall_forall. intros d I. apply date_range_bounds in I. lia.
Qed.

Lemma StronglySorted_filter {A : Type} (R : A -> A -> Prop) (f : A -> bool)
    (l : list A) :
  StronglySorted R l -> StronglySorted R (filter f l).
Proof.
  induction 1 as [|x l S IH F]; simpl; [constructor|].
  destruct (f x); [|exact IH]. constructor; [exact IH|].
  apply Forall_forall. intros y I. apply filter_In in I.
  rewrite Forall_forall in F. apply F. tauto.
Qed.

Lemma dict_mem_app {K V : Type} (eqb : K -> K -> bool) (k : K)
    (d1 d2 : dict K V) :
  dict_mem eqb k (d1 ++ d2)%list = dict_mem eqb k d1 || dict_mem eqb k d2.
Proof. apply existsb_app. Qed.

Lemma fill_loop_spec (n : nat) :
  forall (cur hi : pydate) (days : dict pydate Day.t) (fuel : nat),
    Z.of_nat n = hi - cur + 1 -> 0 < cur -> hi < date_max -> (n < fuel)%nat ->
    Day.fill_loop fuel cur hi days =
    Some (Ok (days ++ empty_days
                (filter (fun d => negb (dict_mem Z.eqb d days))
                        (date_range cur n)))%list).
Proof.
  induction n as [|n IH]; intros cur hi days fuel Hn Hc Hm Hf;
    (destruct fuel as [|fuel]; [lia|]); cbn [Day.fill_loop].
  - destruct (Z.leb_spec cur hi); [lia|]. simpl. rewrite app_nil_r. reflexivity.
  - destruct (Z.leb_spec cur hi); [|lia].
    unfold date_add_days.
    destruct (Z.ltb_spec 0 (cur + 1)); [|lia].
    destruct (Z.leb_spec (cur + 1) date_max); [|lia]. cbn [andb].
    cbn [date_range filter].
    destruct (dict_mem Z.eqb cur days) eqn:M; cbn [negb].
    + apply IH; lia.
    + apply (dict_mem_false _ Z.eqb_eq) in M.
      rewrite (dict_set_absent _ Z.eqb_eq cur _ days M).
      rewrite (IH (cur + 1) hi _ fuel) by lia.
      assert (F : filter (fun d => negb (dict_mem Z.eqb d (days ++ [(cur, Day.new cur [])])%list))
                         (date_range (cur + 1) n) =
                  filter (fun d => negb (dict_mem Z.eqb d days))
                         (date_range (cur + 1) n)).
      { apply filter_ext_in. intros d I.
        apply date_range_bounds in I. rewrite dict_mem_app.
        cbn [dict_mem existsb fst]. destruct (Z.eqb_spec cur d); [lia|].
        rewrite !orb_false_r. reflexivity. }
      unfold pydate in *. rewrite F, <- app_assoc. reflexivity.
Qed.

Lemma min_key_spec (ks : list pydate) :
  forall k, In (Day.min_key k ks) (k :: ks) /\
            forall x, In x (k :: ks) -> Day.min_key k ks <= x.
Proof.
  unfold Day.min_key. induction ks as [|y ks IH]; intros k; cbn [fold_left].
  - split; [left; reflexivity|]. intros x [<-|[]]. lia.
  - destruct (IH (Z.min k y)) as (I & L). split.
    + destruct I as [I|I]; [|right; right; exact I].
      rewrite <- I.
      destruct (Z.min_spec k y) as [(_ & E)|(_ & E)]; rewrite E;
        [left | right; left]; reflexivity.
    + intros x [<-|[<-|X]].
      * specialize (L (Z.min k y) (or_introl eq_refl)). lia.
      * specialize (L (Z.min k y) (or_introl eq_refl)). lia.
      * apply L. right. exact X.
Qed.

Lemma max_key_spec (ks : list pydate) :
  forall k, In (Day.max_key k ks) (k :: ks) /\
            forall x, In x (k :: ks) -> x <= Day.max_key k ks.
Proof.
  unfold Day.max_key. induction ks as [|y ks IH]; intros k; cbn [fold_left].
  - split; [left; reflexivity|]. intros x [<-|[]]. lia.
  - destruct (IH (Z.max k y)) as (I & L). split.
    + destruct I as [I|I]; [|right; right; exact I].
      rewrite <- I.
      destruct (Z.max_spec k y) as [(_ & E)|(_ & E)]; rewrite E;
        [right; left | left]; reflexivity.
    + intros x [<-|[<-|X]].
      * specialize (L (Z.max k y) (or_introl eq_refl)). lia.
      * specialize (L (Z.max k y) (or_introl eq_refl)). lia.
      * apply L. right. exact X.
Qed.

(** The filler on a mapping whose keys are dates before the last day of
    the calendar: the buckets of the missing dates between the least and
    the greatest key are appended, in ascending order. *)
Lemma fill_missing_dates_spec (days : dict pydate Day.t) :
  days <> [] ->
  Forall (fun k => 1 <= k < date_max) (keys days) ->
  exists lo hi,
    In lo (keys days) /\ In hi (keys days) /\
    (forall k, In k (keys days) -> lo <= k <= hi) /\
    Day._fill_missing_dates days =
    Some (Ok (days ++ empty_days (missing_dates days lo hi))%list).
Proof.
  intros NE V. unfold Day._fill_missing_dates.
  destruct (keys days) as [|k ks] eqn:E.
  { destruct days; [contradiction | discriminate E]. }
  destruct (min_key_spec ks k) as (Imin & Lmin).
  destruct (max_key_spec ks k) as (Imax & Lmax).
  exists (Day.min_key k ks), (Day.max_key k ks).
  split; [exact Imin|]. split; [exact Imax|]. split.
  - intros x I. split; [apply Lmin | apply Lmax]; exact I.
  - rewrite Forall_forall in V.
    pose proof (V _ Imin) as Vmin. pose proof (V _ Imax) as Vmax.
    pose proof (Lmin _ Imax) as Le.
    unfold missing_dates.
    apply fill_loop_spec; lia.
Qed.

Lemma keys_empty_days (dates : list pydate) : keys (empty_days dates) = dates.
Proof.
  unfold keys, empty_days. rewrite map_map. simpl. apply map_id.
Qed.

Lemma missing_dates_spec (days : dict pydate Day.t) (lo hi d : pydate) :
  In d (missing_dates days lo hi) <-> ~ In d (keys days) /\ lo <= d <= hi.
Proof.
  unfold missing_dates. rewrite filter_In, date_range_bounds, negb_true_iff.
  rewrite (dict_mem_false _ Z.eqb_eq). split; intros (A & B); split; try assumption; lia.
Qed.

(** The filler on a non-empty mapping whose keys are dates before the last
    day of the calendar: it returns, the keys of the result are exactly the
    dates from the least to the greatest key of the input, the buckets of
    the input are kept as they are, and the buckets of the other dates are
    new and empty. *)
Lemma fill_missing_dates_contiguous (days : dict pydate Day.t) :
  days <> [] ->
  Forall (fun k => 1 <= k < date_max) (keys days) ->
  exists lo hi days',
    Day._fill_missing_dates days = Some (Ok days') /\
    In lo (keys days) /\ In hi (keys days) /\
    (forall k, In k (keys days) -> lo <= k <= hi) /\
    (forall d, In d (keys days') <-> lo <= d <= hi) /\
    (forall k v, In (k, v) days -> In (k, v) days') /\
    (forall k, In k (keys days) ->
       dict_get Z.eqb k days' = dict_get Z.eqb k days) /\
    (forall d, ~ In d (keys days) -> lo <= d <= hi ->
       dict_get Z.eqb d days' = Ok (Day.new d [])).
Proof.
  intros NE V.
  destruct (fill_missing_dates_spec days NE V) as (lo & hi & Ilo & Ihi & B & E).
  exists lo, hi, (days ++ empty_days (missing_dates days lo hi))%list.
  split; [exact E|]. split; [exact Ilo|]. split; [exact Ihi|]. split; [exact B|].
  split; [|split; [|split]].
  - intros d. rewrite keys_app, in_app_iff, keys_empty_days, missing_dates_spec.
    split.
    + intros [I|(_ & I)]; [apply B; exact I | exact I].
    + intros I. destruct (in_dec Z.eq_dec d (keys days)); [left | right]; tauto.
  - intros k v I. apply in_or_app. left. exact I.
  - intros k I.
    destruct (dict_present _ Z.eqb_eq k days I) as (d1 & v & d2 & Ed & Nin & Eg & _).
    rewrite Eg. rewrite Ed at 1. rewrite <- app_assoc.
    clear - Nin. induction d1 as [|[k1 v1] d1 IH]; simpl.
    + rewrite Z.eqb_refl. reflexivity.
    + destruct (Z.eqb_spec k1 k) as [->|_].
      * exfalso. apply Nin. left. reflexivity.
      * apply IH. intros C. apply Nin. right. exact C.
  - intros d Nin I.
    assert (M : In d (missing_dates days lo hi))
      by (apply missing_dates_spec; tauto).
    generalize dependent (missing_dates days lo hi). intros ms _ M.
    clear - Nin M. induction days as [|[k1 v1] days IH]; simpl.
    + induction ms as [|x ms IHm]; [contradiction|]. simpl.
      destruct (Z.eqb_spec x d) as [->|Ne]; [reflexivity|].
      destruct M as [M|M]; [contradiction|]. apply IHm. exact M.
    + destruct (Z.eqb_spec k1 d) as [->|_].
      * exfalso. apply Nin. left. reflexivity.
      * apply IH. intros C. apply Nin. right. exact C.
Qed.

(** C3, at the failing input.  On the mapping whose only key is the last
    day of the calendar, 9999-12-31, the filler raises [OverflowError]
    where the claim has it return the mapping; so does [from_commits] on a
    single commit of that day. *)
Theorem fill_missing_dates_last_day :
  datetime_date (Commit.timestamp last_day_commit) = date_max /\
  Day._fill_missing_dates [(date_max, Day.new date_max [last_day_commit])] =
    Some (Raise OverflowError) /\
  Day.from_commits [last_day_commit] = Some (Raise OverflowError).
Proof.
  split; [reflexivity|]. split; vm_compute; reflexivity.
Qed.

(** C4 (as amended).  For every mapping whose keys are dates before the
    last day of the calendar, the filler returns a mapping that iterates
    the keys of the input first, in the order of the input, and then the
    missing dates between its least and greatest key, in ascending
    order. *)
Theorem fill_missing_dates_order (days : dict pydate Day.t) :
  Forall (fun k => 1 <= k < date_max) (keys days) ->
  exists days' missing,
    Day._fill_missing_dates days = Some (Ok days') /\
    keys days' = (keys days ++ missing)%list /\
    StronglySorted Z.lt missing /\
    forall d, In d missing <->
      ~ In d (keys days) /\
      exists lo hi, In lo (keys days) /\ In hi (keys days) /\ lo <= d <= hi.
Proof.
  intros V. destruct days as [|kv rest] eqn:E.
  - exists [], []. split; [reflexivity|]. split; [reflexivity|].
    split; [constructor|]. intros d. split; [intros [] | intros (_ & lo & hi & [] & _)].
  - rewrite <- E in *.
    assert (NE : days <> []) by (rewrite E; discriminate).
    destruct (fill_missing_dates_spec days NE V) as (lo & hi & Ilo & Ihi & B & F).
    exists (days ++ empty_days (missing_dates days lo hi))%list,
           (missing_dates days lo hi).
    split; [exact F|]. split; [rewrite keys_app, keys_empty_days; reflexivity|].
    split; [apply StronglySorted_filter, date_range_sorted|].
    intros d. rewrite missing_dates_spec. split.
    + intros (N & I). split; [exact N|]. exists lo, hi. auto.
    + intros (N & lo' & hi' & Il & Ih & I). split; [exact N|].
      pose proof (B _ Il). pose proof (B _ Ih). lia.
Qed.

Lemma fill_missing_dates_order_witness :
  Forall (fun k => 1 <= k < date_max) (keys sparse_days) /\
  exists days' missing,
    Day._fill_missing_dates sparse_days = Some (Ok days') /\
    keys days' = (keys sparse_days ++ missing)%list /\
    StronglySorted Z.lt missing /\
    forall d, In d missing <->
      ~ In d (keys sparse_days) /\
      exists lo hi, In lo (keys sparse_days) /\ In hi (keys sparse_days) /\
                    lo <= d <= hi.
Proof.
  assert (V : Forall (fun k => 1 <= k < date_max) (keys sparse_days)).
  { unfold date_max. simpl. repeat constructor; lia. }
  split; [exact V | exact (fill_missing_dates_order sparse_days V)].
Defined.

(** C4 as stated fails on the days of two commits made on 2024-01-02 and
    2024-01-04: the bucket of 2024-01-03 comes last. *)
Lemma fill_missing_dates_not_ascending :
  exists days',
    Day.from_commits sparse_commits = Some (Ok days') /\
    Day._fill_missing_dates sparse_days = Some (Ok days') /\
    keys days' = [738887; 738889; 738888] /\
    ~ Sorted Z.le (keys days').
Proof.
  eexists. split; [vm_compute; reflexivity|].
  split; [vm_compute; reflexivity|]. split; [reflexivity|].
  simpl. intros S. inversion S as [|x l S1 H1]; subst.
  inversion S1 as [|y l' S2 H2]; subst.
  inversion H2 as [|z l'' L]; subst. lia.
Qed.

(** ** Order of strings *)






Lemma sorted_permutation (l : list string) : Permutation (sorted l) l.
Proof. apply Permutation_sym, StringSort.Permuted_sort. Qed.

(** ** Bar renderer *)


Lemma float_of_50 : float_of_Q (inject_Z 50) = Ok (inject_Z 50).
Proof. vm_compute. reflexivity. Qed.

Lemma py_mul_int_unit (s : pynum) :
  (0 <= pynum_val s)%Q -> (pynum_val s <= 1)%Q ->
  exists scaled,
    py_mul_int s 50 = Ok scaled /\ (0 <= pynum_val scaled)%Q /\
    py_int scaled = Qfloor (pynum_val scaled).
Proof.
  destruct s as [z|q]; cbn [pynum_val py_mul_int]; intros L U.
  - exists (PInt (z * 50)). split; [reflexivity|]. cbn [pynum_val py_int]. split.
    + change 0%Q with (inject_Z 0) in *. rewrite <- Zle_Qle in *. lia.
    + symmetry. apply Qfloor_Z.
  - rewrite float_of_50. cbn [bind].
    assert (P0 : (0 <= q * inject_Z 50)%Q).
    { apply Qmult_le_0_compat; [exact L | discriminate]. }
    assert (P1 : (q * inject_Z 50 <= pow2 6)%Q).
    { apply Qle_trans with (1 * inject_Z 50)%Q.
      - apply Qmult_le_compat_r; [exact U | discriminate].
      - vm_compute. discriminate. }
    destruct (float_of_Q_bounded _ 6 P0 P1 ltac:(lia)) as (p & E & V0 & _).
    rewrite E. cbn [bind]. exists (PFloat p). split; [reflexivity|].
    cbn [pynum_val py_int]. split; [exact V0|].
    unfold Qtrunc. apply Qle_bool_iff in V0. rewrite V0. reflexivity.
Qed.

Lemma append_assoc (a b c : string) : (a ++ b) ++ c = a ++ b ++ c.
Proof.
  induction a as [|x a IH]; simpl; [reflexivity | rewrite IH; reflexivity].
Qed.




(** ** CSV persistence *)

(** The commits of the scenario are read back as they were saved, on
    POSIX. *)
Example save_then_load_scenario :
  Commit.from_csv_file (save_commits posix_linesep scenario_commits) =
  Ok scenario_commits.
Proof. vm_compute. reflexivity. Qed.

(** C7, at the failing input.  A commit whose author name holds a carriage
    return is saved and read back with a line feed in its place: the files
    are opened without [newline=''], so reading translates the carriage
    return inside the quoted field.  With [os.linesep] CR LF, reading what
    was saved raises [ValueError] on the empty row that follows the header,
    whatever the commits. *)
Theorem save_then_load_carriage_return :
  Commit.from_csv_file (save_commits posix_linesep [carriage_return_commit]) =
    Ok [line_feed_commit] /\
  Commit.author line_feed_commit <> Commit.author carriage_return_commit /\
  Commit.from_csv_file (save_commits windows_linesep scenario_commits) =
    Raise ValueError.
Proof.
  split; [vm_compute; reflexivity|]. split; [|vm_compute; reflexivity].
  vm_compute. discriminate.
Qed.

(** ** Weekly grouping: totals and order of the buckets *)

Lemma group_by_week_grouped (commits : list Commit.t) :
  exists groups, group_by_week commits = Ok groups /\ grouped groups commits.
Proof.
  unfold group_by_week, list_reduce.
  destruct (for_each_invariant
              (fun (groups : dict string Group.t) (commit : Commit.t) =>
                 let week := strftime_Y_W (Commit.timestamp commit) in
                 let groups :=
                   if dict_mem String.eqb week groups then groups
                   else dict_set String.eqb week (Group.mk week []) groups in
                 g <- dict_get String.eqb week groups ;;
                 Ok (dict_set String.eqb week
                       (Group.mk (Group.name g) (Group.commits g ++ [commit])%list)
                       groups))
              grouped grouped_step commits [] [])
    as (groups & E & G).
  - split; [constructor|]. split; [apply Permutation_refl|]. intros k g [].
  - exists groups. split; [exact E | exact G].
Qed.

Lemma fold_left_add_shift (l : list Z) (a : Z) :
  fold_left Z.add l a = a + fold_left Z.add l 0.
Proof.
  revert a. induction l as [|x l IH]; intros a; simpl; [lia|].
  rewrite (IH (a + x)), (IH x). lia.
Qed.

Lemma py_sum_cons (x : Z) (l : list Z) : py_sum (x :: l) = x + py_sum l.
Proof. unfold py_sum. simpl. apply fold_left_add_shift. Qed.

Lemma py_sum_app (l1 l2 : list Z) : py_sum (l1 ++ l2) = py_sum l1 + py_sum l2.
Proof.
  induction l1 as [|x l1 IH]; simpl; [reflexivity|].
  rewrite !py_sum_cons, IH. lia.
Qed.

Lemma py_sum_permutation (l1 l2 : list Z) :
  Permutation l1 l2 -> py_sum l1 = py_sum l2.
Proof.
  induction 1; rewrite ?py_sum_cons; first [reflexivity | lia].
Qed.

Lemma py_sum_changes (gs : list Group.t) :
  py_sum (map Group.change gs) =
  py_sum (map Commit.added (List.concat (map Group.commits gs))) +
  py_sum (map Commit.removed (List.concat (map Group.commits gs))).
Proof.
  induction gs as [|g gs IH]; simpl; [reflexivity|].
  rewrite py_sum_cons, IH, !map_app, !py_sum_app.
  unfold Group.change, Group.added, Group.removed. lia.
Qed.

(** Grouping keeps the totals: the change magnitudes of the weeks add up
    to the added plus the removed lines of all the commits. *)
Theorem group_by_week_total_change (commits : list Commit.t) :
  exists groups,
    group_by_week commits = Ok groups /\
    py_sum (map Group.change (values groups)) =
    py_sum (map Commit.added commits) + py_sum (map Commit.removed commits).
Proof.
  destruct (group_by_week_grouped commits) as (groups & E & _ & P & _).
  exists groups. split; [exact E|]. rewrite py_sum_changes.
  rewrite (py_sum_permutation _ _ (Permutation_map Commit.added P)).
  rewrite (py_sum_permutation _ _ (Permutation_map Commit.removed P)).
  reflexivity.
Qed.

Lemma distinct_in (l : list string) (x : string) : In x (distinct l) <-> In x l.
Proof.
  induction l as [|y l IH]; simpl; [tauto|].
  rewrite filter_In, IH, negb_true_iff, String.eqb_neq.
  destruct (string_dec y x) as [->|N]; [tauto|].
  split; [tauto|]. intros [C|I]; [contradiction|]. right. split; [exact I|].
  intros C. apply N. symmetry. exact C.
Qed.

Lemma distinct_snoc (l : list string) (x : string) :
  distinct (l ++ [x]) = if in_dec string_dec x l then distinct l
                        else (distinct l ++ [x])%list.
Proof.
  induction l as [|y l IH]; simpl; [reflexivity|].
  rewrite IH. destruct (string_dec y x) as [->|N].
  - destruct (in_dec string_dec x l) as [I|NI]; [reflexivity|].
    rewrite filter_app. simpl. rewrite String.eqb_refl. simpl.
    rewrite app_nil_r. reflexivity.
  - destruct (in_dec string_dec x l) as [I|NI]; [reflexivity|].
    rewrite filter_app. simpl.
    destruct (String.eqb_spec x y) as [C|_]; [congruence|]. reflexivity.
Qed.

Lemma week_update_keys (groups groups' : dict string Group.t)
    (commit : Commit.t) :
  (let week := strftime_Y_W (Commit.timestamp commit) in
   let groups :=
     if dict_mem String.eqb week groups then groups
     else dict_set String.eqb week (Group.mk week []) groups in
   g <- dict_get String.eqb week groups ;;
   Ok (dict_set String.eqb week
         (Group.mk (Group.name g) (Group.commits g ++ [commit])%list) groups))
  = Ok groups' ->
  keys groups' =
  if in_dec string_dec (week_of commit) (keys groups) then keys groups
  else (keys groups ++ [week_of commit])%list.
Proof.
  cbv zeta. fold (week_of commit). set (week := week_of commit).
  destruct (dict_mem String.eqb week groups) eqn:M.
  - apply (dict_mem_true _ String.eqb_eq) in M.
    destruct (dict_present _ String.eqb_eq week groups M)
      as (d1 & g & d2 & Ed & Nin & Eg & Es).
    rewrite Eg. cbn [bind]. rewrite Es. intros [= <-].
    destruct (in_dec string_dec week (keys groups)); [|contradiction].
    rewrite Ed, !keys_app. reflexivity.
  - apply (dict_mem_false _ String.eqb_eq) in M.
    rewrite (dict_set_absent _ String.eqb_eq week _ groups M).
    rewrite (dict_get_absent_app _ String.eqb_eq week _ groups M). cbn [bind].
    rewrite (dict_set_last _ String.eqb_eq week _ _ groups M). intros [= <-].
    destruct (in_dec string_dec week (keys groups)); [contradiction|].
    rewrite keys_app. reflexivity.
Qed.

(** The buckets are in the order in which their weeks first appear in the
    commits. *)
Theorem group_by_week_key_order (commits : list Commit.t) :
  exists groups,
    group_by_week commits = Ok groups /\
    keys groups = distinct (map week_of commits).
Proof.
  unfold group_by_week, list_reduce.
  match goal with
  | |- exists groups, for_each _ ?body [] = Ok groups /\ _ =>
      destruct (for_each_invariant body
        (fun groups done =>
           grouped groups done /\ keys groups = distinct (map week_of done)))
        with (l := commits) (acc := @nil (string * Group.t)) (done := @nil Commit.t)
        as (groups & E & _ & K)
  end.
  - intros groups done commit (G & K).
    destruct (grouped_step groups done commit G) as (groups' & E & G').
    exists groups'. split; [exact E|]. split; [exact G'|].
    rewrite (week_update_keys groups groups' commit E).
    rewrite map_app. simpl. rewrite distinct_snoc, K.
    destruct (in_dec string_dec (week_of commit) (distinct (map week_of done)))
      as [I|N];
      destruct (in_dec string_dec (week_of commit) (map week_of done))
      as [I'|N']; try reflexivity.
    + exfalso. apply N'. apply distinct_in. exact I.
    + exfalso. apply N. apply distinct_in. exact I'.
  - split; [|reflexivity].
    split; [constructor|]. split; [apply Permutation_refl|]. intros k g [].
  - exists groups. split; [exact E | exact K].
Qed.

(** ** Range estimator: the range is ordered *)

Section SqrtFacts.
Local Open Scope Q_scope.

Lemma round_sqrt_bounds (x : Q) (n : Z) :
  0 <= x -> x <= inject_Z (n * n) -> (0 <= n)%Z ->
  (0 <= round_sqrt x <= n)%Z.
Proof.
  intros X0 Xn N. unfold round_sqrt.
  set (s := Z.sqrt (Qfloor x)).
  assert (S0 : (0 <= s)%Z) by apply Z.sqrt_nonneg.
  assert (F : (Qfloor x <= n * n)%Z).
  { rewrite <- (Qfloor_Z (n * n)). apply Qfloor_resp_le. exact Xn. }
  assert (Sn : (s <= n)%Z).
  { unfold s. rewrite <- (Z.sqrt_square n) by exact N.
    apply Z.sqrt_le_mono. exact F. }
  destruct (Z.eq_dec s n) as [E|E].
  - assert (C : Qcompare x ((inject_Z s + (1 # 2)) * (inject_Z s + (1 # 2))) = Lt).
    { rewrite <- Qlt_alt. rewrite E. apply Qle_lt_trans with (inject_Z (n * n)); [exact Xn|].
      rewrite inject_Z_mult.
      assert (P : 0 <= inject_Z n).
      { change (inject_Z 0 <= inject_Z n). rewrite <- Zle_Qle. exact N. }
      setoid_replace ((inject_Z n + (1 # 2)) * (inject_Z n + (1 # 2)))
        with (inject_Z n * inject_Z n + (inject_Z n + (1 # 4))) by ring.
      rewrite <- (Qplus_0_r (inject_Z n * inject_Z n)) at 1.
      apply Qplus_lt_r. apply Qle_lt_trans with (inject_Z n); [exact P|].
      rewrite <- (Qplus_0_r (inject_Z n)) at 1. apply Qplus_lt_r. reflexivity. }
    rewrite C. lia.
  - destruct (Qcompare x ((inject_Z s + (1 # 2)) * (inject_Z s + (1 # 2))));
      try lia.
    destruct (Z.even s); lia.
Qed.

Lemma float_sqrt_of_Q_bounded (q : Q) (k : Z) :
  0 <= q -> q <= pow2 (2 * k) -> (- 1074 <= k < 1024)%Z ->
  exists v, float_sqrt_of_Q q = Ok v /\ 0 <= v /\ v <= pow2 k.
Proof.
  intros H0 Hk K. unfold float_sqrt_of_Q.
  destruct (Qle_bool q 0) eqn:E0.
  - exists 0. split; [reflexivity|]. split; [apply Qle_refl|].
    apply Qlt_le_weak, pow2_pos.
  - assert (Qp : 0 < q).
    { apply Qnot_le_lt. intros C. apply Qle_bool_iff in C. congruence. }
    set (e := Z.max (ilog2 q / 2 - 52) (- 1074)).
    pose proof (ilog2_le q (2 * k) Qp Hk) as IL.
    assert (Ek : (e <= k)%Z).
    { assert (D : (ilog2 q / 2 <= k)%Z).
      { apply Z.div_le_upper_bound; lia. }
      unfold e. lia. }
    set (n := (2 ^ (k - e))%Z).
    assert (N0 : (0 <= n)%Z) by (apply Z.pow_nonneg; lia).
    assert (D : pow2 (2 * k) == inject_Z (n * n) * pow2 (2 * e)).
    { unfold n. rewrite <- Z.pow_add_r by lia.
      rewrite <- (pow2_nonneg_Z (k - e + (k - e))) by lia. rewrite <- pow2_add.
      replace (k - e + (k - e) + 2 * e)%Z with (2 * k)%Z by lia. reflexivity. }
    assert (De : pow2 k == inject_Z n * pow2 e).
    { unfold n. rewrite <- (pow2_nonneg_Z (k - e)) by lia. rewrite <- pow2_add.
      replace (k - e + e)%Z with k by lia. reflexivity. }
    assert (Xle : q / pow2 (2 * e) <= inject_Z (n * n)).
    { apply Qle_shift_div_r; [apply pow2_pos|]. rewrite <- D. exact Hk. }
    assert (X0 : 0 <= q / pow2 (2 * e)).
    { apply Qle_shift_div_l; [apply pow2_pos|]. rewrite Qmult_0_l. exact H0. }
    destruct (round_sqrt_bounds _ n X0 Xle N0) as (M0 & M1).
    set (m := round_sqrt (q / pow2 (2 * e))) in *.
    set (v := Qred (inject_Z m * pow2 e)).
    assert (V : v == inject_Z m * pow2 e) by apply Qred_correct.
    assert (V0 : 0 <= v).
    { rewrite V. apply Qmult_le_0_compat.
      - change (inject_Z 0 <= inject_Z m). rewrite <- Zle_Qle. exact M0.
      - apply Qlt_le_weak, pow2_pos. }
    assert (V1 : v <= pow2 k).
    { rewrite V, De. apply Qmult_le_compat_r.
      - rewrite <- Zle_Qle. exact M1.
      - apply Qlt_le_weak, pow2_pos. }
    assert (NO : Qle_bool (pow2 1024) v = false).
    { destruct (Qle_bool (pow2 1024) v) eqn:B; [|reflexivity].
      apply Qle_bool_imp_le in B. exfalso.
      apply (Qlt_irrefl (pow2 k)).
      apply Qlt_le_trans with (pow2 1024); [apply pow2_lt; lia|].
      apply Qle_trans with v; assumption. }
    rewrite NO. exists v. split; [reflexivity|]. split; assumption.
Qed.

End SqrtFacts.

Lemma py_sum_bounds (b : Z) (l : list Z) :
  Forall (fun x => 0 <= x <= b) l ->
  0 <= py_sum l <= b * Z.of_nat (List.length l).
Proof.
  induction 1 as [|x l Hx _ IH]; [unfold py_sum; simpl; lia|].
  rewrite py_sum_cons. cbn [List.length]. lia.
Qed.

Section VarianceFacts.
Local Open Scope Q_scope.

Lemma fold_left_Qplus_bounds (m : Q) (l : list Q) :
  Forall (fun t => 0 <= t /\ t <= m) l ->
  forall a, 0 <= a ->
    0 <= fold_left Qplus l a /\
    fold_left Qplus l a <= a + inject_Z (Z.of_nat (List.length l)) * m.
Proof.
  induction 1 as [|t l (T0 & T1) _ IH]; intros a A.
  - cbn [fold_left List.length Z.of_nat inject_Z]. split; [exact A|].
    change (0 # 1) with 0. rewrite Qmult_0_l, Qplus_0_r. apply Qle_refl.
  - cbn [fold_left List.length]. rewrite Nat2Z.inj_succ. unfold Z.succ.
    rewrite inject_Z_plus.
    destruct (IH (a + t)) as (L & U); [lra|]. split; [exact L|].
    set (p := inject_Z (Z.of_nat (List.length l)) * m) in *.
    setoid_replace ((inject_Z (Z.of_nat (List.length l)) + inject_Z 1) * m)
      with (p + m) by (unfold p; ring).
    lra.
Qed.

Lemma square_le (d b : Q) : - b <= d -> d <= b -> d * d <= b * b.
Proof.
  intros L U.
  assert (P : 0 <= (b - d) * (b + d)).
  { apply Qmult_le_0_compat; lra. }
  setoid_replace ((b - d) * (b + d)) with (b * b - d * d) in P by ring.
  lra.
Qed.

Lemma sample_variance_bounds (data : list Z) :
  (2 <= Z.of_nat (List.length data))%Z ->
  Forall (fun x => (0 <= x <= magnitude_bound)%Z) data ->
  0 <= sample_variance data /\ sample_variance data <= pow2 (2 * 1001).
Proof.
  intros N H. unfold sample_variance.
  set (n := Z.of_nat (List.length data)) in *.
  set (b := inject_Z magnitude_bound).
  set (c := inject_Z (py_sum data) / inject_Z n).
  assert (Npos : 0 < inject_Z n).
  { change (inject_Z 0 < inject_Z n). rewrite <- Zlt_Qlt. lia. }
  assert (N1 : 0 < inject_Z (n - 1)).
  { change (inject_Z 0 < inject_Z (n - 1)). rewrite <- Zlt_Qlt. lia. }
  destruct (py_sum_bounds magnitude_bound data H) as (S0 & S1). fold n in S1.
  assert (B0 : 0 <= b).
  { change (inject_Z 0 <= inject_Z magnitude_bound). rewrite <- Zle_Qle.
    unfold magnitude_bound. apply Z.pow_nonneg. lia. }
  assert (C0 : 0 <= c).
  { apply Qle_shift_div_l; [exact Npos|]. rewrite Qmult_0_l.
    change (inject_Z 0 <= inject_Z (py_sum data)). rewrite <- Zle_Qle. exact S0. }
  assert (C1 : c <= b).
  { apply Qle_shift_div_r; [exact Npos|]. unfold b. rewrite <- inject_Z_mult.
    rewrite <- Zle_Qle. exact S1. }
  assert (T : Forall (fun t => 0 <= t /\ t <= b * b)
                (map (fun x : Z => (inject_Z x - c) * (inject_Z x - c)) data)).
  { apply Forall_map. apply Forall_impl with (2 := H). intros x (X0 & X1).
    assert (Q0 : 0 <= inject_Z x).
    { change (inject_Z 0 <= inject_Z x). rewrite <- Zle_Qle. exact X0. }
    assert (Q1 : inject_Z x <= b) by (unfold b; rewrite <- Zle_Qle; exact X1).
    split.
    - destruct (Qlt_le_dec (inject_Z x - c) 0) as [Neg|Pos].
      + setoid_replace ((inject_Z x - c) * (inject_Z x - c))
          with ((c - inject_Z x) * (c - inject_Z x)) by ring.
        apply Qmult_le_0_compat; lra.
      + apply Qmult_le_0_compat; exact Pos.
    - apply square_le; lra. }
  destruct (fold_left_Qplus_bounds (b * b) _ T 0 (Qle_refl 0)) as (L & U).
  rewrite length_map in U. fold n in U.
  set (ss := fold_left Qplus
               (map (fun x : Z => (inject_Z x - c) * (inject_Z x - c)) data) 0) in *.
  rewrite (Qred_correct (ss / inject_Z (n - 1))). split.
  - apply Qle_shift_div_l; [exact N1|]. rewrite Qmult_0_l. exact L.
  - apply Qle_shift_div_r; [exact N1|].
    apply Qle_trans with (inject_Z n * (b * b)); [lra|].
    rewrite (pow2_nonneg_Z (2 * 1001)) by lia. unfold b.
    rewrite <- !inject_Z_mult, <- Zle_Qle. unfold magnitude_bound.
    replace (2 ^ (2 * 1001))%Z with (4 * (2 ^ 1000 * 2 ^ 1000))%Z
      by (rewrite <- Z.pow_add_r by lia; change 4%Z with (2 ^ 2)%Z;
          rewrite <- Z.pow_add_r by lia; reflexivity).
    assert (P : (0 < 2 ^ 1000 * 2 ^ 1000)%Z)
      by (apply Z.mul_pos_pos; apply Z.pow_pos_nonneg; lia).
    set (p := (2 ^ 1000 * 2 ^ 1000)%Z) in *. nia.
Qed.

End VarianceFacts.

Lemma statistics_mean_nonneg (data : list Z) :
  data <> [] ->
  Forall (fun x => 0 <= x <= magnitude_bound) data ->
  exists m, statistics_mean data = Ok m /\ 0 <= py_round m.
Proof.
  intros NE H. unfold statistics_mean.
  destruct data as [|x l] eqn:E; [contradiction|]. rewrite <- E in *.
  assert (N : 0 < Z.of_nat (List.length data)) by (rewrite E; simpl; lia).
  destruct (py_sum_bounds magnitude_bound data H) as (S0 & S1).
  set (n := Z.of_nat (List.length data)) in *.
  destruct (py_sum data mod n =? 0).
  - exists (PInt (py_sum data / n)). split; [reflexivity|].
    simpl. apply Z.div_pos; lia.
  - assert (Npos : (0 < inject_Z n)%Q).
    { change (inject_Z 0 < inject_Z n)%Q. rewrite <- Zlt_Qlt. exact N. }
    assert (Q0 : (0 <= inject_Z (py_sum data) / inject_Z n)%Q).
    { apply Qle_shift_div_l; [exact Npos|]. rewrite Qmult_0_l.
      change (inject_Z 0 <= inject_Z (py_sum data))%Q. rewrite <- Zle_Qle. exact S0. }
    assert (Q1 : (inject_Z (py_sum data) / inject_Z n <= pow2 1000)%Q).
    { apply Qle_shift_div_r; [exact Npos|].
      rewrite (pow2_nonneg_Z 1000) by lia. rewrite <- inject_Z_mult, <- Zle_Qle.
      exact S1. }
    destruct (float_of_Q_bounded _ 1000 Q0 Q1 ltac:(lia)) as (v & Ev & V0 & _).
    rewrite Ev. cbn [bind]. exists (PFloat v). split; [reflexivity|].
    simpl. apply round_half_even_nonneg. exact V0.
Qed.

Lemma rounded_stdev_nonneg (data : list Z) :
  Forall (fun x => 0 <= x <= magnitude_bound) data ->
  exists stddev,
    (if 1 <? Z.of_nat (List.length data)
     then s <- statistics_stdev data ;; Ok (py_round s)
     else Ok 0) = Ok stddev /\ 0 <= stddev.
Proof.
  intros H. destruct (Z.ltb_spec 1 (Z.of_nat (List.length data))) as [L|L].
  - unfold statistics_stdev.
    destruct (Z.ltb_spec (Z.of_nat (List.length data)) 2); [lia|].
    destruct (sample_variance_bounds data ltac:(lia) H) as (V0 & V1).
    destruct (float_sqrt_of_Q_bounded _ 1001 V0 V1 ltac:(lia)) as (s & Es & S0 & _).
    rewrite Es. cbn [bind py_round]. exists (round_half_even s).
    split; [reflexivity|]. apply round_half_even_nonneg. exact S0.
  - exists 0. split; [reflexivity | lia].
Qed.

(** For at least one group and change magnitudes that are not negative
    (and at most 2 ** 1000), the range estimator returns numbers with
    [0 <= lower <= mean <= upper], [lower] and [upper] at the same
    distance from the mean unless [lower] is cut at 0. *)
Theorem get_stddev_range_ordered (groups : dict string Group.t) :
  groups <> [] ->
  Forall (fun g => 0 <= Group.change g <= magnitude_bound) (values groups) ->
  exists mean lower upper,
    get_stddev_range groups = Ok (Some mean, Some lower, Some upper) /\
    0 <= lower /\ lower <= mean /\ mean <= upper /\
    lower = Z.max (2 * mean - upper) 0.
Proof.
  intros NE H. unfold get_stddev_range, list_map.
  set (changes := map Group.change (values groups)).
  assert (C : Forall (fun x => 0 <= x <= magnitude_bound) changes).
  { unfold changes. apply Forall_map. exact H. }
  assert (CN : changes <> []).
  { unfold changes, values. destruct groups; [contradiction | discriminate]. }
  destruct (statistics_mean_nonneg changes CN C) as (m & Em & M0).
  destruct (rounded_stdev_nonneg changes C) as (stddev & Es & S0).
  destruct changes as [|x l] eqn:E; [contradiction|]. rewrite <- E in *.
  rewrite Em. cbn [bind]. rewrite Es. cbn [bind py_round].
  exists (py_round m), (Z.max (py_round m - stddev) 0), (py_round m + stddev).
  split; [reflexivity|]. lia.
Qed.

Lemma get_stddev_range_ordered_witness :
  scenario_groups <> [] /\
  Forall (fun g => 0 <= Group.change g <= magnitude_bound)
    (values scenario_groups) /\
  exists mean lower upper,
    get_stddev_range scenario_groups = Ok (Some mean, Some lower, Some upper) /\
    0 <= lower /\ lower <= mean /\ mean <= upper /\
    lower = Z.max (2 * mean - upper) 0.
Proof.
  assert (NE : scenario_groups <> []) by discriminate.
  assert (H : Forall (fun g => 0 <= Group.change g <= magnitude_bound)
                (values scenario_groups)).
  { repeat constructor; vm_compute; discriminate. }
  split; [exact NE|]. split; [exact H|].
  exact (get_stddev_range_ordered scenario_groups NE H).
Defined.

(** ** Daily buckets *)

Lemma bucketed_step (days : dict pydate Day.t) (done : list Commit.t)
    (commit : Commit.t) :
  bucketed days done ->
  exists days',
    Day.add_commit days commit = Ok days' /\
    bucketed days' (done ++ [commit])%list.
Proof.
  intros (ND & Cov & G). unfold Day.add_commit, bucketed. fold (date_of commit).
  unfold pydate in *.
  set (date := date_of commit).
  assert (Old : forall days0 k d0, In (k, d0) days0 ->
            (forall k d, In (k, d) days0 -> In (k, d) days) ->
            k <> date ->
            Day.date d0 = k /\
            Day.commits d0 =
              filter (fun c => Z.eqb (date_of c) k) (done ++ [commit])%list /\
            Day.commits d0 <> [] /\ Day.score d0 = 0).
  { intros days0 k d0 I Sub Ne. destruct (G k d0 (Sub _ _ I)) as (N0 & C0 & E0 & S0).
    rewrite filter_snoc. fold date.
    destruct (Z.eqb_spec date k) as [C|_]; [congruence|].
    rewrite app_nil_r. auto. }
  destruct (dict_mem Z.eqb date days) eqn:M.
  - apply (dict_mem_true _ Z.eqb_eq) in M.
    destruct (dict_present _ Z.eqb_eq date days M)
      as (d1 & g & d2 & Ed & Nin & Eg & Es).
    rewrite Eg. cbn [bind]. rewrite Es. eexists. split; [reflexivity|].
    assert (K : keys (d1 ++ (date, Day.mk (Day.date g) (Day.commits g ++ [commit]) (Day.score g)) :: d2)%list
                = keys days).
    { rewrite Ed, !keys_app. reflexivity. }
    unfold pydate in *. split; [rewrite K; exact ND|]. split.
    + intros c I. rewrite K. apply in_app_or in I. destruct I as [I|[<-|[]]].
      * apply Cov. exact I.
      * exact M.
    + intros k d I. apply in_app_or in I. simpl in I.
      rewrite Ed, keys_app in ND. simpl in ND.
      destruct I as [I|[I|I]].
      * apply (Old days k d); [rewrite Ed; apply in_or_app; left; exact I | auto |].
        intros ->. apply Nin. apply in_map_iff. exists (date, d). auto.
      * injection I as <- <-. simpl.
        destruct (G date g) as (N0 & C0 & E0 & S0);
          [rewrite Ed; apply in_or_app; right; left; reflexivity|].
        rewrite filter_snoc. fold date. rewrite Z.eqb_refl, C0.
        split; [exact N0|]. split; [reflexivity|]. split; [|exact S0].
        intros C. apply app_eq_nil in C. destruct C as [_ C]. discriminate C.
      * apply (Old days k d); [rewrite Ed; apply in_or_app; right; right; exact I | auto |].
        intros ->. apply NoDup_remove_2 in ND. apply ND.
        apply in_or_app. right. apply in_map_iff. exists (date, d). auto.
  - apply (dict_mem_false _ Z.eqb_eq) in M.
    rewrite (dict_set_absent _ Z.eqb_eq date _ days M).
    rewrite (dict_get_absent_app _ Z.eqb_eq date _ days M). cbn [bind].
    rewrite (dict_set_last _ Z.eqb_eq date _ _ days M).
    eexists. split; [reflexivity|]. split; [|split].
    + rewrite keys_app. simpl.
      apply Permutation_NoDup with (date :: keys days)%list.
      * apply Permutation_cons_append.
      * constructor; assumption.
    + intros c I. rewrite keys_app. apply in_or_app.
      apply in_app_or in I. destruct I as [I|[<-|[]]].
      * left. apply Cov. exact I.
      * right. left. reflexivity.
    + intros k d I. apply in_app_or in I. simpl in I. destruct I as [I|[I|[]]].
      * apply (Old days k d I); [auto|].
        intros ->. apply M. apply in_map_iff. exists (date, d). auto.
      * injection I as <- <-. cbn [Day.new Day.date Day.commits Day.score app].
        rewrite filter_snoc. fold date. rewrite Z.eqb_refl.
        split; [reflexivity|]. split; [|split; [discriminate | reflexivity]].
        assert (F : filter (fun c => Z.eqb (date_of c) date) done = []).
        { destruct (filter (fun c => Z.eqb (date_of c) date) done)
            as [|c0 l] eqn:F; [reflexivity|]. exfalso.
          assert (I0 : In c0 (filter (fun c => Z.eqb (date_of c) date) done))
            by (rewrite F; left; reflexivity).
          apply filter_In in I0. destruct I0 as (I0 & W).
          apply Z.eqb_eq in W. apply M. rewrite <- W. apply Cov. exact I0. }
        rewrite F. reflexivity.
Qed.

Lemma StronglySorted_lt_NoDup (l : list Z) : StronglySorted Z.lt l -> NoDup l.
Proof.
  induction 1 as [|x l S IH F]; constructor; [|exact IH].
  intros I. rewrite Forall_forall in F. specialize (F x I). lia.
Qed.

(** [from_commits] on commits made before the last day of the calendar:
    the days returned are exactly the dates from the first to the last
    day with a commit, each once; the bucket of a date holds the commits
    of that date, in the order of the input (none for a day without
    commits), and has score 0. *)
Theorem from_commits_days (commits : list Commit.t) :
  Forall (fun c => 1 <= date_of c < date_max) commits ->
  exists days,
    Day.from_commits commits = Some (Ok days) /\
    NoDup (keys days) /\
    (forall k, In k (keys days) <->
       exists c1 c2, In c1 commits /\ In c2 commits /\
                     date_of c1 <= k <= date_of c2) /\
    forall k d, In (k, d) days ->
      Day.date d = k /\
      Day.commits d = filter (fun c => Z.eqb (date_of c) k) commits /\
      Day.score d = 0.
Proof.
  intros V. unfold Day.from_commits.
  destruct (for_each_invariant Day.add_commit bucketed bucketed_step commits [] [])
    as (days & E & ND & Cov & G).
  { split; [constructor|]. split; [intros c []|]. intros k d []. }
  simpl in Cov, G. rewrite E.
  assert (Dates : forall k, In k (keys days) ->
            exists c, In c commits /\ date_of c = k).
  { intros k I. apply in_map_iff in I. destruct I as ((k' & d) & <- & I).
    destruct (G k' d I) as (_ & C & NE & _).
    destruct (Day.commits d) as [|c l] eqn:Ec; [contradiction|].
    assert (Ic : In c (filter (fun c => Z.eqb (date_of c) k') commits))
      by (rewrite <- C; left; reflexivity).
    apply filter_In in Ic. destruct Ic as (Ic & W). apply Z.eqb_eq in W.
    exists c. auto. }
  destruct commits as [|c0 rest] eqn:Ecs.
  { destruct days as [|[k d] days].
    - exists []. split; [reflexivity|]. split; [constructor|]. split.
      + intros k. split; [intros [] | intros (c1 & _ & [] & _)].
      + intros k d [].
    - destruct (Dates k (or_introl eq_refl)) as (c & [] & _). }
  rewrite <- Ecs in *.
  assert (NE : days <> []).
  { intros ->. apply (Cov c0). rewrite Ecs. left. reflexivity. }
  assert (VK : Forall (fun k => 1 <= k < date_max) (keys days)).
  { apply Forall_forall. intros k I. destruct (Dates k I) as (c & Ic & <-).
    rewrite Forall_forall in V. apply V. exact Ic. }
  destruct (fill_missing_dates_spec days NE VK) as (lo & hi & Ilo & Ihi & B & F).
  rewrite F. eexists. split; [reflexivity|]. split; [|split].
  - rewrite keys_app, keys_empty_days. apply NoDup_app; [exact ND | |].
    + apply StronglySorted_lt_NoDup. apply StronglySorted_filter, date_range_sorted.
    + intros k I M. apply missing_dates_spec in M. tauto.
  - intros k. rewrite keys_app, in_app_iff, keys_empty_days, missing_dates_spec.
    split.
    + intros I. assert (R : lo <= k <= hi) by (destruct I as [I|(_ & I)]; [apply B; exact I | exact I]).
      destruct (Dates lo Ilo) as (c1 & I1 & E1).
      destruct (Dates hi Ihi) as (c2 & I2 & E2).
      exists c1, c2. rewrite E1, E2. auto.
    + intros (c1 & c2 & I1 & I2 & R).
      pose proof (B _ (Cov c1 I1)). pose proof (B _ (Cov c2 I2)).
      destruct (in_dec Z.eq_dec k (keys days)); [left; assumption|].
      right. split; [assumption | lia].
  - intros k d I. apply in_app_or in I. destruct I as [I|I].
    + destruct (G k d I) as (A1 & A2 & _ & A4). auto.
    + unfold empty_days in I. apply in_map_iff in I.
      destruct I as (k' & [= <- <-] & M). apply missing_dates_spec in M.
      cbn [Day.new Day.date Day.commits Day.score].
      split; [reflexivity|]. split; [|reflexivity].
      destruct (filter (fun c => Z.eqb (date_of c) k') commits) as [|c l] eqn:Fc;
        [reflexivity|]. exfalso.
      assert (Ic : In c (filter (fun c => Z.eqb (date_of c) k') commits))
        by (rewrite Fc; left; reflexivity).
      apply filter_In in Ic. destruct Ic as (Ic & W). apply Z.eqb_eq in W.
      destruct M as (M & _). apply M. rewrite <- W. apply Cov. exact Ic.
Qed.

Lemma from_commits_days_witness :
  Forall (fun c => 1 <= date_of c < date_max) sparse_commits /\
  exists days,
    Day.from_commits sparse_commits = Some (Ok days) /\
    NoDup (keys days) /\
    (forall k, In k (keys days) <->
       exists c1 c2, In c1 sparse_commits /\ In c2 sparse_commits /\
                     date_of c1 <= k <= date_of c2) /\
    forall k d, In (k, d) days ->
      Day.date d = k /\
      Day.commits d = filter (fun c => Z.eqb (date_of c) k) sparse_commits /\
      Day.score d = 0.
Proof.
  assert (V : Forall (fun c => 1 <= date_of c < date_max) sparse_commits).
  { repeat constructor; vm_compute; discriminate. }
  split; [exact V | exact (from_commits_days sparse_commits V)].
Defined.

(** ** Authors and their commit counts *)

Lemma distinct_NoDup (l : list string) : NoDup (distinct l).
Proof.
  induction l as [|x l IH]; simpl; constructor.
  - rewrite filter_In, negb_true_iff, String.eqb_neq. tauto.
  - apply NoDup_filter. exact IH.
Qed.

Lemma dict_get_tabulated {V : Type} (f : string -> V) (l : list string)
    (a : string) :
  In a l -> dict_get String.eqb a (map (fun x => (x, f x)) l) = Ok (f a).
Proof.
  induction l as [|x l IH]; simpl; [contradiction|]. intros I.
  destruct (String.eqb_spec x a) as [->|N]; [reflexivity|].
  destruct I as [I|I]; [contradiction | exact (IH I)].
Qed.

Lemma dict_set_tabulated {V : Type} (f : string -> V) (l : list string)
    (a : string) (v : V) :
  In a l -> NoDup l ->
  dict_set String.eqb a v (map (fun x => (x, f x)) l) =
  map (fun x => (x, if String.eqb x a then v else f x)) l.
Proof.
  induction l as [|x l IH]; simpl; [contradiction|]. intros I ND.
  inversion ND as [|x' l' Nin ND']; subst.
  destruct (String.eqb_spec x a) as [->|N].
  - f_equal. apply map_ext_in. intros y Iy.
    destruct (String.eqb_spec y a) as [->|_]; [contradiction | reflexivity].
  - f_equal. destruct I as [I|I]; [contradiction|]. exact (IH I ND').
Qed.

Lemma keys_tabulated {V : Type} (f : string -> V) (l : list string) :
  keys (map (fun x => (x, f x)) l) = l.
Proof. unfold keys. rewrite map_map. simpl. apply map_id. Qed.

Lemma author_count_snoc (done : list Commit.t) (commit : Commit.t) (a : string) :
  author_count (done ++ [commit]) a =
  author_count done a + (if String.eqb (Commit.author commit) a then 1 else 0).
Proof.
  unfold author_count. rewrite filter_snoc.
  destruct (String.eqb (Commit.author commit) a);
    rewrite length_app; simpl; lia.
Qed.

Lemma author_count_absent (done : list Commit.t) (a : string) :
  ~ In a (map Commit.author done) -> author_count done a = 0.
Proof.
  intros N. unfold author_count.
  destruct (filter (fun c => String.eqb (Commit.author c) a) done) as [|c l] eqn:F;
    [reflexivity|]. exfalso.
  assert (I : In c (filter (fun c => String.eqb (Commit.author c) a) done))
    by (rewrite F; left; reflexivity).
  apply filter_In in I. destruct I as (I & E). apply String.eqb_eq in E.
  apply N. rewrite <- E. apply in_map. exact I.
Qed.

Lemma authors_step (authors : dict string Z) (done : list Commit.t)
    (commit : Commit.t) :
  authors = counted_authors done ->
  exists authors',
    (let authors :=
       if dict_mem String.eqb (Commit.author commit) authors then authors
       else dict_set String.eqb (Commit.author commit) 0 authors in
     n <- dict_get String.eqb (Commit.author commit) authors ;;
     Ok (dict_set String.eqb (Commit.author commit) (n + 1) authors))
    = Ok authors' /\
    authors' = counted_authors (done ++ [commit])%list.
Proof.
  intros ->. cbv zeta. set (a := Commit.author commit).
  unfold counted_authors. rewrite map_app. cbn [map]. fold a.
  rewrite distinct_snoc.
  set (l := distinct (map Commit.author done)).
  assert (Ext : map (fun x => (x, author_count (done ++ [commit]) x))
                  (filter (fun y => negb (String.eqb y a)) l) =
                map (fun x => (x, author_count done x))
                  (filter (fun y => negb (String.eqb y a)) l)).
  { apply map_ext_in. intros x I. apply filter_In in I. destruct I as (_ & N).
    rewrite author_count_snoc. fold a. rewrite String.eqb_sym.
    apply negb_true_iff in N. rewrite N. f_equal. lia. }
  destruct (dict_mem String.eqb a (map (fun x => (x, author_count done x)) l)) eqn:M.
  - apply (dict_mem_true _ String.eqb_eq) in M. rewrite keys_tabulated in M.
    rewrite (dict_get_tabulated _ l a M). cbn [bind].
    rewrite (dict_set_tabulated _ l a _ M (distinct_NoDup _)).
    eexists. split; [reflexivity|].
    destruct (in_dec string_dec a (map Commit.author done)) as [I|N].
    + apply map_ext. intros x. rewrite author_count_snoc. fold a.
      rewrite (String.eqb_sym a x).
      destruct (String.eqb_spec x a) as [->|_]; [reflexivity | f_equal; lia].
    + exfalso. apply N. apply distinct_in. exact M.
  - apply (dict_mem_false _ String.eqb_eq) in M. rewrite keys_tabulated in M.
    assert (M' : ~ In a (keys (map (fun x => (x, author_count done x)) l)))
      by (rewrite keys_tabulated; exact M).
    rewrite (dict_set_absent _ String.eqb_eq a _ _ M').
    rewrite (dict_get_absent_app _ String.eqb_eq a _ _ M'). cbn [bind].
    rewrite (dict_set_last _ String.eqb_eq a _ _ _ M').
    eexists. split; [reflexivity|].
    destruct (in_dec string_dec a (map Commit.author done)) as [I|N].
    + exfalso. apply M. apply distinct_in. exact I.
    + rewrite map_app. cbn [map]. f_equal.
      * apply map_ext_in. intros x I. rewrite author_count_snoc. fold a.
        destruct (String.eqb_spec a x) as [<-|_]; [contradiction | f_equal; lia].
      * rewrite author_count_snoc, (author_count_absent done a N). fold a.
        rewrite String.eqb_refl. reflexivity.
Qed.

Lemma insert_by_count_permutation (x : string * Z) (l : list (string * Z)) :
  Permutation (insert_by_count x l) (x :: l).
Proof.
  induction l as [|y l IH]; simpl; [apply Permutation_refl|].
  destruct (snd x <? snd y); [|apply Permutation_refl].
  apply Permutation_trans with (y :: x :: l);
    [apply perm_skip; exact IH | apply perm_swap].
Qed.

Lemma sorted_by_count_permutation (l : list (string * Z)) :
  Permutation (sorted_by_count l) l.
Proof.
  induction l as [|x l IH]; simpl; [constructor|].
  apply Permutation_trans with (x :: sorted_by_count l);
    [apply insert_by_count_permutation | apply perm_skip; exact IH].
Qed.

Lemma insert_by_count_sorted (x : string * Z) (l : list (string * Z)) :
  StronglySorted (fun p q => snd q <= snd p) l ->
  StronglySorted (fun p q => snd q <= snd p) (insert_by_count x l).
Proof.
  induction 1 as [|y l S IH F]; simpl; [repeat constructor|].
  destruct (Z.ltb_spec (snd x) (snd y)) as [L|L].
  - constructor; [exact IH|].
    apply Forall_forall. intros z I.
    apply (Permutation_in _ (insert_by_count_permutation x l)) in I.
    destruct I as [<-|I]; [lia|]. rewrite Forall_forall in F. apply F. exact I.
  - constructor; [constructor; assumption|].
    constructor; [exact L|]. apply Forall_forall. intros z I.
    rewrite Forall_forall in F. specialize (F z I). lia.
Qed.

Lemma sorted_by_count_sorted (l : list (string * Z)) :
  StronglySorted (fun p q => snd q <= snd p) (sorted_by_count l).
Proof.
  induction l as [|x l IH]; simpl; [constructor|].
  apply insert_by_count_sorted. exact IH.
Qed.

Lemma get_authors_sorted_counted (commits : list Commit.t) :
  get_authors commits = Ok (sorted_by_count (counted_authors commits)).
Proof.
  unfold get_authors, list_reduce.
  match goal with
  | |- (a <- for_each _ ?body [] ;; _) = _ =>
      destruct (for_each_invariant body
                  (fun authors done => authors = counted_authors done)
                  authors_step commits [] []) as (authors & E & ->);
        [reflexivity|]
  end.
  simpl in E. rewrite E. reflexivity.
Qed.

(** [get_authors] returns every author of the commits once, with the
    number of that author's commits, by descending count. *)
Theorem get_authors_counts (commits : list Commit.t) :
  exists authors,
    get_authors commits = Ok authors /\
    NoDup (keys authors) /\
    (forall a, In a (keys authors) <-> In a (map Commit.author commits)) /\
    (forall a n, In (a, n) authors -> n = author_count commits a) /\
    StronglySorted (fun p q => snd q <= snd p) authors.
Proof.
  exists (sorted_by_count (counted_authors commits)).
  split; [apply get_authors_sorted_counted|].
  pose proof (sorted_by_count_permutation (counted_authors commits)) as P.
  assert (K : Permutation (keys (sorted_by_count (counted_authors commits)))
                          (distinct (map Commit.author commits))).
  { unfold keys at 1. rewrite (Permutation_map fst P).
    fold (keys (counted_authors commits)). unfold counted_authors.
    rewrite keys_tabulated. apply Permutation_refl. }
  split; [|split; [|split]].
  - apply (Permutation_NoDup (Permutation_sym K)). apply distinct_NoDup.
  - intros a. rewrite <- (distinct_in (map Commit.author commits)). split; intros I.
    + apply (Permutation_in _ K). exact I.
    + apply (Permutation_in _ (Permutation_sym K)). exact I.
  - intros a n I. apply (Permutation_in _ P) in I.
    unfold counted_authors in I. apply in_map_iff in I.
    destruct I as (x & [= <- <-] & _). reflexivity.
  - apply sorted_by_count_sorted.
Qed.

Lemma py_sum_map_add {A : Type} (f g : A -> Z) (l : list A) :
  py_sum (map (fun a => f a + g a) l) = py_sum (map f l) + py_sum (map g l).
Proof.
  induction l as [|x l IH]; simpl; [reflexivity|].
  rewrite !py_sum_cons, IH. lia.
Qed.

Lemma py_sum_indicator (x : string) (l : list string) :
  NoDup l ->
  py_sum (map (fun a => if String.eqb x a then 1 else 0) l) =
  if in_dec string_dec x l then 1 else 0.
Proof.
  induction 1 as [|y l Nin ND IH]; simpl; [reflexivity|].
  rewrite py_sum_cons, IH.
  destruct (String.eqb_spec x y) as [->|N].
  - destruct (string_dec y y) as [E|C]; [|contradiction].
    destruct (in_dec string_dec y l); [contradiction | reflexivity].
  - destruct (string_dec y x) as [C|NC]; [congruence|].
    destruct (in_dec string_dec x l); reflexivity.
Qed.

Lemma author_count_total (commits : list Commit.t) (l : list string) :
  NoDup l -> (forall c, In c commits -> In (Commit.author c) l) ->
  py_sum (map (author_count commits) l) = Z.of_nat (List.length commits).
Proof.
  intros ND. induction commits as [|c commits IH]; intros Cov.
  - unfold author_count. simpl. clear ND Cov. induction l as [|x l IHl]; simpl; [reflexivity|].
    rewrite py_sum_cons, IHl. reflexivity.
  - assert (E : map (author_count (c :: commits)) l =
                map (fun a => (if String.eqb (Commit.author c) a then 1 else 0) +
                              author_count commits a) l).
    { apply map_ext. intros a. unfold author_count. cbn [filter].
      destruct (String.eqb (Commit.author c) a); cbn [List.length]; lia. }
    rewrite E, py_sum_map_add, py_sum_indicator by exact ND.
    rewrite IH by (intros c' I; apply Cov; right; exact I).
    destruct (in_dec string_dec (Commit.author c) l) as [_|N].
    + cbn [List.length]. lia.
    + exfalso. apply N. apply Cov. left. reflexivity.
Qed.

(** The counts returned by [get_authors] add up to the number of
    commits. *)
Theorem get_authors_total (commits : list Commit.t) :
  exists authors,
    get_authors commits = Ok authors /\
    py_sum (values authors) = Z.of_nat (List.length commits).
Proof.
  exists (sorted_by_count (counted_authors commits)).
  split; [apply get_authors_sorted_counted|].
  unfold values.
  rewrite (py_sum_permutation _ _
             (Permutation_map snd (sorted_by_count_permutation _))).
  unfold counted_authors. rewrite map_map. cbn [snd].
  apply author_count_total; [apply distinct_NoDup|].
  intros c I. apply distinct_in. apply in_map. exact I.
Qed.

Lemma insert_by_count_filter (n : Z) (x : string * Z) (l : list (string * Z)) :
  filter (fun p => snd p =? n) (insert_by_count x l) =
  filter (fun p => snd p =? n) (x :: l).
Proof.
  induction l as [|y l IH]; [reflexivity|]. cbn [insert_by_count].
  destruct (Z.ltb_spec (snd x) (snd y)) as [L|L]; [|reflexivity].
  cbn [filter] in *. rewrite IH.
  destruct (Z.eqb_spec (snd x) n), (Z.eqb_spec (snd y) n); try reflexivity. lia.
Qed.

Lemma sorted_by_count_filter (n : Z) (l : list (string * Z)) :
  filter (fun p => snd p =? n) (sorted_by_count l) =
  filter (fun p => snd p =? n) l.
Proof.
  induction l as [|x l IH]; [reflexivity|]. cbn [sorted_by_count].
  rewrite insert_by_count_filter. cbn [filter]. rewrite IH. reflexivity.
Qed.

(** Authors with the same number of commits are returned in the order in
    which they first appear in the commits. *)
Theorem get_authors_ties (commits : list Commit.t) :
  exists authors,
    get_authors commits = Ok authors /\
    forall n,
      keys (filter (fun p => snd p =? n) authors) =
      filter (fun a => author_count commits a =? n)
             (distinct (map Commit.author commits)).
Proof.
  exists (sorted_by_count (counted_authors commits)).
  split; [apply get_authors_sorted_counted|]. intros n.
  rewrite sorted_by_count_filter. unfold counted_authors, keys.
  induction (distinct (map Commit.author commits)) as [|a l IH];
    [reflexivity|].
  cbn [map filter snd]. destruct (author_count commits a =? n); cbn [map fst];
    rewrite IH; reflexivity.
Qed.

(** ** The visualizer, end to end *)

Lemma filter_by_authors_nil (commits : list Commit.t) :
  filter_by_authors commits [] = [].
Proof.
  unfold filter_by_authors, list_filter, list_map. simpl.
  induction commits as [|c commits IH]; simpl; [reflexivity | exact IH].
Qed.

(** Run without author names, the visualizer writes an empty bars file for
    every commits file that it can load. *)
Theorem visualize_main_no_authors (linesep file : string)
    (commits : list Commit.t) :
  Commit.from_csv_file file = Ok commits ->
  visualize_main linesep file [] = Return "".
Proof.
  intros E. unfold visualize_main. rewrite E. cbn [outcome_of outcome_bind].
  rewrite get_authors_sorted_counted. cbn [outcome_of outcome_bind].
  rewrite filter_by_authors_nil. reflexivity.
Qed.

Lemma visualize_main_no_authors_witness :
  Commit.from_csv_file (save_commits posix_linesep scenario_commits) =
    Ok scenario_commits /\
  visualize_main posix_linesep (save_commits posix_linesep scenario_commits) [] =
    Return "".
Proof.
  assert (E : Commit.from_csv_file (save_commits posix_linesep scenario_commits) =
              Ok scenario_commits) by (vm_compute; reflexivity).
  split; [exact E | exact (visualize_main_no_authors _ _ _ E)].
Defined.

Lemma group_by_week_grouped_keys (commits : list Commit.t) :
  exists groups,
    group_by_week commits = Ok groups /\ grouped groups commits /\
    keys groups = distinct (map week_of commits).
Proof.
  unfold group_by_week, list_reduce.
  match goal with
  | |- exists groups, for_each _ ?body [] = Ok groups /\ _ =>
      destruct (for_each_invariant body
        (fun groups done =>
           grouped groups done /\ keys groups = distinct (map week_of done)))
        with (l := commits) (acc := @nil (string * Group.t)) (done := @nil Commit.t)
        as (groups & E & G & K)
  end.
  - intros groups done commit (G & K).
    destruct (grouped_step groups done commit G) as (groups' & E & G').
    exists groups'. split; [exact E|]. split; [exact G'|].
    rewrite (week_update_keys groups groups' commit E).
    rewrite map_app. simpl. rewrite distinct_snoc, K.
    destruct (in_dec string_dec (week_of commit) (distinct (map week_of done)))
      as [I|N];
      destruct (in_dec string_dec (week_of commit) (map week_of done))
      as [I'|N']; try reflexivity.
    + exfalso. apply N'. apply distinct_in. exact I.
    + exfalso. apply N. apply distinct_in. exact I'.
  - split; [|reflexivity].
    split; [constructor|]. split; [apply Permutation_refl|]. intros k g [].
  - exists groups. split; [exact E|]. split; [exact G | exact K].
Qed.

Lemma py_sum_filter_bounds {A : Type} (f : A -> Z) (p : A -> bool) (l : list A) :
  Forall (fun x => 0 <= f x) l ->
  0 <= py_sum (map f (filter p l)) <= py_sum (map f l).
Proof.
  induction 1 as [|x l Hx _ IH]; simpl; [unfold py_sum; simpl; lia|].
  destruct (p x); simpl; rewrite ?py_sum_cons; lia.
Qed.

Lemma get_stddev_range_returns (groups : dict string Group.t) :
  groups <> [] ->
  Forall (fun g => 0 <= Group.change g <= magnitude_bound) (values groups) ->
  exists mean lower upper,
    get_stddev_range groups = Ok (Some mean, Some lower, Some upper).
Proof.
  intros NE H. unfold get_stddev_range, list_map.
  set (changes := map Group.change (values groups)).
  assert (C : Forall (fun x => 0 <= x <= magnitude_bound) changes).
  { unfold changes. apply Forall_map. exact H. }
  assert (CN : changes <> []).
  { unfold changes, values. destruct groups; [contradiction | discriminate]. }
  destruct (statistics_mean_nonneg changes CN C) as (m & Em & M0).
  destruct (rounded_stdev_nonneg changes C) as (stddev & Es & S0).
  destruct changes as [|x l] eqn:E; [contradiction|]. rewrite <- E in *.
  rewrite Em. cbn [bind]. rewrite Es. cbn [bind py_round].
  eexists _, _, _. reflexivity.
Qed.

Lemma for_each_outcome_invariant_in {A B : Type} (body : B -> A -> outcome B)
    (I : B -> list A -> Prop) (l : list A) :
  (forall acc done x, In x l -> I acc done ->
     exists acc', body acc x = Return acc' /\ I acc' (done ++ [x])%list) ->
  forall acc, I acc [] ->
    exists acc', for_each_outcome l body acc = Return acc' /\ I acc' l.
Proof.
  intros Step.
  assert (G : forall l' acc done, incl l' l -> I acc done ->
            exists acc', for_each_outcome l' body acc = Return acc' /\
                         I acc' (done ++ l')%list).
  { induction l' as [|x l' IH]; intros acc done Incl H.
    - exists acc. rewrite app_nil_r. split; [reflexivity | exact H].
    - destruct (Step acc done x (Incl x (or_introl eq_refl)) H) as (acc' & E & H').
      destruct (IH acc' (done ++ [x])%list
                   (fun y Iy => Incl y (or_intror Iy)) H') as (acc'' & E' & H'').
      exists acc''. simpl. rewrite E. simpl. split; [exact E'|].
      rewrite <- app_assoc in H''. exact H''. }
  intros acc H. exact (G l acc [] (incl_refl l) H).
Qed.

Lemma get_score_any_some (g : Group.t) (lower upper : Z) :
  get_score_any g (Some lower) (Some upper) =
  outcome_of (Group.get_score g lower upper).
Proof.
  unfold get_score_any, Group.get_score.
  destruct (Group.change g <? lower); reflexivity.
Qed.

(** After a successful load, and for line counts that are not negative
    (and sum to at most 2 ** 1000), the visualizer does not fail: it writes
    one line per week of the commits of the chosen authors, in ascending
    order of the week keys, each with the lines changed in that week.
    (Text is encoded as UTF-8.) *)
Theorem visualize_main_bars (linesep file : string) (authors : list string)
    (commits : list Commit.t) :
  Commit.from_csv_file file = Ok commits ->
  Forall (fun c => 0 <= Commit.added c /\ 0 <= Commit.removed c)
    (filter_by_authors commits authors) ->
  py_sum (map Commit.added (filter_by_authors commits authors)) +
  py_sum (map Commit.removed (filter_by_authors commits authors))
    <= magnitude_bound ->
  exists bars,
    visualize_main linesep file authors =
      Return (write_bars_to_file linesep bars) /\
    Forall2
      (fun week bar =>
         exists blocks,
           0 <= blocks /\
           bar = bar_line week
                   (Group.change
                      (Group.mk week
                         (filter (fun c => String.eqb (week_of c) week)
                            (filter_by_authors commits authors))))
                   default_block blocks)
      (sorted (distinct (map week_of (filter_by_authors commits authors))))
      bars.
Proof.
  intros E N B. unfold visualize_main. rewrite E. cbn [outcome_of outcome_bind].
  rewrite get_authors_sorted_counted. cbn [outcome_of outcome_bind].
  set (kept := filter_by_authors commits authors) in *.
  destruct (group_by_week_grouped_keys kept) as (groups & Eg & (ND & P & Gs) & K).
  rewrite Eg. cbn [outcome_of outcome_bind]. rewrite <- K.
  assert (Nadd : Forall (fun c => 0 <= Commit.added c) kept).
  { eapply Forall_impl; [|exact N]. intros c H. apply H. }
  assert (Nrem : Forall (fun c => 0 <= Commit.removed c) kept).
  { eapply Forall_impl; [|exact N]. intros c H. apply H. }
  assert (C : Forall (fun g => 0 <= Group.change g <= magnitude_bound)
                (values groups)).
  { apply Forall_forall. intros g I. unfold values in I.
    apply in_map_iff in I. destruct I as ((k & g') & <- & I). simpl.
    destruct (Gs k g' I) as (_ & Ec & _).
    unfold Group.change, Group.added, Group.removed. rewrite Ec.
    pose proof (py_sum_filter_bounds Commit.added
                  (fun c => String.eqb (week_of c) k) kept Nadd).
    pose proof (py_sum_filter_bounds Commit.removed
                  (fun c => String.eqb (week_of c) k) kept Nrem).
    lia. }
  destruct groups as [|kg groups'] eqn:Egroups.
  { exists []. split; [reflexivity | constructor]. }
  rewrite <- Egroups in *.
  destruct (get_stddev_range_returns groups) as (mean & lower & upper & Er);
    [rewrite Egroups; discriminate | exact C |].
  rewrite Er. cbn [outcome_of outcome_bind]. unfold build_bars_any.
  match goal with
  | |- exists bars, outcome_bind (for_each_outcome ?l ?body []) _ = _ /\ _ =>
      destruct (for_each_outcome_invariant_in body
        (fun bars done =>
           Forall2
             (fun week bar =>
                exists blocks,
                  0 <= blocks /\
                  bar = bar_line week
                          (Group.change
                             (Group.mk week
                                (filter (fun c => String.eqb (week_of c) week)
                                   kept)))
                          default_block blocks)
             done bars) l) with (acc := @nil string) as (bars & Eb & F)
  end.
  - intros bars done key I F.
    apply (Permutation_in _ (sorted_permutation (keys groups))) in I.
    destruct (dict_present _ String.eqb_eq key groups I)
      as (d1 & g & d2 & Ed & _ & Eget & _).
    assert (Ig : In (key, g) groups).
    { rewrite Ed. apply in_or_app. right. left. reflexivity. }
    destruct (Gs key g Ig) as (Nm & Ec & _).
    destruct (get_score_cases g lower upper) as (score & Es & S0 & S1 & _).
    destruct (py_mul_int_unit score S0 S1) as (scaled & Em & M0 & Ei).
    rewrite Eget. cbn [outcome_of outcome_bind].
    rewrite get_score_any_some, Es. cbn [outcome_of outcome_bind].
    unfold default_width. rewrite Em. cbn [outcome_of outcome_bind].
    eexists. split; [reflexivity|].
    apply Forall2_app; [exact F|]. constructor; [|constructor].
    exists (Qfloor (pynum_val scaled)). split.
    + change 0 with (Qfloor (inject_Z 0)). apply Qfloor_resp_le. exact M0.
    + rewrite Ei, Nm. unfold bar_line, left_justified. cbn [append].
      rewrite !append_assoc.
      replace (Group.change (Group.mk key
                 (filter (fun c => String.eqb (week_of c) key) kept)))
        with (Group.change g); [reflexivity|].
      unfold Group.change, Group.added, Group.removed. rewrite Ec. reflexivity.
  - constructor.
  - exists bars. rewrite Eb. cbn [outcome_bind]. split; [reflexivity | exact F].
Qed.

Lemma visualize_main_bars_witness :
  Commit.from_csv_file (save_commits posix_linesep scenario_commits) =
    Ok scenario_commits /\
  Forall (fun c => 0 <= Commit.added c /\ 0 <= Commit.removed c)
    (filter_by_authors scenario_commits ["Alice "]) /\
  py_sum (map Commit.added (filter_by_authors scenario_commits ["Alice "])) +
  py_sum (map Commit.removed (filter_by_authors scenario_commits ["Alice "]))
    <= magnitude_bound /\
  exists bars,
    visualize_main posix_linesep (save_commits posix_linesep scenario_commits)
      ["Alice "] = Return (write_bars_to_file posix_linesep bars) /\
    Forall2
      (fun week bar =>
         exists blocks,
           0 <= blocks /\
           bar = bar_line week
                   (Group.change
                      (Group.mk week
                         (filter (fun c => String.eqb (week_of c) week)
                            (filter_by_authors scenario_commits ["Alice "]))))
                   default_block blocks)
      (sorted (distinct (map week_of
                 (filter_by_authors scenario_commits ["Alice "]))))
      bars.
Proof.
  assert (E : Commit.from_csv_file (save_commits posix_linesep scenario_commits) =
              Ok scenario_commits) by (vm_compute; reflexivity).
  assert (N : Forall (fun c => 0 <= Commit.added c /\ 0 <= Commit.removed c)
                (filter_by_authors scenario_commits ["Alice "])).
  { repeat constructor; vm_compute; discriminate. }
  assert (B : py_sum (map Commit.added
                        (filter_by_authors scenario_commits ["Alice "])) +
              py_sum (map Commit.removed
                        (filter_by_authors scenario_commits ["Alice "]))
                <= magnitude_bound).
  { vm_compute. discriminate. }
  split; [exact E|]. split; [exact N|]. split; [exact B|].
  exact (visualize_main_bars posix_linesep _ ["Alice "] _ E N B).
Defined.

Example visualize_main_scenario :
  visualize_main posix_linesep (save_commits posix_linesep scenario_commits)
    ["Alice "] =
  Return (bar_line "2024-01" 30 default_block 7 ++
          bar_line "2024-03" 100 default_block 42).
Proof. vm_compute. reflexivity. Qed.

(** ** Numbers and timestamps written and read back *)

Lemma digit_of_not_space (c : ascii) (d : Z) :
  digit_of c = Some d -> is_space c = false.
Proof.
  unfold digit_of, is_space. intros H.
  destruct ((48 <=? nat_of_ascii c)%nat && (nat_of_ascii c <=? 57)%nat) eqn:E;
    [|discriminate].
  apply andb_true_iff in E. destruct E as (A & B).
  apply Nat.leb_le in A. apply Nat.leb_le in B.
  destruct (Nat.leb_spec 9 (nat_of_ascii c)); destruct (Nat.leb_spec (nat_of_ascii c) 13);
    destruct (Nat.leb_spec 28 (nat_of_ascii c)); destruct (Nat.leb_spec (nat_of_ascii c) 32);
    simpl; try reflexivity; lia.
Qed.

Lemma all_digits_uint (d : Decimal.uint) :
  all_digits (NilEmpty.string_of_uint d) = true.
Proof. induction d; simpl; auto. Qed.

Lemma all_digits_app (a b : string) :
  all_digits (a ++ b) = all_digits a && all_digits b.
Proof.
  induction a as [|c a IH]; simpl; [reflexivity|].
  destruct (digit_of c); [exact IH | reflexivity].
Qed.

Lemma rstrip_digits (s : string) : all_digits s = true -> rstrip s = s.
Proof.
  induction s as [|c s IH]; simpl; [reflexivity|].
  destruct (digit_of c) as [d|] eqn:D; [|discriminate]. intros A.
  rewrite (IH A). rewrite (digit_of_not_space c d D).
  destruct s; reflexivity.
Qed.

Lemma lstrip_digits (s : string) : all_digits s = true -> lstrip s = s.
Proof.
  destruct s as [|c s]; simpl; [reflexivity|].
  destruct (digit_of c) as [d|] eqn:D; [|discriminate]. intros _.
  rewrite (digit_of_not_space c d D). reflexivity.
Qed.

Lemma parse_digits_uint_acc (d : Decimal.uint) (p : positive) :
  parse_digits (NilEmpty.string_of_uint d) (Z.pos p) true =
  Some (Z.pos (Pos.of_uint_acc d p)).
Proof.
  revert p. induction d; intros p;
    cbn [NilEmpty.string_of_uint parse_digits Pos.of_uint_acc];
    [reflexivity | ..];
    match goal with
    | |- context [digit_of ?c] =>
        let v := eval vm_compute in (digit_of c) in
        change (digit_of c) with v; cbv iota
    end;
    match goal with
    | |- parse_digits _ ?a true = Some (Z.pos (Pos.of_uint_acc _ ?q)) =>
        replace a with (Z.pos q) by lia
    end; apply IHd.
Qed.

Lemma parse_digits_uint (d : Decimal.uint) (after_digit : bool) :
  d <> Decimal.Nil \/ after_digit = true ->
  parse_digits (NilEmpty.string_of_uint d) 0 after_digit =
  Some (Z.of_N (Pos.of_uint d)).
Proof.
  revert after_digit. induction d; intros b H;
    cbn [NilEmpty.string_of_uint parse_digits Pos.of_uint].
  - destruct H as [H|H]; [contradiction | rewrite H; reflexivity].
  - match goal with
    | |- context [digit_of ?c] =>
        let v := eval vm_compute in (digit_of c) in
        change (digit_of c) with v; cbv iota
    end.
    change (10 * 0 + 0) with 0. apply IHd. right. reflexivity.
  - apply (parse_digits_uint_acc d 1).
  - apply (parse_digits_uint_acc d 2).
  - apply (parse_digits_uint_acc d 3).
  - apply (parse_digits_uint_acc d 4).
  - apply (parse_digits_uint_acc d 5).
  - apply (parse_digits_uint_acc d 6).
  - apply (parse_digits_uint_acc d 7).
  - apply (parse_digits_uint_acc d 8).
  - apply (parse_digits_uint_acc d 9).
Qed.

Lemma parse_digits_pos (p : positive) (after_digit : bool) :
  parse_digits (NilEmpty.string_of_uint (Pos.to_uint p)) 0 after_digit =
  Some (Z.pos p).
Proof.
  rewrite parse_digits_uint.
  - rewrite DecimalPos.Unsigned.of_to. reflexivity.
  - left. apply Unsigned.to_uint_nonnil.
Qed.

Lemma string_of_uint_pos (p : positive) :
  NilZero.string_of_uint (Pos.to_uint p) = NilEmpty.string_of_uint (Pos.to_uint p).
Proof.
  pose proof (Unsigned.to_uint_nonnil p) as N.
  destruct (Pos.to_uint p); [contradiction | reflexivity ..].
Qed.

Lemma first_digit (d : Decimal.uint) :
  d <> Decimal.Nil ->
  exists c s k, NilEmpty.string_of_uint d = String c s /\ digit_of c = Some k.
Proof.
  destruct d; [contradiction | ..]; intros _; cbn [NilEmpty.string_of_uint];
    eexists _, _, _; (split; [reflexivity | vm_compute; reflexivity]).
Qed.

Lemma digit_of_not_sign (c : ascii) (k : Z) :
  digit_of c = Some k ->
  Ascii.eqb c minus_sign = false /\ Ascii.eqb c plus_sign = false.
Proof.
  intros D. split; apply Ascii.eqb_neq; intros ->; vm_compute in D; discriminate.
Qed.

(** [int(str(z))] is [z]. *)
Lemma py_int_of_str_str (z : Z) : py_int_of_str (py_str_int z) = Ok z.
Proof.
  unfold py_str_int, py_int_of_str. destruct z as [|p|p]; cbn [Z.to_int NilZero.string_of_int].
  - reflexivity.
  - rewrite string_of_uint_pos. unfold strip.
    rewrite lstrip_digits, rstrip_digits by apply all_digits_uint.
    destruct (first_digit (Pos.to_uint p) (Unsigned.to_uint_nonnil p))
      as (c & s & k & E & D).
    pose proof (parse_digits_pos p false) as P. rewrite E in *.
    destruct (digit_of_not_sign c k D) as (-> & ->). rewrite P. reflexivity.
  - rewrite string_of_uint_pos. unfold strip.
    cbn [lstrip]. change (is_space _) with false at 1. cbv iota.
    cbn [rstrip]. rewrite rstrip_digits by apply all_digits_uint.
    destruct (first_digit (Pos.to_uint p) (Unsigned.to_uint_nonnil p))
      as (c & s & k & E & D).
    pose proof (parse_digits_pos p false) as P. rewrite E in *.
    change (Ascii.eqb _ minus_sign) with true. cbv iota.
    rewrite P. reflexivity.
Qed.








Lemma append_empty_r (s : string) : s ++ "" = s.
Proof.
  induction s as [|c s IH]; simpl; [reflexivity | rewrite IH; reflexivity].
Qed.



(** ** The commits file, written and read back *)




Lemma has_char_app (c : ascii) (a b : string) :
  has_char c (a ++ b) = has_char c a || has_char c b.
Proof.
  induction a as [|x a IH]; simpl; [reflexivity|].
  rewrite IH, orb_assoc. reflexivity.
Qed.






















Section CsvReader.
Context {B : Type} (body : B -> list string -> result B).






End CsvReader.




Lemma fold_left_append (A : Type) (g : A -> string) (l : list A) (init : string) :
  exists rest, fold_left (fun f x => f ++ g x) l init = init ++ rest.
Proof.
  revert init. induction l as [|x l IH]; intros init; cbn [fold_left].
  - exists "". rewrite append_empty_r. reflexivity.
  - destruct (IH (init ++ g x)) as (rest & ->).
    exists (g x ++ rest). apply append_assoc.
Qed.

(** Where [os.linesep] is CR LF, [Commit.from_csv_file] raises
    [ValueError] on every file that [save_commits] has written, whatever
    the commits: the line ends are written as CR CR LF, and the empty line
    read after the header is a row of no fields. *)
Theorem windows_load_raises (commits : list Commit.t) :
  Commit.from_csv_file (save_commits windows_linesep commits) = Raise ValueError.
Proof.
  unfold save_commits.
  destruct (fold_left_append _
              (fun commit => text_write windows_linesep
                               (writerow (Commit.to_csv_row commit)))
              commits
              (text_write windows_linesep
                 (writerow [CStr "Repository"; CStr "SHA"; CStr "Timestamp";
                            CStr "Author"; CStr "Added"; CStr "Removed"])))
    as (rest & ->).
  generalize rest. clear. intros rest. reflexivity.
Qed.

(** ** Line statistics *)

Lemma py_split_not_nil (sep : ascii) (s : string) : py_split sep s <> [].
Proof.
  destruct s as [|c s]; cbn [py_split]; [discriminate|].
  destruct (Ascii.eqb c sep); [discriminate|].
  destruct (py_split sep s); discriminate.
Qed.

Lemma py_split_no_sep (sep : ascii) (s : string) :
  has_char sep s = false -> py_split sep s = [s].
Proof.
  induction s as [|c s IH]; cbn [has_char py_split]; [reflexivity|].
  intros H. apply orb_false_iff in H. destruct H as (C & H).
  rewrite C, (IH H). reflexivity.
Qed.

Lemma py_split_app (sep : ascii) (a b : string) :
  has_char sep a = false ->
  py_split sep (a ++ String sep b) = a :: py_split sep b.
Proof.
  induction a as [|c a IH]; cbn [has_char append py_split].
  - intros _. rewrite Ascii.eqb_refl. reflexivity.
  - intros H. apply orb_false_iff in H. destruct H as (C & H).
    rewrite C, (IH H). reflexivity.
Qed.

Lemma py_split_length (sep : ascii) (s : string) :
  List.length (py_split sep s) = S (count_char sep s).
Proof.
  induction s as [|c s IH]; cbn [py_split count_char]; [reflexivity|].
  destruct (Ascii.eqb c sep); cbn [List.length]; [rewrite IH; reflexivity|].
  destruct (py_split sep s) as [|p ps] eqn:E; [discriminate|]. exact IH.
Qed.

Lemma py_split_join (lines : list string) :
  lines <> [] ->
  Forall (fun line => has_char LF line = false) lines ->
  py_split LF (py_join (String LF "") lines) = lines.
Proof.
  intros NE H. induction H as [|line lines Hl H IH]; [contradiction|].
  destruct lines as [|line2 lines].
  - cbn [py_join]. apply py_split_no_sep. exact Hl.
  - change (py_join (String LF "") (line :: line2 :: lines))
      with (line ++ String LF (py_join (String LF "") (line2 :: lines))).
    rewrite (py_split_app LF _ _ Hl), IH by discriminate. reflexivity.
Qed.

Lemma all_digits_no_char (c : ascii) (s : string) :
  digit_of c = None -> all_digits s = true -> has_char c s = false.
Proof.
  intros N. induction s as [|x s IH]; simpl; [reflexivity|].
  destruct (digit_of x) as [d|] eqn:D; [|discriminate]. intros A.
  rewrite (IH A), orb_false_r. apply Ascii.eqb_neq. intros ->. congruence.
Qed.

Lemma py_str_int_nonneg (z : Z) :
  0 <= z ->
  exists c s d,
    py_str_int z = String c s /\ digit_of c = Some d /\ all_digits s = true.
Proof.
  intros H. unfold py_str_int. destruct z as [|p|p]; [| |lia];
    cbn [Z.to_int NilZero.string_of_int].
  - eexists _, _, _. split; [reflexivity|]. split; vm_compute; reflexivity.
  - rewrite string_of_uint_pos.
    destruct (first_digit (Pos.to_uint p) (Unsigned.to_uint_nonnil p))
      as (c & s & k & E & D).
    pose proof (all_digits_uint (Pos.to_uint p)) as A. rewrite E in *.
    cbn [all_digits] in A. rewrite D in A.
    exists c, s, k. split; [reflexivity|]. split; [exact D | exact A].
Qed.

Lemma count_text (n : option Z) :
  count_ok n ->
  has_char TAB (numstat_count n) = false /\
  has_char LF (numstat_count n) = false /\
  (exists c s, numstat_count n = String c s /\ is_space c = false) /\
  (if negb (String.eqb (numstat_count n) "-")
   then py_int_of_str (numstat_count n) else Ok 0) = Ok (counted n).
Proof.
  destruct n as [z|]; cbn [count_ok numstat_count counted].
  - intros (H & _). destruct (py_str_int_nonneg z H) as (c & s & d & E & D & A).
    assert (AD : all_digits (py_str_int z) = true).
    { rewrite E. cbn [all_digits]. rewrite D. exact A. }
    split; [apply all_digits_no_char; [reflexivity | exact AD]|].
    split; [apply all_digits_no_char; [reflexivity | exact AD]|].
    split; [exists c, s; split; [exact E | exact (digit_of_not_space c d D)]|].
    assert (NE : String.eqb (py_str_int z) "-" = false).
    { apply String.eqb_neq. rewrite E. intros [= -> _]. vm_compute in D. discriminate. }
    rewrite NE. cbn [negb]. apply py_int_of_str_str.
  - intros _. split; [reflexivity|]. split; [reflexivity|].
    split; [|reflexivity]. eexists _, _. split; reflexivity.
Qed.

Lemma strip_not_empty (c : ascii) (s : string) :
  is_space c = false -> String.eqb (strip (String c s)) "" = false.
Proof.
  intros H. unfold strip. cbn [lstrip]. rewrite H. cbn [rstrip]. rewrite H.
  destruct (rstrip s); reflexivity.
Qed.

Lemma numstat_step (l : numstat_line) (added removed : Z) :
  numstat_line_ok l ->
  (let '(added, removed) := (added, removed) in
   if String.eqb (strip (numstat_text l)) "" then Ok (added, removed)
   else
     let parts := py_split TAB (numstat_text l) in
     match parts with
     | [part0; part1; part2] =>
         a <- (if negb (String.eqb part0 "-") then py_int_of_str part0
               else Ok 0) ;;
         let added := added + a in
         r <- (if negb (String.eqb part1 "-") then py_int_of_str part1
               else Ok 0) ;;
         let removed := removed + r in
         Ok (added, removed)
     | _ => Ok (added, removed)
     end) = Ok (added + added_of l, removed + removed_of l).
Proof.
  destruct l as [a r path|text]; cbn [numstat_line_ok numstat_text added_of removed_of].
  - intros (Ha & Hr & Pt & _).
    destruct (count_text a Ha) as (Ta & _ & (c & s & E & Sp) & Ia).
    destruct (count_text r Hr) as (Tr & _ & _ & Ir).
    rewrite (py_split_app TAB _ _ Ta), (py_split_app TAB _ _ Tr),
      (py_split_no_sep TAB _ Pt).
    rewrite Ia, Ir. cbn [bind]. rewrite E. cbn [append].
    rewrite (strip_not_empty c _ Sp). reflexivity.
  - intros (_ & [B|C]).
    + rewrite B. rewrite !Z.add_0_r. reflexivity.
    + rewrite !Z.add_0_r. destruct (String.eqb (strip text) ""); [reflexivity|].
      pose proof (py_split_length TAB text) as L.
      destruct (py_split TAB text) as [|p0 [|p1 [|p2 [|p3 ps]]]]; try reflexivity.
      cbn [List.length] in L. congruence.
Qed.

Lemma numstat_lines_join (ls : list numstat_line) :
  Forall numstat_line_ok ls ->
  Forall (fun line => has_char LF line = false) (map numstat_text ls).
Proof.
  intros H. apply Forall_map. eapply Forall_impl; [|exact H].
  intros [a r path|text]; cbn [numstat_line_ok numstat_text].
  - intros (Ha & Hr & _ & Pl).
    destruct (count_text a Ha) as (_ & La & _).
    destruct (count_text r Hr) as (_ & Lr & _).
    rewrite has_char_app, La. cbn [has_char orb].
    rewrite has_char_app, Lr. cbn [has_char orb]. exact Pl.
  - intros (H' & _). exact H'.
Qed.

Lemma numstat_loop (ls : list numstat_line) :
  Forall numstat_line_ok ls ->
  forall added removed,
    for_each (map numstat_text ls)
      (fun totals line =>
         let '(added, removed) := totals in
         if String.eqb (strip line) "" then Ok (added, removed)
         else
           let parts := py_split TAB line in
           match parts with
           | [part0; part1; part2] =>
               a <- (if negb (String.eqb part0 "-") then py_int_of_str part0
                     else Ok 0) ;;
               let added := added + a in
               r <- (if negb (String.eqb part1 "-") then py_int_of_str part1
                     else Ok 0) ;;
               let removed := removed + r in
               Ok (added, removed)
           | _ => Ok (added, removed)
           end)
      (added, removed) =
    Ok (added + py_sum (map added_of ls), removed + py_sum (map removed_of ls)).
Proof.
  induction 1 as [|l ls Hl _ IH]; intros added removed.
  - cbn [map for_each]. unfold py_sum. cbn [fold_left]. rewrite !Z.add_0_r. reflexivity.
  - cbn [map for_each]. pose proof (numstat_step l added removed Hl) as St.
    cbv beta iota zeta in St. cbv beta iota zeta. rewrite St. cbn [bind].
    rewrite IH, !py_sum_cons, !Z.add_assoc. reflexivity.
Qed.

(** On an output of [git show --numstat] whose lines are lines of the
    statistics (counts or [-], a tab, counts or [-], a tab, the path) and
    other lines that are blank or do not hold exactly two tabs,
    [get_added_removed] returns the sums of the added and of the removed
    lines, a [-] (binary file) counting for 0. *)
Theorem get_added_removed_totals (ls : list numstat_line) :
  Forall numstat_line_ok ls ->
  get_added_removed (py_join (String LF "") (map numstat_text ls)) =
  Ok (py_sum (map added_of ls), py_sum (map removed_of ls)).
Proof.
  intros H. unfold get_added_removed. destruct ls as [|l ls].
  - reflexivity.
  - rewrite py_split_join;
      [| discriminate | apply numstat_lines_join; exact H].
    apply (numstat_loop _ H 0 0).
Qed.

Lemma get_added_removed_totals_witness :
  Forall numstat_line_ok example_numstat /\
  get_added_removed (py_join (String LF "") (map numstat_text example_numstat)) =
  Ok (py_sum (map added_of example_numstat),
      py_sum (map removed_of example_numstat)).
Proof.
  assert (H : Forall numstat_line_ok example_numstat).
  { repeat constructor;
      first [ left; reflexivity
            | right; vm_compute; discriminate
            | vm_compute; congruence ]. }
  split; [exact H | exact (get_added_removed_totals example_numstat H)].
Defined.

Lemma for_each_app {A B : Type} (body : B -> A -> result B) (l1 l2 : list A)
    (acc : B) :
  for_each (l1 ++ l2) body acc =
  (acc' <- for_each l1 body acc ;; for_each l2 body acc').
Proof.
  revert acc. induction l1 as [|x l1 IH]; intros acc; cbn [app for_each bind];
    [reflexivity|].
  destruct (body acc x) as [acc'|e]; cbn [bind]; [apply IH | reflexivity].
Qed.

Lemma py_split_lines_tail (lines : list string) (last tail : string) :
  Forall (fun line => has_char LF line = false) lines ->
  has_char LF last = false ->
  tail = "" \/ (exists t, tail = String LF t) ->
  exists rest,
    py_split LF (py_join (String LF "") (lines ++ [last]) ++ tail) =
    (lines ++ last :: rest)%list.
Proof.
  intros H L T. induction H as [|line lines Hl H IH].
  - cbn [app py_join]. destruct T as [->|(t & ->)].
    + exists []. rewrite append_empty_r. apply py_split_no_sep. exact L.
    + exists (py_split LF t). apply py_split_app. exact L.
  - destruct IH as (rest & IH). exists rest.
    change ((line :: lines) ++ [last])%list with (line :: (lines ++ [last]))%list.
    destruct (lines ++ [last])%list as [|l2 ls2] eqn:E.
    { destruct lines; discriminate. }
    change (py_join (String LF "") (line :: l2 :: ls2))
      with (line ++ String LF (py_join (String LF "") (l2 :: ls2))).
    rewrite append_assoc. cbn [append].
    rewrite (py_split_app LF _ _ Hl), IH. reflexivity.
Qed.

Lemma py_int_of_str_cases (s : string) :
  (exists z, py_int_of_str s = Ok z) \/ py_int_of_str s = Raise ValueError.
Proof.
  unfold py_int_of_str.
  match goal with
  | |- context [match ?p with Some z => Ok z | None => _ end] => destruct p
  end; eauto.
Qed.

(** A line with exactly two tabs that is not blank and whose first or
    second part is neither [-] nor a number makes [get_added_removed] raise
    [ValueError], when the lines before it are as above: a line of the
    commit message with two tabs in it is enough. *)
Theorem get_added_removed_bad_count (ls : list numstat_line)
    (part0 part1 part2 tail : string) :
  Forall numstat_line_ok ls ->
  has_char TAB part0 = false -> has_char LF part0 = false ->
  has_char TAB part1 = false -> has_char LF part1 = false ->
  has_char TAB part2 = false -> has_char LF part2 = false ->
  strip (part0 ++ String TAB (part1 ++ String TAB part2)) <> "" ->
  bad_count part0 \/ bad_count part1 ->
  tail = "" \/ (exists t, tail = String LF t) ->
  get_added_removed
    (py_join (String LF "")
       (map numstat_text ls ++
        [part0 ++ String TAB (part1 ++ String TAB part2)]) ++ tail) =
  Raise ValueError.
Proof.
  intros H T0 L0 T1 L1 T2 L2 NB Bad Tail. unfold get_added_removed.
  destruct (py_split_lines_tail (map numstat_text ls)
              (part0 ++ String TAB (part1 ++ String TAB part2)) tail
              (numstat_lines_join ls H)) as (rest & ->); [| exact Tail |].
  { rewrite has_char_app, L0. cbn [has_char orb].
    rewrite has_char_app, L1. cbn [has_char orb]. exact L2. }
  rewrite for_each_app. pose proof (numstat_loop ls H 0 0) as Lp.
  cbv zeta in Lp. cbv zeta. rewrite Lp. cbn [bind for_each].
  apply String.eqb_neq in NB. rewrite NB.
  rewrite (py_split_app TAB _ _ T0), (py_split_app TAB _ _ T1),
    (py_split_no_sep TAB _ T2).
  cbv beta iota zeta.
  destruct Bad as [(N0 & R0)|(N1 & R1)].
  - apply String.eqb_neq in N0. rewrite N0, R0. reflexivity.
  - apply String.eqb_neq in N1. rewrite N1, R1.
    destruct (String.eqb part0 "-"); cbn [negb bind]; [reflexivity|].
    destruct (py_int_of_str_cases part0) as [(z & ->)| ->]; reflexivity.
Qed.

Lemma get_added_removed_bad_count_witness :
  get_added_removed
    (py_join (String LF "")
       (map numstat_text [Other "commit c0ffee"; Other ""] ++
        ["    fix" ++ String TAB ("the" ++ String TAB "parser")]) ++
     String LF (numstat_text (Stat (Some 12) (Some 3) "src/collect.py"))) =
  Raise ValueError.
Proof.
  apply (get_added_removed_bad_count [Other "commit c0ffee"; Other ""]
           "    fix" "the" "parser"
           (String LF (numstat_text (Stat (Some 12) (Some 3) "src/collect.py")))).
  - repeat constructor;
      first [ left; reflexivity
            | right; vm_compute; discriminate
            | vm_compute; congruence ].
  - reflexivity.
  - reflexivity.
  - reflexivity.
  - reflexivity.
  - reflexivity.
  - reflexivity.
  - vm_compute. discriminate.
  - left. split; [discriminate | reflexivity].
  - right. eexists. reflexivity.
Defined.

(** ** The commits of a repository *)

Lemma py_getitem_0 {A : Type} (x : A) (l : list A) :
  py_getitem (x :: l) 0 = Return x.
Proof.
  unfold py_getitem. cbn [Z.ltb Z.compare List.length].
  destruct (Z.ltb_spec 0 (Z.of_nat (S (List.length l)))); [reflexivity | lia].
Qed.

Lemma py_getitem_1 {A : Type} (x y : A) (l : list A) :
  py_getitem (x :: y :: l) 1 = Return y.
Proof.
  unfold py_getitem. cbn [Z.ltb Z.compare List.length].
  destruct (Z.ltb_spec 1 (Z.of_nat (S (S (List.length l))))); [reflexivity | lia].
Qed.

Lemma py_getitem_2 {A : Type} (x y z : A) (l : list A) :
  py_getitem (x :: y :: z :: l) 2 = Return z.
Proof.
  unfold py_getitem. cbn [Z.ltb Z.compare List.length].
  destruct (Z.ltb_spec 2 (Z.of_nat (S (S (S (List.length l)))))); [reflexivity | lia].
Qed.

Lemma py_getitem_last {A : Type} (l : list A) (d : A) :
  l <> [] -> py_getitem l (-1) = Return (last l d).
Proof.
  intros NE. destruct (exists_last NE) as (l' & a & ->). rewrite last_last.
  unfold py_getitem. cbn [Z.ltb Z.compare]. rewrite length_app. cbn [List.length].
  destruct (Z.leb_spec 0 (-1 + Z.of_nat (List.length l' + 1))); [|lia].
  destruct (Z.ltb_spec (-1 + Z.of_nat (List.length l' + 1))
              (Z.of_nat (List.length l' + 1))); [|lia].
  cbn [andb].
  replace (Z.to_nat (-1 + Z.of_nat (List.length l' + 1))) with (List.length l') by lia.
  rewrite nth_error_app2, Nat.sub_diag by lia. reflexivity.
Qed.

Lemma count_char_app_pos (c : ascii) (s t : string) :
  (0 < count_char c (s ++ String c t))%nat.
Proof.
  induction s as [|x s IH]; cbn [append count_char].
  - rewrite Ascii.eqb_refl. lia.
  - destruct (Ascii.eqb x c); lia.
Qed.

Lemma text_after_trailing (c : ascii) (s : string) :
  text_after c (s ++ String c "") = "".
Proof.
  unfold text_after. induction s as [|x s IH]; cbn [append py_split].
  - rewrite Ascii.eqb_refl. reflexivity.
  - pose proof (py_split_length c (s ++ String c "")) as L.
    pose proof (count_char_app_pos c s "") as P.
    destruct (py_split c (s ++ String c "")) as [|p [|p2 ps]];
      cbn [List.length] in L; try lia.
    destruct (Ascii.eqb x c); exact IH.
Qed.

Lemma text_before_no_sep (c : ascii) (s : string) :
  has_char c s = false -> text_before c s = s.
Proof. intros H. unfold text_before. rewrite py_split_no_sep by exact H. reflexivity. Qed.

Section GetCommitsFacts.
Variable fromtimestamp : Z -> outcome datetime.
Variable local : Z -> datetime.

Lemma log_line_read (repo : string) (e : log_entry) (items : list Commit.t) :
  log_entry_ok e ->
  fromtimestamp (snd (fst e)) = Return (local (snd (fst e))) ->
  (let c := py_split vertical_bar (log_line e) in
   sha <-- py_getitem c 0 ;;
   seconds <-- py_getitem c 1 ;;
   seconds <-- outcome_of (py_int_of_str seconds) ;;
   dt <-- fromtimestamp seconds ;;
   author <-- py_getitem c 2 ;;
   Return (items ++ [Commit.mk repo sha dt author (-1) (-1)])%list) =
  Return (items ++
          [Commit.mk repo (fst (fst e)) (local (snd (fst e)))
             (text_before vertical_bar (snd e)) (-1) (-1)])%list.
Proof.
  destruct e as ((sha & seconds) & author). cbn [fst snd log_entry_ok log_line].
  intros (B & _ & (S0 & _) & _) F.
  destruct (py_str_int_nonneg seconds S0) as (c & s & d & E & D & A).
  assert (Bs : has_char vertical_bar (py_str_int seconds) = false).
  { apply all_digits_no_char; [reflexivity|]. rewrite E. cbn [all_digits].
    rewrite D. exact A. }
  cbv zeta. rewrite (py_split_app _ _ _ B), (py_split_app _ _ _ Bs).
  unfold text_before.
  destruct (py_split vertical_bar author) as [|a parts] eqn:P.
  { exfalso. exact (py_split_not_nil _ _ P). }
  rewrite py_getitem_0, py_getitem_1, py_getitem_2. cbn [outcome_bind].
  rewrite py_int_of_str_str. cbn [outcome_of outcome_bind]. rewrite F.
  reflexivity.
Qed.

Lemma log_lines_read (repo : string) (entries : list log_entry) :
  Forall log_entry_ok entries ->
  Forall (fun e => fromtimestamp (snd (fst e)) = Return (local (snd (fst e))))
    entries ->
  forall items,
    for_each_outcome (map log_line entries)
      (fun items o =>
         let c := py_split vertical_bar o in
         sha <-- py_getitem c 0 ;;
         seconds <-- py_getitem c 1 ;;
         seconds <-- outcome_of (py_int_of_str seconds) ;;
         dt <-- fromtimestamp seconds ;;
         author <-- py_getitem c 2 ;;
         Return (items ++ [Commit.mk repo sha dt author (-1) (-1)])%list)
      items =
    Return (items ++
            map (fun e => Commit.mk repo (fst (fst e)) (local (snd (fst e)))
                            (text_before vertical_bar (snd e)) (-1) (-1))
              entries)%list.
Proof.
  intros H. induction H as [|e entries He _ IH]; intros F items.
  - cbn [map for_each_outcome]. rewrite app_nil_r. reflexivity.
  - inversion F as [|? ? Fe F']; subst. cbn [map for_each_outcome].
    pose proof (log_line_read repo e items He Fe) as St.
    cbv zeta in St. cbv zeta. rewrite St. cbn [outcome_bind].
    rewrite (IH F'), <- app_assoc. reflexivity.
Qed.

Lemma log_line_no_LF (e : log_entry) :
  log_entry_ok e -> has_char LF (log_line e) = false.
Proof.
  destruct e as ((sha & seconds) & author). cbn [log_entry_ok log_line].
  intros (_ & L & (S0 & _) & La).
  destruct (py_str_int_nonneg seconds S0) as (c & s & d & E & D & A).
  rewrite has_char_app, L. cbn [has_char orb]. rewrite has_char_app.
  rewrite (all_digits_no_char LF (py_str_int seconds)); [exact La | reflexivity |].
  rewrite E. cbn [all_digits]. rewrite D. exact A.
Qed.

(** From the lines that [git log] prints (hash, Unix timestamp and author
    name, separated by vertical bars), [get_commits] builds one commit per
    line, in the same order, with the line counts not yet computed (-1).
    The repository name is what follows the last slash of the path, so it
    is empty for a path that ends in a slash; the author name is cut at
    its first vertical bar. *)
Theorem get_commits_parsed (repository_path : string) (entries : list log_entry) :
  entries <> [] ->
  Forall log_entry_ok entries ->
  Forall (fun e => fromtimestamp (snd (fst e)) = Return (local (snd (fst e))))
    entries ->
  get_commits fromtimestamp repository_path
    (py_join (String LF "") (map log_line entries)) =
  Return
    (map (fun e =>
            Commit.mk (text_after slash repository_path) (fst (fst e))
              (local (snd (fst e))) (text_before vertical_bar (snd e))
              (-1) (-1))
       entries) /\
  (forall path, repository_path = path ++ String slash "" ->
     text_after slash repository_path = "") /\
  (forall e, In e entries -> has_char vertical_bar (snd e) = false ->
     text_before vertical_bar (snd e) = snd e).
Proof.
  intros NE H F. split; [|split].
  - unfold get_commits.
    rewrite (py_getitem_last _ "" (py_split_not_nil slash repository_path)).
    cbn [outcome_bind]. rewrite py_split_join.
    + apply (log_lines_read _ entries H F []).
    + destruct entries; [contradiction | discriminate].
    + apply Forall_map. eapply Forall_impl; [|exact H]. apply log_line_no_LF.
  - intros path ->. apply text_after_trailing.
  - intros e _ B. apply text_before_no_sep. exact B.
Qed.

End GetCommitsFacts.

Lemma get_commits_parsed_witness :
  get_commits (fun seconds => Return (mk_datetime 2024 1 2 12 0 0))
    "/home/alice/repo/" (py_join (String LF "") (map log_line log_entries)) =
  Return
    [ Commit.mk "" "c0ffee" (mk_datetime 2024 1 2 12 0 0) "alice" (-1) (-1);
      Commit.mk "" "decade" (mk_datetime 2024 1 2 12 0 0) "Bob " (-1) (-1) ].
Proof.
  refine (proj1 (get_commits_parsed
                   (fun seconds => Return (mk_datetime 2024 1 2 12 0 0))
                   (fun seconds => mk_datetime 2024 1 2 12 0 0)
                   "/home/alice/repo/" log_entries _ _ _)).
  - discriminate.
  - repeat constructor; vm_compute; congruence.
  - repeat constructor.
Defined.

(** ** Rounding to binary64 keeps the order *)

Section FloatOrder.
Local Open Scope Q_scope.

Lemma log2_quotient_le (q : Q) (k : Z) :
  0 < q -> q <= pow2 k ->
  (Z.log2 (Qnum q) - Z.log2 (Zpos (Qden q)) <= k)%Z.
Proof.
  intros Hq Hk. destruct q as [a b]. unfold Qlt in Hq. cbn [Qnum Qden] in Hq |- *.
  assert (A : (0 < a)%Z) by lia. clear Hq.
  unfold pow2 in Hk. destruct (Z.leb_spec 0 k) as [K|K].
  - unfold Qle in Hk. cbn [Qnum Qden inject_Z] in Hk.
    assert (M : (Z.log2 a <= Z.log2 (Zpos b * 2 ^ k))%Z)
      by (apply Z.log2_le_mono; lia).
    rewrite Z.log2_mul_pow2 in M by lia. lia.
  - unfold Qle in Hk. cbn [Qnum Qden inject_Z] in Hk.
    assert (P : (0 < 2 ^ (- k))%Z) by (apply Z.pow_pos_nonneg; lia).
    rewrite Z2Pos.id in Hk by exact P.
    assert (M : (Z.log2 (a * 2 ^ (- k)) <= Z.log2 (Zpos b))%Z)
      by (apply Z.log2_le_mono; lia).
    rewrite Z.log2_mul_pow2 in M by lia. lia.
Qed.

Lemma log2_quotient_ge (q : Q) (k : Z) :
  0 < q -> pow2 k <= q ->
  (k <= Z.log2 (Qnum q) - Z.log2 (Zpos (Qden q)))%Z.
Proof.
  intros Hq Hk. destruct q as [a b]. unfold Qlt in Hq. cbn [Qnum Qden] in Hq |- *.
  assert (A : (0 < a)%Z) by lia. clear Hq.
  unfold pow2 in Hk. destruct (Z.leb_spec 0 k) as [K|K].
  - unfold Qle in Hk. cbn [Qnum Qden inject_Z] in Hk.
    assert (M : (Z.log2 (Zpos b * 2 ^ k) <= Z.log2 a)%Z)
      by (apply Z.log2_le_mono; lia).
    rewrite Z.log2_mul_pow2 in M by lia. lia.
  - unfold Qle in Hk. cbn [Qnum Qden inject_Z] in Hk.
    assert (P : (0 < 2 ^ (- k))%Z) by (apply Z.pow_pos_nonneg; lia).
    rewrite Z2Pos.id in Hk by exact P.
    assert (M : (Z.log2 (Zpos b) <= Z.log2 (a * 2 ^ (- k)))%Z)
      by (apply Z.log2_le_mono; lia).
    rewrite Z.log2_mul_pow2 in M by lia. lia.
Qed.

Lemma ilog2_ge (q : Q) (k : Z) : 0 < q -> pow2 k <= q -> (k <= ilog2 q)%Z.
Proof.
  intros Hq Hk. pose proof (log2_quotient_ge q k Hq Hk) as L. unfold ilog2.
  destruct (Qle_bool (pow2 (Z.log2 (Qnum q) - Z.log2 (Zpos (Qden q)))) q) eqn:B;
    [exact L|].
  destruct (Z.eq_dec k (Z.log2 (Qnum q) - Z.log2 (Zpos (Qden q)))) as [E|E]; [|lia].
  exfalso. rewrite <- E in B. apply Qle_bool_iff in Hk. congruence.
Qed.

Lemma ilog2_lower (q : Q) : 0 < q -> pow2 (ilog2 q) <= q.
Proof.
  intros Hq. unfold ilog2.
  destruct (Qle_bool (pow2 (Z.log2 (Qnum q) - Z.log2 (Zpos (Qden q)))) q) eqn:B.
  - apply Qle_bool_iff. exact B.
  - apply Qnot_lt_le. intros C.
    pose proof (log2_quotient_le q _ Hq (Qlt_le_weak _ _ C)). lia.
Qed.

Lemma ilog2_upper (q : Q) : 0 < q -> q < pow2 (ilog2 q + 1).
Proof.
  intros Hq. apply Qnot_le_lt. intros C.
  pose proof (ilog2_ge q _ Hq C). lia.
Qed.

Lemma ilog2_mono (q1 q2 : Q) : 0 < q1 -> q1 <= q2 -> (ilog2 q1 <= ilog2 q2)%Z.
Proof.
  intros H1 H. apply ilog2_ge.
  - apply Qlt_le_trans with q1; assumption.
  - apply Qle_trans with q1; [apply ilog2_lower; exact H1 | exact H].
Qed.

Lemma round_half_even_ge (x : Q) (n : Z) :
  inject_Z n <= x -> (n <= round_half_even x)%Z.
Proof.
  intros H. pose proof (round_half_even_bounds x) as B.
  pose proof (Qfloor_resp_le _ _ H) as F. rewrite Qfloor_Z in F. lia.
Qed.

Lemma round_half_even_mono (x y : Q) :
  x <= y -> (round_half_even x <= round_half_even y)%Z.
Proof.
  intros H. pose proof (Qfloor_resp_le _ _ H) as F.
  pose proof (round_half_even_bounds x) as Bx.
  pose proof (round_half_even_bounds y) as By.
  destruct (Z.eq_dec (Qfloor x) (Qfloor y)) as [E|E]; [|lia].
  unfold round_half_even. rewrite E.
  destruct (Qcompare_spec (x - inject_Z (Qfloor y)) (1 # 2)) as [Cx|Cx|Cx];
    destruct (Qcompare_spec (y - inject_Z (Qfloor y)) (1 # 2)) as [Cy|Cy|Cy];
    try (destruct (Z.even (Qfloor y))); try lia; exfalso; lra.
Qed.

Lemma pow2_le (a b : Z) : (a <= b)%Z -> pow2 a <= pow2 b.
Proof.
  intros H. destruct (Z.eq_dec a b) as [->|N]; [apply Qle_refl|].
  apply Qlt_le_weak, pow2_lt. lia.
Qed.

Lemma pow2_lt_inv (a b : Z) : pow2 a < pow2 b -> (a < b)%Z.
Proof.
  intros H. destruct (Z.lt_ge_cases a b) as [L|G]; [exact L|]. exfalso.
  apply (Qlt_irrefl (pow2 a)). apply Qlt_le_trans with (pow2 b); [exact H|].
  apply pow2_le. exact G.
Qed.

Lemma pow2_split (k e : Z) :
  (e <= k)%Z -> pow2 k == inject_Z (2 ^ (k - e)) * pow2 e.
Proof.
  intros H. rewrite <- (pow2_nonneg_Z (k - e)) by lia. rewrite <- pow2_add.
  replace (k - e + e)%Z with k by lia. reflexivity.
Qed.

(** The value of a positive number rounded to binary64. *)
Lemma float_of_Q_pos (q v : Q) :
  0 < q -> float_of_Q q = Ok v ->
  v == inject_Z (round_half_even (q / pow2 (Z.max (ilog2 q - 52) (- 1074)))) *
       pow2 (Z.max (ilog2 q - 52) (- 1074)) /\
  v < pow2 1024.
Proof.
  intros Hq. unfold float_of_Q.
  assert (N : Qeq_bool q 0 = false).
  { destruct (Qeq_bool q 0) eqn:E; [|reflexivity]. apply Qeq_bool_eq in E.
    rewrite E in Hq. exfalso. exact (Qlt_irrefl 0 Hq). }
  rewrite N, (Qabs_of_pos q Hq).
  destruct (Qle_bool (pow2 1024) _) eqn:O; [discriminate|].
  assert (P : Qle_bool 0 q = true) by (apply Qle_bool_iff, Qlt_le_weak; exact Hq).
  rewrite P. intros E.
  apply (f_equal (fun r => match r with Ok x => x | Raise _ => v end)) in E.
  cbv beta iota in E. subst v. split; [apply Qred_correct|].
  apply Qnot_le_lt. intros C. apply Qle_bool_iff in C. congruence.
Qed.

Lemma float_of_Q_nonneg (q v : Q) : 0 <= q -> float_of_Q q = Ok v -> 0 <= v.
Proof.
  intros H E. destruct (Qeq_bool q 0) eqn:Z0.
  - unfold float_of_Q in E. rewrite Z0 in E. injection E as <-. apply Qle_refl.
  - assert (Hq : 0 < q).
    { apply Qle_lt_or_eq in H. destruct H as [H|H]; [exact H|].
      apply Qeq_bool_neq in Z0. exfalso. apply Z0. symmetry. exact H. }
    destruct (float_of_Q_pos q v Hq E) as (V & _). rewrite V.
    apply Qmult_le_0_compat; [|apply Qlt_le_weak, pow2_pos].
    change (inject_Z 0 <= inject_Z (round_half_even
              (q / pow2 (Z.max (ilog2 q - 52) (-1074))))).
    rewrite <- Zle_Qle. apply round_half_even_nonneg.
    apply Qle_shift_div_l; [apply pow2_pos|]. rewrite Qmult_0_l. exact H.
Qed.

Lemma float_of_Q_mono (q1 q2 v1 v2 : Q) :
  0 <= q1 -> q1 <= q2 ->
  float_of_Q q1 = Ok v1 -> float_of_Q q2 = Ok v2 -> v1 <= v2.
Proof.
  intros H0 H E1 E2.
  assert (H2 : 0 <= q2) by (apply Qle_trans with q1; assumption).
  destruct (Qeq_bool q1 0) eqn:Z1.
  { unfold float_of_Q in E1. rewrite Z1 in E1. injection E1 as <-.
    apply (float_of_Q_nonneg q2 v2 H2 E2). }
  assert (P1 : 0 < q1).
  { apply Qle_lt_or_eq in H0. destruct H0 as [H0|H0]; [exact H0|].
    apply Qeq_bool_neq in Z1. exfalso. apply Z1. symmetry. exact H0. }
  assert (P2 : 0 < q2) by (apply Qlt_le_trans with q1; assumption).
  destruct (float_of_Q_pos q1 v1 P1 E1) as (V1 & _).
  destruct (float_of_Q_pos q2 v2 P2 E2) as (V2 & O2).
  pose proof (ilog2_mono q1 q2 P1 H) as IL.
  set (e1 := Z.max (ilog2 q1 - 52) (- 1074)) in *.
  set (e2 := Z.max (ilog2 q2 - 52) (- 1074)) in *.
  destruct (Z.eq_dec e1 e2) as [Ee|Ne].
  - rewrite V1, V2, Ee. apply Qmult_le_compat_r; [|apply Qlt_le_weak, pow2_pos].
    rewrite <- Zle_Qle. apply round_half_even_mono.
    apply Qmult_le_compat_r; [exact H|].
    apply Qlt_le_weak, Qinv_lt_0_compat, pow2_pos.
  - assert (E2' : e2 = (ilog2 q2 - 52)%Z) by (unfold e1, e2 in *; lia).
    assert (L1 : (ilog2 q1 < ilog2 q2)%Z) by (unfold e1, e2 in *; lia).
    assert (Lo : pow2 (ilog2 q2) <= v2).
    { rewrite V2, (pow2_split (ilog2 q2) e2) by lia.
      apply Qmult_le_compat_r; [|apply Qlt_le_weak, pow2_pos].
      rewrite <- Zle_Qle. apply round_half_even_ge.
      apply Qle_shift_div_l; [apply pow2_pos|].
      rewrite <- (pow2_split (ilog2 q2) e2) by lia.
      apply ilog2_lower. exact P2. }
    assert (K : (ilog2 q2 < 1024)%Z).
    { apply pow2_lt_inv. apply Qle_lt_trans with v2; assumption. }
    assert (Up : q1 <= pow2 (ilog2 q2)).
    { apply Qle_trans with (pow2 (ilog2 q1 + 1)).
      - apply Qlt_le_weak, ilog2_upper. exact P1.
      - apply pow2_le. lia. }
    destruct (float_of_Q_bounded q1 (ilog2 q2) H0 Up) as (v & E & _ & Vk & _).
    { unfold e1, e2 in *. lia. }
    rewrite E in E1. injection E1 as ->.
    apply Qle_trans with (pow2 (ilog2 q2)); assumption.
Qed.

End FloatOrder.

(** ** Larger weeks never get shorter bars *)

Lemma scaled_value (s : pynum) :
  (0 <= pynum_val s)%Q -> (pynum_val s <= 1)%Q ->
  exists b p,
    py_mul_int s 50 = Ok b /\
    float_of_Q (pynum_val s * inject_Z 50) = Ok p /\
    (pynum_val b == p)%Q /\ py_int b = Qfloor (pynum_val b).
Proof.
  intros L U. destruct (py_mul_int_unit s L U) as (b & E & _ & I).
  destruct s as [z|q]; cbn [pynum_val py_mul_int] in *.
  - assert (Z01 : z = 0 \/ z = 1).
    { change 0%Q with (inject_Z 0) in L. change 1%Q with (inject_Z 1) in U.
      rewrite <- Zle_Qle in L, U. lia. }
    injection E as <-. cbn [pynum_val] in *.
    destruct Z01 as [->| ->].
    + exists (PInt 0), 0%Q. repeat split; reflexivity.
    + exists (PInt 50), (inject_Z 50). repeat split; reflexivity.
  - rewrite float_of_50 in E. cbn [bind] in E.
    destruct (float_of_Q (q * inject_Z 50)) as [p|e] eqn:F; [|discriminate].
    cbn [bind] in E. injection E as <-.
    exists (PFloat p), p.
    split; [rewrite float_of_50; cbn [bind]; rewrite F; reflexivity|].
    split; [reflexivity|]. split; [reflexivity | exact I].
Qed.

(** For one range, a group with the larger change magnitude has the larger
    score (or the same), and its bar has at least as many blocks; no bar
    has more than 50. *)
Theorem get_score_monotone (g1 g2 : Group.t) (lower upper : Z) :
  Group.change g1 <= Group.change g2 ->
  exists s1 s2 b1 b2,
    Group.get_score g1 lower upper = Ok s1 /\
    Group.get_score g2 lower upper = Ok s2 /\
    (pynum_val s1 <= pynum_val s2)%Q /\
    py_mul_int s1 default_width = Ok b1 /\
    py_mul_int s2 default_width = Ok b2 /\
    0 <= py_int b1 /\ py_int b1 <= py_int b2 /\ py_int b2 <= 50.
Proof.
  intros H.
  destruct (get_score_cases g1 lower upper) as (s1 & E1 & L1 & U1 & _).
  destruct (get_score_cases g2 lower upper) as (s2 & E2 & L2 & U2 & _).
  assert (M : (pynum_val s1 <= pynum_val s2)%Q).
  { revert E1 E2. unfold Group.get_score.
    destruct (Z.ltb_spec (Group.change g1) lower) as [A1|A1].
    { intros [= <-] _. exact L2. }
    destruct (Z.ltb_spec (Group.change g2) lower) as [A2|A2]; [lia|].
    destruct (Z.gtb_spec (Group.change g2) upper) as [B2|B2].
    { intros _ [= <-]. exact U1. }
    destruct (Z.gtb_spec (Group.change g1) upper) as [B1|B1]; [lia|].
    destruct (Z.eqb_spec (upper - lower) 0) as [C|C].
    { intros [= <-] [= <-]. apply Qle_refl. }
    unfold py_truediv. destruct (Z.eqb_spec (upper - lower) 0) as [C'|_]; [lia|].
    destruct (float_of_Q (inject_Z (Group.change g1 - lower) /
                          inject_Z (upper - lower))) as [q1|] eqn:F1;
      [|discriminate].
    destruct (float_of_Q (inject_Z (Group.change g2 - lower) /
                          inject_Z (upper - lower))) as [q2|] eqn:F2;
      [|discriminate].
    cbn [bind]. intros [= <-] [= <-]. cbn [pynum_val].
    assert (Bp : (0 < inject_Z (upper - lower))%Q).
    { change 0%Q with (inject_Z 0). rewrite <- Zlt_Qlt. lia. }
    refine (float_of_Q_mono _ _ q1 q2 _ _ F1 F2).
    - apply Qle_shift_div_l; [exact Bp|]. rewrite Qmult_0_l.
      change 0%Q with (inject_Z 0). rewrite <- Zle_Qle. lia.
    - apply Qmult_le_compat_r.
      + rewrite <- Zle_Qle. lia.
      + apply Qlt_le_weak, Qinv_lt_0_compat. exact Bp. }
  destruct (scaled_value s1 L1 U1) as (b1 & p1 & Em1 & F1 & V1 & I1).
  destruct (scaled_value s2 L2 U2) as (b2 & p2 & Em2 & F2 & V2 & I2).
  assert (P12 : (p1 <= p2)%Q).
  { refine (float_of_Q_mono _ _ p1 p2 _ _ F1 F2).
    - apply Qmult_le_0_compat; [exact L1 | discriminate].
    - apply Qmult_le_compat_r; [exact M | discriminate]. }
  assert (P2 : (p2 <= inject_Z 50)%Q).
  { refine (float_of_Q_mono _ _ p2 (inject_Z 50) _ _ F2 float_of_50).
    - apply Qmult_le_0_compat; [exact L2 | discriminate].
    - rewrite <- (Qmult_1_l (inject_Z 50)) at 2.
      apply Qmult_le_compat_r; [exact U2 | discriminate]. }
  assert (P0 : (0 <= p1)%Q).
  { apply (float_of_Q_nonneg _ _) with (2 := F1).
    apply Qmult_le_0_compat; [exact L1 | discriminate]. }
  exists s1, s2, b1, b2. unfold default_width.
  split; [exact E1|]. split; [exact E2|]. split; [exact M|].
  split; [exact Em1|]. split; [exact Em2|].
  rewrite I1, I2, V1, V2. split; [|split].
  - change 0 with (Qfloor 0). apply Qfloor_resp_le. exact P0.
  - apply Qfloor_resp_le. exact P12.
  - rewrite <- (Qfloor_Z 50). apply Qfloor_resp_le. exact P2.
Qed.

Lemma get_score_monotone_witness :
  exists s1 s2 b1 b2,
    Group.get_score group_of_3 2 7 = Ok s1 /\
    Group.get_score group_of_5 2 7 = Ok s2 /\
    (pynum_val s1 <= pynum_val s2)%Q /\
    py_mul_int s1 default_width = Ok b1 /\
    py_mul_int s2 default_width = Ok b2 /\
    0 <= py_int b1 /\ py_int b1 <= py_int b2 /\ py_int b2 <= 50.
Proof.
  apply (get_score_monotone group_of_3 group_of_5 2 7).
  vm_compute. discriminate.
Defined.

(** ** Weeks of equal magnitude *)




(** ** The collector, end to end *)


Section CollectorFacts.
Variable fromtimestamp : Z -> outcome datetime.
Variable git_log : string -> outcome string.
Variable git_show : string -> string -> outcome string.
Variable local : Z -> datetime.
Variable entries : string -> list log_entry.
Variable stats : string -> string -> list numstat_line.






End CollectorFacts.



(** ** The order of the week keys *)

Lemma digit_of_range (c : ascii) (d : Z) : digit_of c = Some d -> 0 <= d <= 9.
Proof.
  unfold digit_of.
  destruct ((48 <=? nat_of_ascii c)%nat && (nat_of_ascii c <=? 57)%nat) eqn:E;
    [|discriminate].
  apply andb_true_iff in E. destruct E as (A & B).
  apply Nat.leb_le in A. apply Nat.leb_le in B. intros [= <-]. lia.
Qed.

Lemma digit_compare (c c' : ascii) (d d' : Z) :
  digit_of c = Some d -> digit_of c' = Some d' ->
  Ascii.compare c c' = Z.compare d d'.
Proof.
  unfold digit_of, Ascii.compare, nat_of_ascii.
  destruct ((48 <=? N.to_nat (N_of_ascii c))%nat &&
            (N.to_nat (N_of_ascii c) <=? 57)%nat); [|discriminate].
  destruct ((48 <=? N.to_nat (N_of_ascii c'))%nat &&
            (N.to_nat (N_of_ascii c') <=? 57)%nat); [|discriminate].
  intros [= <-] [= <-].
  destruct (N.compare_spec (N_of_ascii c) (N_of_ascii c')) as [E|L|G];
    symmetry.
  - apply Z.compare_eq_iff. rewrite E. reflexivity.
  - apply Z.compare_lt_iff. lia.
  - apply Z.compare_gt_iff. lia.
Qed.

Lemma compare_app_same (a b c : string) :
  String.compare (a ++ b) (a ++ c) = String.compare b c.
Proof.
  induction a as [|x a IH]; cbn [append String.compare]; [reflexivity|].
  unfold Ascii.compare. rewrite N.compare_refl. exact IH.
Qed.

Lemma year_compare (y1 y2 : Z) (r1 r2 : string) :
  1000 <= y1 -> y1 < y2 -> y2 <= 9999 ->
  String.compare (zero_filled 4 y1 ++ r1) (zero_filled 4 y2 ++ r2) = Lt.
Proof.
  intros L H U.
  assert (F : forallb
                (fun z =>
                   match zero_filled 4 z with
                   | String c1 (String c2 (String c3 (String c4 EmptyString))) =>
                       match digit_of c1, digit_of c2, digit_of c3, digit_of c4 with
                       | Some d1, Some d2, Some d3, Some d4 =>
                           1000 * d1 + 100 * d2 + 10 * d3 + d4 =? z
                       | _, _, _, _ => false
                       end
                   | _ => false
                   end) (date_range 1000 (Z.to_nat 9000)) = true)
    by (vm_compute; reflexivity).
  rewrite forallb_forall in F.
  pose proof (F y1 (proj2 (date_range_bounds 1000 (Z.to_nat 9000) y1) ltac:(lia)))
    as F1.
  pose proof (F y2 (proj2 (date_range_bounds 1000 (Z.to_nat 9000) y2) ltac:(lia)))
    as F2.
  clear F.
  destruct (zero_filled 4 y1) as [|a1 [|a2 [|a3 [|a4 [|a5 s]]]]]; try discriminate.
  destruct (zero_filled 4 y2) as [|b1 [|b2 [|b3 [|b4 [|b5 s]]]]]; try discriminate.
  destruct (digit_of a1) as [d1|] eqn:A1; [|discriminate].
  destruct (digit_of a2) as [d2|] eqn:A2; [|discriminate].
  destruct (digit_of a3) as [d3|] eqn:A3; [|discriminate].
  destruct (digit_of a4) as [d4|] eqn:A4; [|discriminate].
  destruct (digit_of b1) as [e1|] eqn:B1; [|discriminate].
  destruct (digit_of b2) as [e2|] eqn:B2; [|discriminate].
  destruct (digit_of b3) as [e3|] eqn:B3; [|discriminate].
  destruct (digit_of b4) as [e4|] eqn:B4; [|discriminate].
  apply Z.eqb_eq in F1. apply Z.eqb_eq in F2.
  pose proof (digit_of_range _ _ A1). pose proof (digit_of_range _ _ A2).
  pose proof (digit_of_range _ _ A3). pose proof (digit_of_range _ _ A4).
  pose proof (digit_of_range _ _ B1). pose proof (digit_of_range _ _ B2).
  pose proof (digit_of_range _ _ B3). pose proof (digit_of_range _ _ B4).
  cbn [append String.compare].
  rewrite (digit_compare _ _ _ _ A1 B1), (digit_compare _ _ _ _ A2 B2),
    (digit_compare _ _ _ _ A3 B3), (digit_compare _ _ _ _ A4 B4).
  destruct (Z.compare_spec d1 e1); [|reflexivity|lia].
  destruct (Z.compare_spec d2 e2); [|reflexivity|lia].
  destruct (Z.compare_spec d3 e3); [|reflexivity|lia].
  destruct (Z.compare_spec d4 e4); [|reflexivity|lia].
  lia.
Qed.

Lemma week_compare (w1 w2 : Z) :
  0 <= w1 -> w1 <= w2 -> w2 <= 53 ->
  String.compare (zero_filled 2 w1) (zero_filled 2 w2) <> Gt.
Proof.
  intros L H U.
  assert (F : forallb
                (fun z =>
                   match zero_filled 2 z with
                   | String c1 (String c2 EmptyString) =>
                       match digit_of c1, digit_of c2 with
                       | Some d1, Some d2 => 10 * d1 + d2 =? z
                       | _, _ => false
                       end
                   | _ => false
                   end) (date_range 0 54) = true)
    by (vm_compute; reflexivity).
  rewrite forallb_forall in F.
  pose proof (F w1 (proj2 (date_range_bounds 0 54 w1) ltac:(simpl; lia))) as F1.
  pose proof (F w2 (proj2 (date_range_bounds 0 54 w2) ltac:(simpl; lia))) as F2.
  clear F.
  destruct (zero_filled 2 w1) as [|a1 [|a2 [|a3 s]]]; try discriminate.
  destruct (zero_filled 2 w2) as [|b1 [|b2 [|b3 s]]]; try discriminate.
  destruct (digit_of a1) as [d1|] eqn:A1; [|discriminate].
  destruct (digit_of a2) as [d2|] eqn:A2; [|discriminate].
  destruct (digit_of b1) as [e1|] eqn:B1; [|discriminate].
  destruct (digit_of b2) as [e2|] eqn:B2; [|discriminate].
  apply Z.eqb_eq in F1. apply Z.eqb_eq in F2.
  pose proof (digit_of_range _ _ A1). pose proof (digit_of_range _ _ A2).
  pose proof (digit_of_range _ _ B1). pose proof (digit_of_range _ _ B2).
  cbn [String.compare].
  rewrite (digit_compare _ _ _ _ A1 B1), (digit_compare _ _ _ _ A2 B2).
  destruct (Z.compare_spec d1 e1); [|discriminate|lia].
  destruct (Z.compare_spec d2 e2); [discriminate|discriminate|lia].
Qed.

Lemma days_before_year_next (y : Z) :
  days_before_year (y + 1) - days_before_year y = if is_leap y then 366 else 365.
Proof.
  unfold days_before_year, is_leap. cbv zeta.
  destruct (Z.eqb_spec (y mod 4) 0); destruct (Z.eqb_spec (y mod 100) 0);
    destruct (Z.eqb_spec (y mod 400) 0); cbn [negb andb orb];
    Z.div_mod_to_equations; lia.
Qed.

Lemma days_before_year_mono (y1 y2 : Z) :
  y1 <= y2 -> days_before_year y1 <= days_before_year y2.
Proof.
  intros H. destruct (Z.eq_dec y1 y2) as [->|N]; [lia|].
  assert (L : y1 < y2) by lia. clear H N.
  assert (S : days_before_year y1 + 365 <= days_before_year y2);
    [|lia].
  unfold days_before_year. cbv zeta. Z.div_mod_to_equations. lia.
Qed.

Lemma days_before_month_aux_leap (y : Z) (n : nat) :
  days_before_month_aux y n = month_days_before (is_leap y) n.
Proof.
  induction n as [|n IH]; [reflexivity|].
  cbn [days_before_month_aux month_days_before]. rewrite IH. reflexivity.
Qed.

Lemma month_days_total (leap : bool) (m d : Z) :
  1 <= m <= 12 -> 1 <= d <= month_days leap m ->
  1 <= month_days_before leap (Z.to_nat (m - 1)) + d <=
  if leap then 366 else 365.
Proof.
  intros M D.
  assert (C : m = 1 \/ m = 2 \/ m = 3 \/ m = 4 \/ m = 5 \/ m = 6 \/ m = 7 \/
              m = 8 \/ m = 9 \/ m = 10 \/ m = 11 \/ m = 12) by lia.
  destruct leap;
    destruct C as [C|[C|[C|[C|[C|[C|[C|[C|[C|[C|[C|C]]]]]]]]]]]; subst m;
    match type of D with
    | context [month_days ?b ?m] =>
        let v := eval vm_compute in (month_days b m) in
        change (month_days b m) with v in D
    end;
    match goal with
    | |- context [month_days_before ?b ?n] =>
        let v := eval vm_compute in (month_days_before b n) in
        change (month_days_before b n) with v
    end; lia.
Qed.

Lemma yday_bounds (t : datetime) :
  valid_datetime t ->
  1 <= yday t <= if is_leap (year t) then 366 else 365.
Proof.
  intros (_ & M & D & _). unfold yday, days_before_month.
  rewrite days_before_month_aux_leap.
  apply month_days_total; [exact M | exact D].
Qed.

Lemma date_order (t1 t2 : datetime) :
  valid_datetime t1 -> valid_datetime t2 ->
  datetime_date t1 <= datetime_date t2 ->
  year t1 < year t2 \/ (year t1 = year t2 /\ yday t1 <= yday t2).
Proof.
  intros V1 V2. pose proof (yday_bounds t1 V1) as Y1.
  pose proof (yday_bounds t2 V2) as Y2.
  unfold datetime_date, ymd2ord. fold (yday t1) (yday t2).
  replace (days_before_year (year t1) + days_before_month (year t1) (month t1) + day t1)
    with (days_before_year (year t1) + yday t1) by (unfold yday; lia).
  replace (days_before_year (year t2) + days_before_month (year t2) (month t2) + day t2)
    with (days_before_year (year t2) + yday t2) by (unfold yday; lia).
  intros H. destruct (Z.lt_trichotomy (year t1) (year t2)) as [L|[E|G]].
  - left. exact L.
  - right. rewrite E in *. split; [reflexivity | lia].
  - exfalso.
    pose proof (days_before_year_mono (year t2 + 1) (year t1) ltac:(lia)) as Mo.
    pose proof (days_before_year_next (year t2)) as N.
    destruct (is_leap (year t2)); lia.
Qed.

Lemma week_of_year_order (t1 t2 : datetime) :
  year t1 = year t2 -> yday t1 <= yday t2 ->
  week_of_year t1 <= week_of_year t2.
Proof.
  intros E H. unfold week_of_year, weekday, datetime_date, ymd2ord.
  replace (days_before_year (year t1) + days_before_month (year t1) (month t1) + day t1)
    with (days_before_year (year t2) + yday t1) by (unfold yday; rewrite E; lia).
  replace (days_before_year (year t2) + days_before_month (year t2) (month t2) + day t2)
    with (days_before_year (year t2) + yday t2) by (unfold yday; lia).
  generalize (days_before_year (year t2)) (yday t1) (yday t2) H.
  intros b d1 d2 H'. Z.div_mod_to_equations. lia.
Qed.

Lemma week_of_year_bounds (t : datetime) :
  valid_datetime t -> 0 <= week_of_year t <= 53.
Proof.
  intros V. pose proof (yday_bounds t V) as Y.
  unfold week_of_year, weekday.
  generalize (datetime_date t) (yday t) Y. intros o d Y'.
  destruct (is_leap (year t)); Z.div_mod_to_equations; lia.
Qed.

(** The week keys sort in the order of time: from the year 1000 on, a
    commit that is not later than another has a week key that is not
    larger as a string, so that the bars, which [build_bars] sorts by
    key, are in chronological order. *)
Theorem week_keys_chronological (t1 t2 : datetime) :
  valid_datetime t1 -> valid_datetime t2 -> 1000 <= year t1 ->
  datetime_date t1 <= datetime_date t2 ->
  String.leb (strftime_Y_W t1) (strftime_Y_W t2) = true.
Proof.
  intros V1 V2 Y H. unfold String.leb, strftime_Y_W.
  pose proof V1 as ((_ & U1) & _). pose proof V2 as ((_ & U2) & _).
  destruct (date_order t1 t2 V1 V2 H) as [L|(E & D)].
  - rewrite year_compare by lia. reflexivity.
  - rewrite E, compare_app_same. cbn [append String.compare].
    change (Ascii.compare "-" "-") with Eq. cbv iota.
    pose proof (week_of_year_order t1 t2 E D) as W.
    pose proof (week_of_year_bounds t1 V1) as B1.
    pose proof (week_of_year_bounds t2 V2) as B2.
    pose proof (week_compare _ _ (proj1 B1) W (proj2 B2)) as C.
    destruct (String.compare _ _); [reflexivity | reflexivity | contradiction].
Qed.

Lemma week_keys_chronological_witness :
  String.leb (strftime_Y_W (mk_datetime 2023 12 31 23 59 59))
             (strftime_Y_W (mk_datetime 2024 1 1 0 0 0)) = true.
Proof.
  apply week_keys_chronological.
  - vm_compute. intuition congruence.
  - vm_compute. intuition congruence.
  - vm_compute. congruence.
  - vm_compute. congruence.
Defined.

(** ** The normaliser *)

Lemma float_of_Z_bounded (z : Z) :
  0 <= z <= magnitude_bound ->
  exists v, float_of_Q (inject_Z z) = Ok v /\ (0 <= v)%Q /\ (z = 0 -> (v == 0)%Q).
Proof.
  intros (L & U).
  destruct (float_of_Q_bounded (inject_Z z) 1000) as (v & E & V0 & _ & Z0 & _).
  - change 0%Q with (inject_Z 0). rewrite <- Zle_Qle. exact L.
  - rewrite (pow2_nonneg_Z 1000) by lia. rewrite <- Zle_Qle. exact U.
  - lia.
  - exists v. split; [exact E|]. split; [exact V0|]. intros ->. apply Z0. reflexivity.
Qed.

Lemma float_of_1 : float_of_Q (inject_Z 1) = Ok (inject_Z 1).
Proof. vm_compute. reflexivity. Qed.

(** For ints with [xmin <= x <= xmax] (at most 2 ** 1000 apart),
    [normalize] raises [ZeroDivisionError] when [xmin = xmax]; otherwise it
    returns a number between 0 and 1, which is 0 for [x = xmin] and 1 for
    [x = xmax]. *)
Theorem normalize_range (x xmin xmax : Z) :
  xmin <= x <= xmax -> xmax - xmin <= magnitude_bound ->
  (xmin = xmax -> normalize x xmin xmax = Raise ZeroDivisionError) /\
  (xmin < xmax ->
   exists v, normalize x xmin xmax = Ok v /\ (0 <= v)%Q /\ (v <= 1)%Q /\
             (x = xmin -> (v == 0)%Q) /\ (x = xmax -> (v == 1)%Q)).
Proof.
  intros (L & U) B. unfold normalize.
  destruct (float_of_Z_bounded (x - xmin) ltac:(lia)) as (a & Ea & A0 & Az).
  destruct (float_of_Z_bounded (xmax - xmin) ltac:(lia)) as (b & Eb & B0 & Bz).
  rewrite Ea, Eb. cbn [bind]. split.
  - intros E. assert (Zb : (b == 0)%Q) by (apply Bz; lia).
    apply Qeq_bool_iff in Zb. rewrite Zb. reflexivity.
  - intros Lt.
    assert (B1 : (1 <= b)%Q).
    { refine (float_of_Q_mono (inject_Z 1) _ _ b _ _ float_of_1 Eb).
      - discriminate.
      - rewrite <- Zle_Qle. lia. }
    assert (AB : (a <= b)%Q).
    { refine (float_of_Q_mono _ _ a b _ _ Ea Eb).
      - change 0%Q with (inject_Z 0). rewrite <- Zle_Qle. lia.
      - rewrite <- Zle_Qle. lia. }
    assert (Bp : (0 < b)%Q) by (apply Qlt_le_trans with 1%Q; [reflexivity | exact B1]).
    assert (Nb : Qeq_bool b 0 = false).
    { destruct (Qeq_bool b 0) eqn:E; [|reflexivity]. apply Qeq_bool_eq in E.
      rewrite E in Bp. exfalso. exact (Qlt_irrefl 0 Bp). }
    rewrite Nb.
    destruct (float_of_Q_bounded (a / b) 0) as (v & E & V0 & V1 & Z0 & Z1).
    + apply Qle_shift_div_l; [exact Bp|]. rewrite Qmult_0_l. exact A0.
    + apply Qle_shift_div_r; [exact Bp|]. change (pow2 0) with 1%Q.
      rewrite Qmult_1_l. exact AB.
    + lia.
    + exists v. split; [exact E|]. split; [exact V0|]. split; [exact V1|]. split.
      * intros ->. apply Z0. rewrite (Az ltac:(lia)). unfold Qdiv. apply Qmult_0_l.
      * intros ->. apply Z1. change (pow2 0) with 1%Q.
        rewrite Ea in Eb. injection Eb as ->. field.
        intros N. rewrite N in Bp. exact (Qlt_irrefl 0 Bp).
Qed.

Lemma normalize_range_witness :
  (3 = 7 -> normalize 5 3 7 = Raise ZeroDivisionError) /\
  (3 < 7 ->
   exists v, normalize 5 3 7 = Ok v /\ (0 <= v)%Q /\ (v <= 1)%Q /\
             (5 = 3 -> (v == 0)%Q) /\ (5 = 7 -> (v == 1)%Q)).
Proof.
  apply normalize_range.
  - lia.
  - vm_compute. discriminate.
Defined.
